(** * Federated training coordination of [torchlib/utils.py]

    A shallow embedding of the barrier-synchronised training loop:
    [federated_avg], the start-up of [train_federated], the coordinator
    [synchronizer] and the worker loop [train_on_server].

    Conventions.
    - Python [float] is IEEE binary64, modelled by Rocq's primitive [float].
    - Python [int] is [Z]; [%] is floored like [Z.modulo] and raises on a
      zero divisor.
    - A [dict] (also one held by a [multiprocessing.Manager]) is an
      association list in insertion order, because [federated_avg] and the
      weight computation iterate dictionaries in that order.
    - Exceptions are explicit: fallible code returns a [result].
    - The processes are labelled transition systems over one shared state;
      a step is one statement of the source on the shared objects. *)

From Stdlib Require Import ZArith List String Bool Lia.
From Stdlib Require Import Floats.PrimFloat.
From Stdlib Require Numbers.Cyclic.Int63.Uint63.
From Stdlib Require Floats.SpecFloat Floats.FloatOps Floats.FloatAxioms.
Import ListNotations.

Set Warnings "-inexact-float".
Set Implicit Arguments.
Local Open Scope Z_scope.

(** ** Exceptions *)

Inductive exn : Type :=
| IndexError
| KeyError
| AttributeError
| ZeroDivisionError
| UnboundLocalError.

Inductive result (A : Type) : Type :=
| Ok (a : A)
| Raise (e : exn).

Arguments Ok {A} a.
Arguments Raise {A} e.

Definition bind {A B : Type} (r : result A) (k : A -> result B) : result B :=
  match r with
  | Ok a => k a
  | Raise e => Raise e
  end.

Notation "x <- r ;; k" := (bind r (fun x => k))
  (at level 61, r at next level, right associativity).

(** The exceptions raised outside the dictionaries and the arithmetic of
    the federated core: by assertions, by an operation on [None], by
    numpy, by the constructors of the helper classes. *)
Inductive pyexn : Type :=
| Builtin (e : exn)
| NotImplementedError
| AssertionError
| TypeError
| ValueError.

Coercion Builtin : exn >-> pyexn.

Inductive outcome (A : Type) : Type :=
| Returns (a : A)
| Throws (e : pyexn).

Arguments Returns {A} a.
Arguments Throws {A} e.

(** ** Numbers *)

(** [int -> float] conversion ([float(n)], also numpy's cast of an integer
    array in a true division); exact below [2^53]. *)
Definition float_of_Z (z : Z) : float :=
  if z <? 0
  then PrimFloat.opp (PrimFloat.of_uint63 (Uint63.of_Z (- z)))
  else PrimFloat.of_uint63 (Uint63.of_Z z).

(** [a % b] on Python integers. *)
Definition py_mod (a b : Z) : result Z :=
  if b =? 0 then Raise ZeroDivisionError else Ok (a mod b).

(** ** Dictionaries *)

(** A key type comes with its equality test ([__eq__] of a hashable). *)
Class Key (K : Type) : Type := { key_eqb : K -> K -> bool }.

#[export] Instance string_Key : Key string := {| key_eqb := String.eqb |}.

Module Dict.
Section Ops.
Context {K V : Type} `{Key K}.

Definition t : Type := list (K * V).

Definition empty : t := [].

(** [d.get(k)]; [d[k]] is [getitem]. *)
Fixpoint lookup (k : K) (d : t) : option V :=
  match d with
  | [] => None
  | (k', v) :: d' => if key_eqb k k' then Some v else lookup k d'
  end.

Definition getitem (k : K) (d : t) : result V :=
  match lookup k d with
  | Some v => Ok v
  | None => Raise KeyError
  end.

Definition mem (k : K) (d : t) : bool :=
  match lookup k d with Some _ => true | None => false end.

(** [d[k] = v]: an existing key keeps its place, a new one goes last. *)
Fixpoint set (k : K) (v : V) (d : t) : t :=
  match d with
  | [] => [(k, v)]
  | (k', v') :: d' =>
      if key_eqb k k' then (k', v) :: d' else (k', v') :: set k v d'
  end.

Definition remove (k : K) (d : t) : t :=
  filter (fun kv => negb (key_eqb k (fst kv))) d.

(** [del d[k]]. *)
Definition del (k : K) (d : t) : result t :=
  if mem k d then Ok (remove k d) else Raise KeyError.

Definition keys (d : t) : list K := map fst d.
Definition values (d : t) : list V := map snd d.
Definition items (d : t) : list (K * V) := d.
Definition len (d : t) : Z := Z.of_nat (List.length d).

End Ops.
Arguments t : clear implicits.
End Dict.

(** ** Configuration

    The fields [Arguments.__init__] reads from the [federated] section of
    the configuration, the optimiser settings the worker hands to
    [optimizer.__init__] after a merge and, under [training], the fields
    of the same object that [train] reads; of these [train_federated]
    reads [visdom]. *)

(** The fields of [args] that [train] reads. *)
Record TrainArguments : Type := {
  mixup : bool;
  mixup_lambda : option float;
  mixup_prob : option float;
  log_interval : Z;
  visdom : bool
}.

Record Arguments : Type := {
  sync_every_n_batch : Z;
  wait_interval : float;
  keep_optim_dict : bool;
  weighted_averaging : bool;
  lr : float;
  weight_decay : float;
  optimizer : string;
  beta1 : float;
  beta2 : float;
  training : TrainArguments
}.

(** The keyword arguments of [optimizer.__init__]. *)
Record optim_kwargs : Type := {
  kw_lr : float;
  kw_weight_decay : float;
  kw_betas : option (float * float)
}.

(** ** External collaborators

    [torch.nn.Module] and its optimiser, syft's [scale_model] and
    [add_model], one local optimisation step on a batch (returning the
    batch loss), [numpy.mean] and [numpy.average] with weights, which can
    raise. syft's functions update their first argument in place and
    return it; every model the coordinator reads from a manager
    dictionary is a fresh object, so they are functions here. *)

Class Torch : Type := {
  Model : Type;
  Optim : Type;
  Batch : Type;
  scale_model : Model -> float -> Model;
  add_model : Model -> Model -> Model;
  train_batch : Model -> Optim -> Batch -> Model * Optim * float;
  init_optim : Model -> optim_kwargs -> Optim -> Optim;
  np_mean : list float -> float;
  np_average : list float -> list float -> outcome float
}.

(** Keys of a worker's loss dictionary: a batch index or ["final"]. *)
Inductive loss_key : Type :=
| AtBatch (i : Z)
| Final.

Definition loss_key_eqb (a b : loss_key) : bool :=
  match a, b with
  | AtBatch i, AtBatch j => i =? j
  | Final, Final => true
  | _, _ => false
  end.

#[export] Instance loss_key_Key : Key loss_key := {| key_eqb := loss_key_eqb |}.

Section Federated.
Context {T : Torch}.

(** A Python value that is either [None] or a module. *)
Definition pymodel : Type := option Model.

(** ** [federated_avg] *)

(** A call of syft's [scale_model] or [add_model] on [None] fails at
    [named_parameters]. *)
Definition scale_model_py (model : pymodel) (scale : float) : result Model :=
  match model with
  | Some m => Ok (scale_model m scale)
  | None => Raise AttributeError
  end.

Definition add_model_py (dst src : pymodel) : result Model :=
  match dst, src with
  | Some d, Some s => Ok (add_model d s)
  | _, _ => Raise AttributeError
  end.

(** The loop of the [if weights:] branch; [model] is the running sum,
    [None] before the first model. [weights[id]] is evaluated before
    [scale_model] is called. *)
Fixpoint weighted_loop (weights : Dict.t string float)
    (items : list (string * pymodel)) (model : pymodel) : result pymodel :=
  match items with
  | [] => Ok model
  | (id, partial_model) :: rest =>
      w <- Dict.getitem id weights ;;
      scaled_model <- scale_model_py partial_model w ;;
      match model with
      | Some m => weighted_loop weights rest (Some (add_model m scaled_model))
      | None => weighted_loop weights rest (Some scaled_model)
      end
  end.

(** The loop [for i in range(1, nr_models)] of the [else] branch. *)
Fixpoint add_loop (model : pymodel) (rest : list pymodel) : result pymodel :=
  match rest with
  | [] => Ok model
  | next :: rest' =>
      m <- add_model_py model next ;;
      add_loop (Some m) rest'
  end.

(** [weights] is [None] or a dictionary; [if weights:] holds for a
    dictionary that is not empty. *)
Definition federated_avg (models : Dict.t string pymodel)
    (weights : option (Dict.t string float)) : result pymodel :=
  match weights with
  | Some ((_ :: _) as w) => weighted_loop w (Dict.items models) None
  | _ =>
      let nr_models := Dict.len models in
      match Dict.values models with
      | [] => Raise IndexError
      | first :: rest =>
          model <- add_loop first rest ;;
          model <- scale_model_py model (1.0 / float_of_Z nr_models)%float ;;
          Ok (Some model)
      end
  end.

(** ** The shared coordination state

    The five manager dictionaries and the two manager values created by
    [train_federated]. [sync_dict] only ever holds the key ["model"]. *)

Record Shared : Type := {
  result_dict : Dict.t string pymodel;
  waiting_for_sync_dict : Dict.t string bool;
  sync_dict : Dict.t string pymodel;
  progress_dict : Dict.t string (Z * Z);
  loss_dict : Dict.t string (Dict.t loss_key float);
  stop : bool;
  sync_completed : bool
}.

Definition with_result_dict (s : Shared) d : Shared :=
  {| result_dict := d;
     waiting_for_sync_dict := waiting_for_sync_dict s;
     sync_dict := sync_dict s;
     progress_dict := progress_dict s;
     loss_dict := loss_dict s;
     stop := stop s;
     sync_completed := sync_completed s |}.

Definition with_waiting (s : Shared) d : Shared :=
  {| result_dict := result_dict s;
     waiting_for_sync_dict := d;
     sync_dict := sync_dict s;
     progress_dict := progress_dict s;
     loss_dict := loss_dict s;
     stop := stop s;
     sync_completed := sync_completed s |}.

Definition with_sync_dict (s : Shared) d : Shared :=
  {| result_dict := result_dict s;
     waiting_for_sync_dict := waiting_for_sync_dict s;
     sync_dict := d;
     progress_dict := progress_dict s;
     loss_dict := loss_dict s;
     stop := stop s;
     sync_completed := sync_completed s |}.

Definition with_progress (s : Shared) d : Shared :=
  {| result_dict := result_dict s;
     waiting_for_sync_dict := waiting_for_sync_dict s;
     sync_dict := sync_dict s;
     progress_dict := d;
     loss_dict := loss_dict s;
     stop := stop s;
     sync_completed := sync_completed s |}.

Definition with_loss (s : Shared) d : Shared :=
  {| result_dict := result_dict s;
     waiting_for_sync_dict := waiting_for_sync_dict s;
     sync_dict := sync_dict s;
     progress_dict := progress_dict s;
     loss_dict := d;
     stop := stop s;
     sync_completed := sync_completed s |}.

Definition with_stop (s : Shared) b : Shared :=
  {| result_dict := result_dict s;
     waiting_for_sync_dict := waiting_for_sync_dict s;
     sync_dict := sync_dict s;
     progress_dict := progress_dict s;
     loss_dict := loss_dict s;
     stop := b;
     sync_completed := sync_completed s |}.

Definition with_sync_completed (s : Shared) b : Shared :=
  {| result_dict := result_dict s;
     waiting_for_sync_dict := waiting_for_sync_dict s;
     sync_dict := sync_dict s;
     progress_dict := progress_dict s;
     loss_dict := loss_dict s;
     stop := stop s;
     sync_completed := b |}.

(** [sync_dict["model"] = model] *)
Definition publish_merged (s : Shared) (model : pymodel) : Shared :=
  with_sync_dict s (Dict.set "model"%string model (sync_dict s)).

(** ** One pass of the coordinator *)

(** The branch on [len(result_dict)]: with one entry the loop over
    [result_dict.values()] stores it, with none nothing happens, otherwise
    the entries are copied into [models] and averaged. *)
Definition resolve_models (weights : Dict.t string float) (s : Shared)
    : result Shared :=
  if Dict.len (result_dict s) =? 1 then
    Ok (fold_left publish_merged (Dict.values (result_dict s)) s)
  else if Dict.len (result_dict s) =? 0 then
    Ok s
  else
    let models :=
      fold_left (fun models kv => Dict.set (fst kv) (snd kv) models)
                (Dict.items (result_dict s)) Dict.empty in
    avg_model <- federated_avg models (Some weights) ;;
    Ok (publish_merged s avg_model).

(** [for k in waiting_for_sync_dict.keys(): waiting_for_sync_dict[k] = False] *)
Definition release_barrier (s : Shared) : Shared :=
  with_waiting s
    (fold_left (fun d k => Dict.set k false d)
               (Dict.keys (waiting_for_sync_dict s))
               (waiting_for_sync_dict s)).

(** ** Start-up of [train_federated] *)

(** [train_loaders]: the workers in insertion order, each by its [id] and
    the batches of its loader. *)
Definition loaders : Type := list (string * list Batch).

Definition empty_shared : Shared :=
  {| result_dict := Dict.empty;
     waiting_for_sync_dict := Dict.empty;
     sync_dict := Dict.empty;
     progress_dict := Dict.empty;
     loss_dict := Dict.empty;
     stop := false;
     sync_completed := false |}.

Definition register_worker (s : Shared) (wl : string * list Batch) : Shared :=
  let id := fst wl in
  {| result_dict := Dict.set id None (result_dict s);
     waiting_for_sync_dict := Dict.set id false (waiting_for_sync_dict s);
     sync_dict := sync_dict s;
     progress_dict :=
       Dict.set id (0, Z.of_nat (List.length (snd wl))) (progress_dict s);
     loss_dict := Dict.set id Dict.empty (loss_dict s);
     stop := stop s;
     sync_completed := sync_completed s |}.

Definition init_shared (train_loaders : loaders) : Shared :=
  fold_left register_worker train_loaders empty_shared.

(** The batch counts in the order of [progress_dict.items()]. *)
Definition batch_counts (progress : Dict.t string (Z * Z)) : list Z :=
  map (fun kv => snd (snd kv)) (Dict.items progress).

Definition total_batches (progress : Dict.t string (Z * Z)) : Z :=
  fold_left Z.add (batch_counts progress) 0.

(** [np.array(weights) / total_batches] *)
Definition np_weights (progress : Dict.t string (Z * Z)) : list float :=
  map (fun batches =>
         (float_of_Z batches / float_of_Z (total_batches progress))%float)
      (batch_counts progress).

Definition w_dict (args : Arguments) (progress : Dict.t string (Z * Z))
    : Dict.t string float :=
  if weighted_averaging args then
    fold_left (fun w wi => Dict.set (snd wi) (fst wi) w)
              (combine (np_weights progress) (Dict.keys progress))
              Dict.empty
  else
    fold_left (fun w idt =>
                 Dict.set idt
                   (1.0 / float_of_Z (Z.of_nat (List.length (Dict.keys progress))))%float
                   w)
              (Dict.keys progress) Dict.empty.

(** Everything [train_federated] does before it starts a process; nothing
    in it can raise. *)
Definition train_federated_start (args : Arguments) (train_loaders : loaders)
    : result (Shared * Dict.t string float) :=
  let s := init_shared train_loaders in
  Ok (s, w_dict args (progress_dict s)).

(** ** Processes

    Every process is a transition system over the shared state. A step
    executes one statement of the source and reports the operation it did
    on the shared objects. *)

Inductive event : Type :=
| EvTau
| EvSleep (seconds : float)
| EvProgress (id : string) (batch_idx L : Z)
| EvPublish (id : string) (model : Model)
| EvLoss (id : string) (k : loss_key) (v : float)
| EvRound (completed : bool)
| EvWaiting (id : string) (waiting : bool)
| EvDelWaiting (id : string)
| EvResolve
| EvRelease
| EvLoad (model : Model)
| EvStop
| EvRaise (e : pyexn).

(** *** The coordinator [synchronizer] *)

Inductive sync_pc : Type :=
| SOuter      (* while not stop.value *)
| SWaitAll    (* while not all(waiting_for_sync_dict.values()) ... *)
| SWaitStop   (* ... and not stop.value *)
| SSleep      (* sleep(0.1) *)
| SResolve    (* the branch on len(result_dict) *)
| SRelease    (* for k in waiting_for_sync_dict.keys() *)
| SComplete   (* sync_completed.value = True *)
| SDone
| SFailed (e : exn).

Definition sync_terminal (pc : sync_pc) : bool :=
  match pc with
  | SDone | SFailed _ => true
  | _ => false
  end.

(** [wait_interval] is the keyword argument of [synchronizer];
    [train_federated] passes [args.wait_interval] for it. The body never
    reads it: the wait loop calls [sleep(0.1)]. *)
Definition synchronizer_step (weights : Dict.t string float)
    (wait_interval : float) (s : Shared) (pc : sync_pc)
    : event * Shared * sync_pc :=
  match pc with
  | SOuter => (EvTau, s, if stop s then SDone else SWaitAll)
  | SWaitAll =>
      (EvTau, s,
       if forallb (fun b : bool => b) (Dict.values (waiting_for_sync_dict s))
       then SResolve else SWaitStop)
  | SWaitStop => (EvTau, s, if stop s then SResolve else SSleep)
  | SSleep => (EvSleep 0.1%float, s, SWaitAll)
  | SResolve =>
      match resolve_models weights s with
      | Ok s' => (EvResolve, s', SRelease)
      | Raise e => (EvRaise (Builtin e), s, SFailed e)
      end
  | SRelease => (EvRelease, release_barrier s, SComplete)
  | SComplete => (EvRound true, with_sync_completed s true, SOuter)
  | SDone => (EvTau, s, SDone)
  | SFailed e => (EvTau, s, SFailed e)
  end.

(** The coordinator among the other processes: before each of its steps
    the others change the shared state by the next function of [envs].
    The result counts the resolution passes the coordinator began. *)
Fixpoint synchronizer_run (weights : Dict.t string float)
    (wait_interval : float) (envs : list (Shared -> Shared))
    (s : Shared) (pc : sync_pc) : Shared * sync_pc * nat :=
  match envs with
  | [] => (s, pc, O)
  | env :: envs' =>
      let '(_, s', pc') := synchronizer_step weights wait_interval (env s) pc in
      let '(s'', pc'', n) :=
        synchronizer_run weights wait_interval envs' s' pc' in
      (s'', pc'', match pc with SResolve => S n | _ => n end)
  end.

(** The resolution passes still ahead of a coordinator that finds [stop]
    set from now on: one when it is in its wait loop or about to resolve,
    none when it is past the resolution or at the test of the outer loop. *)
Definition final_passes (pc : sync_pc) : nat :=
  match pc with
  | SWaitAll | SWaitStop | SSleep | SResolve => 1
  | SOuter | SRelease | SComplete | SDone | SFailed _ => 0
  end.

(** The steps a coordinator needs at most to terminate once [stop] is set. *)
Definition sync_rank (pc : sync_pc) : nat :=
  match pc with
  | SSleep => 7
  | SWaitAll => 6
  | SWaitStop => 5
  | SResolve => 4
  | SRelease => 3
  | SComplete => 2
  | SOuter => 1
  | SDone | SFailed _ => 0
  end.

(** What the other processes may do to [stop]: nobody clears it. *)
Definition keeps_stop (env : Shared -> Shared) : Prop :=
  forall s, stop s = true -> stop (env s) = true.

(** *** The worker [train_on_server] *)

Inductive worker_pc : Type :=
| WFor                       (* for batch_idx, (data, target) in enumerate(...) *)
| WProgress (b : Batch)      (* progress_dict[worker.id] = (batch_idx, L) *)
| WTest (b : Batch)          (* if batch_idx % n == 0 and batch_idx > 0 *)
| WPublish (b : Batch)       (* result_dict[worker.id] = model *)
| WRecordLoss (b : Batch)    (* loss_dict[worker.id][batch_idx] = avg_loss[-1] *)
| WClearRound (b : Batch)    (* sync_completed.value = False *)
| WSetWaiting (b : Batch)    (* waiting_for_sync_dict[worker.id] = True *)
| WPoll (b : Batch)          (* while not sync_completed.value *)
| WSleep (b : Batch)         (* sleep(args.wait_interval) *)
| WLoad (b : Batch)          (* model.load_state_dict(sync_dict["model"]...) *)
| WTrain (b : Batch)         (* the local optimisation step *)
| WFinalPublish              (* result_dict[worker.id] = model *)
| WFinalLoss                 (* loss_dict[worker.id]["final"] = np.mean(avg_loss) *)
| WFinalProgress             (* progress_dict[worker.id] = (batch_idx + 1, L) *)
| WDelWaiting                (* del waiting_for_sync_dict[worker.id] *)
| WDone
| WFailed (e : exn).

(** The local variables of [train_on_server]. [wk_batch_idx] is [None]
    while [batch_idx] is unbound; [wk_rest] holds the batches that
    [enumerate(train_loader)] has not yielded yet. A model is its
    parameters, so [load_state_dict], which copies into them in place,
    replaces it. The parameters are those the worker has just put into
    [result_dict[worker.id]]: a tensor stored in a manager dictionary
    keeps sharing its storage with the original, and no other process
    writes [result_dict], so the copy shows in that entry too. *)
Record Worker : Type := {
  wk_id : string;
  wk_model : Model;
  wk_optimizer : Optim;
  wk_avg_loss : list float;
  wk_L : Z;
  wk_batch_idx : option Z;
  wk_rest : list Batch;
  wk_pc : worker_pc
}.

Definition at_pc (w : Worker) (pc : worker_pc) : Worker :=
  {| wk_id := wk_id w;
     wk_model := wk_model w;
     wk_optimizer := wk_optimizer w;
     wk_avg_loss := wk_avg_loss w;
     wk_L := wk_L w;
     wk_batch_idx := wk_batch_idx w;
     wk_rest := wk_rest w;
     wk_pc := pc |}.

Definition worker_terminal (pc : worker_pc) : bool :=
  match pc with
  | WDone | WFailed _ => true
  | _ => false
  end.

(** The process as [train_federated] creates it. *)
Definition spawn_worker (id : string) (model : Model) (optimizer : Optim)
    (train_loader : list Batch) : Worker :=
  {| wk_id := id;
     wk_model := model;
     wk_optimizer := optimizer;
     wk_avg_loss := [];
     wk_L := Z.of_nat (List.length train_loader);
     wk_batch_idx := None;
     wk_rest := train_loader;
     wk_pc := WFor |}.

Definition reinit_kwargs (args : Arguments) : optim_kwargs :=
  {| kw_lr := lr args;
     kw_weight_decay := weight_decay args;
     kw_betas :=
       if String.eqb (optimizer args) "Adam"
       then Some (beta1 args, beta2 args) else None |}.

Definition fail (s : Shared) (w : Worker) (e : exn)
    : event * Shared * Worker :=
  (EvRaise (Builtin e), s, at_pc w (WFailed e)).

(** [batch_idx], an error while it is unbound. *)
Definition get_batch_idx (w : Worker) : result Z :=
  match wk_batch_idx w with
  | Some i => Ok i
  | None => Raise UnboundLocalError
  end.

(** [avg_loss[-1]] *)
Definition last_loss (avg_loss : list float) : result float :=
  match rev avg_loss with
  | v :: _ => Ok v
  | [] => Raise IndexError
  end.

Definition worker_step (args : Arguments) (s : Shared) (w : Worker)
    : event * Shared * Worker :=
  let id := wk_id w in
  match wk_pc w with
  | WFor =>
      match wk_rest w with
      | [] => (EvTau, s, at_pc w WFinalPublish)
      | b :: rest =>
          (EvTau, s,
           {| wk_id := id;
              wk_model := wk_model w;
              wk_optimizer := wk_optimizer w;
              wk_avg_loss := wk_avg_loss w;
              wk_L := wk_L w;
              wk_batch_idx :=
                Some (match wk_batch_idx w with Some i => i + 1 | None => 0 end);
              wk_rest := rest;
              wk_pc := WProgress b |})
      end
  | WProgress b =>
      match get_batch_idx w with
      | Raise e => fail s w e
      | Ok i =>
          (EvProgress id i (wk_L w),
           with_progress s (Dict.set id (i, wk_L w) (progress_dict s)),
           at_pc w (WTest b))
      end
  | WTest b =>
      match (i <- get_batch_idx w ;;
             r <- py_mod i (sync_every_n_batch args) ;;
             Ok ((r =? 0) && (0 <? i))%bool) with
      | Raise e => fail s w e
      | Ok true => (EvTau, s, at_pc w (WPublish b))
      | Ok false => (EvTau, s, at_pc w (WTrain b))
      end
  | WPublish b =>
      (EvPublish id (wk_model w),
       with_result_dict s (Dict.set id (Some (wk_model w)) (result_dict s)),
       at_pc w (WRecordLoss b))
  | WRecordLoss b =>
      match (v <- last_loss (wk_avg_loss w) ;;
             d <- Dict.getitem id (loss_dict s) ;;
             i <- get_batch_idx w ;;
             Ok (i, v, d)) with
      | Raise e => fail s w e
      | Ok (i, v, d) =>
          (EvLoss id (AtBatch i) v,
           with_loss s (Dict.set id (Dict.set (AtBatch i) v d) (loss_dict s)),
           at_pc w (WClearRound b))
      end
  | WClearRound b =>
      (EvRound false, with_sync_completed s false, at_pc w (WSetWaiting b))
  | WSetWaiting b =>
      (EvWaiting id true,
       with_waiting s (Dict.set id true (waiting_for_sync_dict s)),
       at_pc w (WPoll b))
  | WPoll b =>
      (EvTau, s, at_pc w (if sync_completed s then WLoad b else WSleep b))
  | WSleep b => (EvSleep (wait_interval args), s, at_pc w (WPoll b))
  | WLoad b =>
      match Dict.getitem "model"%string (sync_dict s) with
      | Raise e => fail s w e
      | Ok None => fail s w AttributeError
      | Ok (Some merged) =>
          (EvLoad merged,
           with_result_dict s (Dict.set id (Some merged) (result_dict s)),
           {| wk_id := id;
              wk_model := merged;
              wk_optimizer :=
                if keep_optim_dict args then wk_optimizer w
                else init_optim merged (reinit_kwargs args) (wk_optimizer w);
              wk_avg_loss := wk_avg_loss w;
              wk_L := wk_L w;
              wk_batch_idx := wk_batch_idx w;
              wk_rest := wk_rest w;
              wk_pc := WTrain b |})
      end
  | WTrain b =>
      let '(model, optimizer, loss) :=
        train_batch (wk_model w) (wk_optimizer w) b in
      (EvTau, s,
       {| wk_id := id;
          wk_model := model;
          wk_optimizer := optimizer;
          wk_avg_loss := wk_avg_loss w ++ [loss];
          wk_L := wk_L w;
          wk_batch_idx := wk_batch_idx w;
          wk_rest := wk_rest w;
          wk_pc := WFor |})
  | WFinalPublish =>
      (EvPublish id (wk_model w),
       with_result_dict s (Dict.set id (Some (wk_model w)) (result_dict s)),
       at_pc w WFinalLoss)
  | WFinalLoss =>
      let v := np_mean (wk_avg_loss w) in
      match Dict.getitem id (loss_dict s) with
      | Raise e => fail s w e
      | Ok d =>
          (EvLoss id Final v,
           with_loss s (Dict.set id (Dict.set Final v d) (loss_dict s)),
           at_pc w WFinalProgress)
      end
  | WFinalProgress =>
      match get_batch_idx w with
      | Raise e => fail s w e
      | Ok i =>
          (EvProgress id (i + 1) (wk_L w),
           with_progress s (Dict.set id (i + 1, wk_L w) (progress_dict s)),
           at_pc w WDelWaiting)
      end
  | WDelWaiting =>
      match Dict.del id (waiting_for_sync_dict s) with
      | Raise e => fail s w e
      | Ok d => (EvDelWaiting id, with_waiting s d, at_pc w WDone)
      end
  | WDone => (EvTau, s, w)
  | WFailed _ => (EvTau, s, w)
  end.

(** *** The orchestrator [train_federated] once the processes run *)

Inductive main_pc : Type :=
| MJoin                      (* for j in jobs: j.join() *)
| MStop                      (* stop_sync.value = True *)
| MJoinSync                  (* synchronize.join() *)
| MRead                      (* model = sync_dict["model"] *)
| MAverage (model : pymodel) (* avg_loss = np.average([l["final"] ...], ...) *)
| MReport (model : pymodel) (avg_loss : float)
                             (* if args.visdom: vis_params["vis"].line(...) *)
| MReturned (model : pymodel)
| MFailed (e : pyexn).

(** The processes with the shared state, and two local variables of the
    orchestrator that its last statements read: the array [weights]
    computed at start-up (not [w_dict]) and whether [vis_params] was
    passed, which is [None] by default. *)
Record System : Type := {
  sys_shared : Shared;
  sys_workers : list Worker;
  sys_sync : sync_pc;
  sys_main : main_pc;
  sys_weights : list float;
  sys_vis_params : bool
}.

Inductive actor : Type :=
| ActWorker (n : nat)
| ActSync
| ActMain.

(** [[l["final"] for l in loss_dict.values()]] *)
Fixpoint final_losses (ls : list (Dict.t loss_key float))
    : result (list float) :=
  match ls with
  | [] => Ok []
  | l :: rest =>
      v <- Dict.getitem Final l ;;
      vs <- final_losses rest ;;
      Ok (v :: vs)
  end.

(** [np.average([l["final"] for l in loss_dict.values()], weights=weights)] *)
Definition average_loss (s : Shared) (weights : list float) : outcome float :=
  match final_losses (Dict.values (loss_dict s)) with
  | Ok finals => np_average finals weights
  | Raise e => Throws (Builtin e)
  end.

(** Subscripting [vis_params] while it is [None] is a [TypeError]; the
    branch without visdom prints. *)
Definition main_step (args : Arguments) (sys : System)
    : event * Shared * main_pc :=
  let s := sys_shared sys in
  match sys_main sys with
  | MJoin =>
      (EvTau, s,
       if forallb (fun w => worker_terminal (wk_pc w)) (sys_workers sys)
       then MStop else MJoin)
  | MStop => (EvStop, with_stop s true, MJoinSync)
  | MJoinSync =>
      (EvTau, s, if sync_terminal (sys_sync sys) then MRead else MJoinSync)
  | MRead =>
      match Dict.getitem "model"%string (sync_dict s) with
      | Ok model => (EvTau, s, MAverage model)
      | Raise e => (EvRaise (Builtin e), s, MFailed (Builtin e))
      end
  | MAverage model =>
      match average_loss s (sys_weights sys) with
      | Returns avg_loss => (EvTau, s, MReport model avg_loss)
      | Throws e => (EvRaise e, s, MFailed e)
      end
  | MReport model avg_loss =>
      if visdom (training args) && negb (sys_vis_params sys)
      then (EvRaise TypeError, s, MFailed TypeError)
      else (EvTau, s, MReturned model)
  | MReturned model => (EvTau, s, MReturned model)
  | MFailed e => (EvTau, s, MFailed e)
  end.

Fixpoint replace_nth {A : Type} (n : nat) (a : A) (l : list A) : list A :=
  match l, n with
  | [], _ => []
  | _ :: l', O => a :: l'
  | x :: l', S n' => x :: replace_nth n' a l'
  end.

(** One step of the process the scheduler picked. *)
Definition system_step (args : Arguments) (weights : Dict.t string float)
    (who : actor) (sys : System) : event * System :=
  match who with
  | ActWorker n =>
      match nth_error (sys_workers sys) n with
      | None => (EvTau, sys)
      | Some w =>
          let '(ev, s', w') := worker_step args (sys_shared sys) w in
          (ev,
           {| sys_shared := s';
              sys_workers := replace_nth n w' (sys_workers sys);
              sys_sync := sys_sync sys;
              sys_main := sys_main sys;
              sys_weights := sys_weights sys;
              sys_vis_params := sys_vis_params sys |})
      end
  | ActSync =>
      let '(ev, s', pc') :=
        synchronizer_step weights (wait_interval args)
                          (sys_shared sys) (sys_sync sys) in
      (ev,
       {| sys_shared := s';
          sys_workers := sys_workers sys;
          sys_sync := pc';
          sys_main := sys_main sys;
          sys_weights := sys_weights sys;
          sys_vis_params := sys_vis_params sys |})
  | ActMain =>
      let '(ev, s', pc') := main_step args sys in
      (ev,
       {| sys_shared := s';
          sys_workers := sys_workers sys;
          sys_sync := sys_sync sys;
          sys_main := pc';
          sys_weights := sys_weights sys;
          sys_vis_params := sys_vis_params sys |})
  end.

Fixpoint system_run (args : Arguments) (weights : Dict.t string float)
    (schedule : list actor) (sys : System) : list event * System :=
  match schedule with
  | [] => ([], sys)
  | who :: schedule' =>
      let '(ev, sys') := system_step args weights who sys in
      let '(evs, sys'') := system_run args weights schedule' sys' in
      (ev :: evs, sys'')
  end.

(** The system right after [train_federated] has started its processes:
    every worker holds a copy of [model] and its optimiser
    [optim.get_optim(worker.id)]. [vis_params] tells whether the caller
    passed that argument. *)
Definition start_system (args : Arguments) (model : Model)
    (get_optim : string -> Optim) (train_loaders : loaders)
    (vis_params : bool) : System * Dict.t string float :=
  let s := init_shared train_loaders in
  ({| sys_shared := s;
      sys_workers :=
        map (fun wl => spawn_worker (fst wl) model (get_optim (fst wl)) (snd wl))
            train_loaders;
      sys_sync := SOuter;
      sys_main := MJoin;
      sys_weights := np_weights (progress_dict s);
      sys_vis_params := vis_params |},
   w_dict args (progress_dict s)).


(** *** Runs under interference *)

(** What an event says of the shared state right after the step that
    reported it. *)
Definition event_holds (ev : event) (s : Shared) : Prop :=
  match ev with
  | EvProgress id i L => Dict.lookup id (progress_dict s) = Some (i, L)
  | EvPublish id model => Dict.lookup id (result_dict s) = Some (Some model)
  | EvLoss id k v =>
      exists d, Dict.lookup id (loss_dict s) = Some d /\ Dict.lookup k d = Some v
  | EvRound completed => sync_completed s = completed
  | EvWaiting id waiting =>
      Dict.lookup id (waiting_for_sync_dict s) = Some waiting
  | EvDelWaiting id => Dict.lookup id (waiting_for_sync_dict s) = None
  | EvStop => stop s = true
  | _ => True
  end.

(** A worker among the other processes, which change the shared state by
    the next function of [envs] before each of its steps. The trace pairs
    every event with the shared state right after the step. *)
Fixpoint worker_run (args : Arguments) (envs : list (Shared -> Shared))
    (s : Shared) (w : Worker) : list (event * Shared) * Worker :=
  match envs with
  | [] => ([], w)
  | env :: envs' =>
      let '(ev, s', w') := worker_step args (env s) w in
      let '(trace, w'') := worker_run args envs' s' w' in
      ((ev, s') :: trace, w'')
  end.

(** What the other processes may do to the entries of worker [id]: its
    loss dictionary and its waiting flag stay in place (only the worker
    itself deletes its flag). *)
Definition keeps_worker_entries (id : string) (env : Shared -> Shared) : Prop :=
  forall s,
    (Dict.mem id (loss_dict s) = true -> Dict.mem id (loss_dict (env s)) = true)
    /\ (Dict.mem id (waiting_for_sync_dict s) = true ->
        Dict.mem id (waiting_for_sync_dict (env s)) = true).

(** The loop invariant of [train_on_server]: [avg_loss] holds one loss per
    batch already trained on, and [batch_idx] is the index of the batch
    last taken from the loader. *)
Definition worker_inv (w : Worker) : Prop :=
  let trained := Z.of_nat (List.length (wk_avg_loss w)) in
  let rest := Z.of_nat (List.length (wk_rest w)) in
  let last_idx := if trained =? 0 then None else Some (trained - 1) in
  match wk_pc w with
  | WFor => trained + rest = wk_L w /\ wk_batch_idx w = last_idx
  | WProgress _ | WTest _ | WPublish _ | WRecordLoss _ | WClearRound _
  | WSetWaiting _ | WPoll _ | WSleep _ | WLoad _ | WTrain _ =>
      trained + 1 + rest = wk_L w /\ wk_batch_idx w = Some trained
  | WFinalPublish | WFinalLoss | WFinalProgress | WDelWaiting | WDone =>
      trained = wk_L w /\ wk_rest w = [] /\ wk_batch_idx w = last_idx
  | WFailed _ => True
  end.

(** ** Sums of scaled models

    The value the [if weights:] branch of [federated_avg] builds from the
    pairs of a model and its weight, in their order. *)
Definition weighted_sum (terms : list (Model * float)) : pymodel :=
  match terms with
  | [] => None
  | (m, w) :: rest =>
      Some (fold_left (fun acc t => add_model acc (scale_model (fst t) (snd t)))
                      rest (scale_model m w))
  end.

(** The entry [kv] of a dictionary of models holds a model, and [weights]
    holds a weight for its id: together the term [t]. *)
Definition entry_term (weights : Dict.t string float)
    (kv : string * pymodel) (t : Model * float) : Prop :=
  snd kv = Some (fst t) /\ Dict.lookup (fst kv) weights = Some (snd t).

(** [len(train_loader)] and the sum of it over all workers. *)
Definition batches (train_loader : list Batch) : Z :=
  Z.of_nat (List.length train_loader).

Definition all_batches (train_loaders : loaders) : Z :=
  fold_left Z.add (map (fun wl => batches (snd wl)) train_loaders) 0.

(** ** The round as the specification words it

    The models of the ids whose waiting flag is true, merged with the
    configured weights restricted to those ids and renormalised to sum to
    one. Only compared with [resolve_models], never used by it. *)

Definition waiting_ids (s : Shared) : list string :=
  map fst (filter (fun kv : string * bool => snd kv)
                  (Dict.items (waiting_for_sync_dict s))).

Definition is_waiting (s : Shared) (id : string) : bool :=
  match Dict.lookup id (waiting_for_sync_dict s) with
  | Some true => true
  | _ => false
  end.

Definition waiting_models (s : Shared) : Dict.t string pymodel :=
  filter (fun kv => is_waiting s (fst kv)) (result_dict s).

Definition renormalized_weights (weights : Dict.t string float) (s : Shared)
    : Dict.t string float :=
  let restricted := filter (fun kv => is_waiting s (fst kv)) weights in
  let total := fold_left PrimFloat.add (Dict.values restricted) 0%float in
  map (fun kv => (fst kv, (snd kv / total)%float)) restricted.

Definition resolve_waiting_only (weights : Dict.t string float) (s : Shared)
    : result Shared :=
  let models := waiting_models s in
  if Dict.len models =? 1 then
    Ok (fold_left publish_merged (Dict.values models) s)
  else if Dict.len models =? 0 then
    Ok s
  else
    avg_model <- federated_avg models (Some (renormalized_weights weights s)) ;;
    Ok (publish_merged s avg_model).

End Federated.

(** ** A concrete model type

    Used to run the scenarios of the specification. *)

Module Probe.

(** Modelled from the spec: a ModelState is "a mapping from parameter name
    to numeric tensor" and the merge is "the weight-sum of the
    corresponding input tensors"; syft's [scale_model] and [add_model],
    torch's optimisation step, [numpy.mean] and [numpy.average] are not
    under src/. A tensor is one number here, a batch is the number the
    step adds to every parameter and reports as its loss, the mean is the
    sum divided by the length, and the average is the weighted sum divided
    by the sum of the weights, a [TypeError] when the lengths differ and a
    [ZeroDivisionError] when the weights sum to zero. *)
Definition model : Type := Dict.t string float.

Definition scale (m : model) (scale : float) : model :=
  map (fun kv => (fst kv, (snd kv * scale)%float)) m.

(** [add dst src]: every parameter of [src] that [dst] also has is added
    to it; the result is [dst]. *)
Definition add (dst src : model) : model :=
  fold_left (fun d kv =>
               match Dict.lookup (fst kv) d with
               | Some v => Dict.set (fst kv) (snd kv + v)%float d
               | None => d
               end) src dst.

Definition step (m : model) (o : unit) (b : float) : model * unit * float :=
  (map (fun kv => (fst kv, (snd kv + b)%float)) m, o, b).

Definition mean (l : list float) : float :=
  (fold_left PrimFloat.add l 0 / float_of_Z (Z.of_nat (List.length l)))%float.

Definition average (a weights : list float) : outcome float :=
  if negb (List.length a =? List.length weights)%nat then Throws TypeError
  else
    let scl := fold_left PrimFloat.add weights 0%float in
    if PrimFloat.eqb scl 0 then Throws (Builtin ZeroDivisionError)
    else
      Returns
        (fold_left PrimFloat.add
           (map (fun aw => (fst aw * snd aw)%float) (combine a weights))
           0 / scl)%float.

#[export] Instance torch : Torch :=
  {| Model := model;
     Optim := unit;
     Batch := float;
     scale_model := scale;
     add_model := add;
     train_batch := step;
     init_optim := fun _ _ o => o;
     np_mean := mean;
     np_average := average |}.

(** A model with the single parameter ["probe"]. *)
Definition probe (v : float) : model := [("probe"%string, v)].

Definition config (n : Z) (interval : float) (weighted : bool) : Arguments :=
  {| sync_every_n_batch := n;
     wait_interval := interval;
     keep_optim_dict := false;
     weighted_averaging := weighted;
     lr := 0.001;
     weight_decay := 0;
     optimizer := "Adam";
     beta1 := 0.9;
     beta2 := 0.999;
     training :=
       {| mixup := false; mixup_lambda := None; mixup_prob := None;
          log_interval := 10; visdom := false |} |}.

(** The two-worker scenario: synchronisation every 2 batches, worker A
    with 4 batches, worker B with 2, uniform weights, every model starting
    from [probe 0]. *)
Definition two_workers : loaders :=
  [("A"%string, [1; 1; 1; 1]%float); ("B"%string, [3; 3]%float)].

Definition args2 : Arguments := config 2 0.1 false.

Definition started : System * Dict.t string float :=
  start_system args2 (probe 0) (fun _ => tt) two_workers false.

(** B trains both batches and completes; then A trains two batches, reaches
    its synchronisation point at batch index 2 and waits. *)
Definition until_first_round : list actor :=
  repeat (ActWorker 1) 13 ++ repeat (ActWorker 0) 20.

(** The coordinator then gets to its resolution step. *)
Definition at_first_resolution : list actor :=
  until_first_round ++ [ActSync; ActSync].

(** The coordinator completes that round and is back at the test of its
    outer loop when A, released, trains its last batch and completes; the
    orchestrator joins the workers and sets [stop]. *)
Definition stop_at_loop_head : list actor :=
  until_first_round ++ repeat ActSync 5 ++ repeat (ActWorker 0) 20
  ++ [ActMain; ActMain].

Definition run (schedule : list actor) : list event * System :=
  system_run args2 (snd started) schedule (fst started).

Definition idle (n : nat) : list (Shared -> Shared) :=
  repeat (fun s : Shared => s) n.

(** Worker A with 300 batches, worker B with 100. *)
Definition unequal_workers : loaders :=
  [("A"%string, repeat 0%float 300); ("B"%string, repeat 0%float 100)].


(** B has completed and A is at the test of its batch 2. *)
Definition at_sync_test : list actor :=
  repeat (ActWorker 1) 13 ++ repeat (ActWorker 0) 10.

(** The coordinator has resolved the first round and A, released, has
    trained its last batch: it is at the head of its loop with no batch
    left. *)
Definition at_loop_exit : list actor :=
  until_first_round ++ repeat ActSync 5 ++ repeat (ActWorker 0) 8.

(** What worker A does to the shared state by its first steps, with a
    step of nobody in between: it takes its first batch, reports its
    progress, tests for a synchronisation point and trains. *)
Definition first_steps_of_A : list (Shared -> Shared) :=
  let w0 := spawn_worker "A"%string (probe 0) tt [1; 1; 1; 1]%float in
  let w1 := snd (worker_step args2 (sys_shared (fst started)) w0) in
  let w2 := snd (worker_step args2 (sys_shared (fst started)) w1) in
  let w3 := snd (worker_step args2 (sys_shared (fst started)) w2) in
  [ (fun s => snd (fst (worker_step args2 s w0)));
    (fun s => snd (fst (worker_step args2 s w1)));
    (fun s => s);
    (fun s => snd (fst (worker_step args2 s w2)));
    (fun s => snd (fst (worker_step args2 s w3))) ].

(** Both workers have completed, so that no id is left in the waiting
    map, and the coordinator, finding no flag unset, is about to resolve
    again. *)
Definition at_idle_resolution : list actor :=
  until_first_round ++ repeat ActSync 5 ++ repeat (ActWorker 0) 20
  ++ [ActSync; ActSync].

Definition worker_A (sys : System) : Worker :=
  nth 0 (sys_workers sys) (spawn_worker "A"%string (probe 0) tt []).

(** A single registered worker with three batches, at its publishing step
    of batch index 2. *)
Definition lone_state : @Shared torch :=
  init_shared [("A"%string, [1; 1; 1]%float)].


Definition lone_worker : @Worker torch :=
  {| wk_id := "A"%string;
     wk_model := probe 2;
     wk_optimizer := tt;
     wk_avg_loss := [1; 1]%float;
     wk_L := 3;
     wk_batch_idx := Some 2;
     wk_rest := [];
     wk_pc := WPublish 1%float |}.

End Probe.

(** ** Further vocabulary for the processes *)

Unset Implicit Arguments.

Section Vocabulary.
Context {T : Torch}.

(** The coordinator stands in its wait loop or at the test of its outer
    loop: no resolution pass is under way. *)
Definition in_wait_loop (pc : sync_pc) : bool :=
  match pc with
  | SOuter | SWaitAll | SWaitStop | SSleep => true
  | _ => false
  end.

(** The barrier is closed: [stop] is unset and some waiting flag is false. *)
Definition barrier_closed (s : Shared) : bool :=
  negb (stop s)
  && negb (forallb (fun b : bool => b) (Dict.values (waiting_for_sync_dict s))).

(** An entry of [models] that the weighted loop of [federated_avg] gets
    past: its id has a weight and its value is a module. *)
Definition entry_ok (weights : Dict.t string float) (kv : string * pymodel)
    : bool :=
  Dict.mem (fst kv) weights
  && match snd kv with Some _ => true | None => false end.

(** The entry of [result_dict] holds a model: its worker has submitted
    one since the start of the epoch. *)
Definition submitted (kv : string * pymodel) : bool :=
  match snd kv with
  | Some _ => true
  | None => false
  end.

(** What [train_federated] establishes by registering workers. *)
Definition registered (s : Shared) : Prop :=
  Dict.keys (result_dict s) = Dict.keys (progress_dict s)
  /\ Dict.keys (waiting_for_sync_dict s) = Dict.keys (progress_dict s)
  /\ Dict.keys (loss_dict s) = Dict.keys (progress_dict s)
  /\ NoDup (Dict.keys (progress_dict s))
  /\ Forall (fun kv => snd kv = None) (result_dict s)
  /\ Forall (fun kv => snd kv = false) (waiting_for_sync_dict s)
  /\ sync_dict s = []
  /\ stop s = false
  /\ sync_completed s = false.

(** Where the orchestrator stands in relation to the processes it
    started: it sets [stop] only after every worker has ended, reads the
    merged model only after the coordinator has ended too, and what it has
    read or computed since is what the shared state still holds. *)
Definition all_ended (workers : list Worker) : bool :=
  forallb (fun w => worker_terminal (wk_pc w)) workers.

Definition quiescent (sys : System) : Prop :=
  stop (sys_shared sys) = true
  /\ all_ended (sys_workers sys) = true
  /\ sync_terminal (sys_sync sys) = true.

(** The outcome of the last statements of [train_federated] in a state
    that no longer changes: the first of them that raises decides. *)
Inductive main_outcome (args : Arguments) (sys : System) : main_pc -> Prop :=
| NoModel :
    Dict.lookup "model"%string (sync_dict (sys_shared sys)) = None ->
    main_outcome args sys (MFailed (Builtin KeyError))
| NoAverage (model : pymodel) (e : pyexn) :
    Dict.lookup "model"%string (sync_dict (sys_shared sys)) = Some model ->
    average_loss (sys_shared sys) (sys_weights sys) = Throws e ->
    main_outcome args sys (MFailed e)
| NoVisdom (model : pymodel) (avg_loss : float) :
    Dict.lookup "model"%string (sync_dict (sys_shared sys)) = Some model ->
    average_loss (sys_shared sys) (sys_weights sys) = Returns avg_loss ->
    visdom (training args) = true ->
    sys_vis_params sys = false ->
    main_outcome args sys (MFailed TypeError)
| Returned (model : pymodel) (avg_loss : float) :
    Dict.lookup "model"%string (sync_dict (sys_shared sys)) = Some model ->
    average_loss (sys_shared sys) (sys_weights sys) = Returns avg_loss ->
    (visdom (training args) = true -> sys_vis_params sys = true) ->
    main_outcome args sys (MReturned model).

Definition orchestrated (args : Arguments) (sys : System) : Prop :=
  let s := sys_shared sys in
  match sys_main sys with
  | MJoin => stop s = false
  | MStop => stop s = false /\ all_ended (sys_workers sys) = true
  | MJoinSync => stop s = true /\ all_ended (sys_workers sys) = true
  | MRead => quiescent sys
  | MAverage model =>
      quiescent sys
      /\ Dict.lookup "model"%string (sync_dict s) = Some model
  | MReport model avg_loss =>
      quiescent sys
      /\ Dict.lookup "model"%string (sync_dict s) = Some model
      /\ average_loss s (sys_weights sys) = Returns avg_loss
  | MReturned _ | MFailed _ =>
      quiescent sys /\ main_outcome args sys (sys_main sys)
  end.

(** The states the other processes make one after the other: those the
    coordinator finds at its steps, as long as it writes nothing itself. *)
Fixpoint states_after (envs : list (Shared -> Shared)) (s : Shared)
    : list Shared :=
  match envs with
  | [] => []
  | env :: envs' => env s :: states_after envs' (env s)
  end.

(** The shared state a traced run ends in. *)
Definition final_shared (s : Shared) (trace : list (event * Shared)) : Shared :=
  last (map snd trace) s.

(** One local optimisation step, and the steps over a list of batches one
    after the other: the model, the optimiser and the batch losses in
    order. *)
Definition train_acc (st : Model * Optim * list float) (b : Batch)
    : Model * Optim * list float :=
  let '(m, o, losses) := st in
  let '(m', o', loss) := train_batch m o b in
  (m', o', losses ++ [loss]).

Definition train_batches (model : Model) (optimizer : Optim)
    (batches : list Batch) : Model * Optim * list float :=
  fold_left train_acc batches (model, optimizer, []).

Definition is_sleep (ev : event) : bool :=
  match ev with
  | EvSleep _ => true
  | _ => false
  end.

End Vocabulary.

Set Implicit Arguments.

(** ** The other functions of the file

    [LearningRateScheduler], [MixUp], [train] and
    [training_animation]. *)

Unset Implicit Arguments.

(** *** [LearningRateScheduler] *)

(** [total_epochs] stays an [int] without restarts and becomes a [float]
    with them; the epoch reduced modulo it has the same type. *)
Inductive number : Type :=
| IntNum (z : Z)
| FloatNum (f : float).

Definition to_float (x : number) : float :=
  match x with
  | IntNum z => float_of_Z z
  | FloatNum f => f
  end.

Inductive plan : Type :=
| LogLinear
| LogCosine.

(** The scheduler object: [total_epochs] and what the closure [calc_lr]
    captured. *)
Record LearningRateScheduler : Type := {
  total_epochs : number;
  schedule_plan : plan;
  log_start_lr : float;
  log_end_lr : float
}.

(** A parameter group of an optimiser: a dictionary whose values are
    floats or something else. *)
Inductive hyper (Other : Type) : Type :=
| HFloat (f : float)
| HOther (v : Other).

Arguments HFloat {Other} f.
Arguments HOther {Other} v.

Section Scheduler.
(** [numpy.power], [numpy.cos] and Python's [%] on floats with a divisor
    that is not zero. *)
Variable np_power : float -> float -> float.
Variable np_cos : float -> float.
Variable float_mod : float -> float -> float.

Definition np_pi : float := 3.141592653589793%float.

(** [LearningRateScheduler.__init__]; the division of two ints is their
    true division. *)
Definition scheduler_init (epochs : Z) (start_lr end_lr : float)
    (plan_name : string) (restarts : option Z)
    : outcome LearningRateScheduler :=
  let restarts := match restarts with Some 0 => None | r => r end in
  let total :=
    match restarts with
    | None => Returns (IntNum epochs)
    | Some r =>
        if r + 1 =? 0 then Throws (Builtin ZeroDivisionError)
        else Returns (FloatNum (float_of_Z epochs / float_of_Z (r + 1))%float)
    end in
  match total with
  | Throws e => Throws e
  | Returns total =>
      if String.eqb plan_name "log_linear" then
        Returns {| total_epochs := total; schedule_plan := LogLinear;
                   log_start_lr := start_lr; log_end_lr := end_lr |}
      else if String.eqb plan_name "log_cosine" then
        Returns {| total_epochs := total; schedule_plan := LogCosine;
                   log_start_lr := start_lr; log_end_lr := end_lr |}
      else Throws NotImplementedError
  end.

(** The closure [self.calc_lr]. *)
Definition calc_lr (s : LearningRateScheduler) (epoch : number) : float :=
  match schedule_plan s with
  | LogLinear =>
      np_power 10
        ((log_end_lr s - log_start_lr s) / to_float (total_epochs s)
         * to_float epoch + log_start_lr s)%float
  | LogCosine =>
      np_power 10
        ((np_cos (np_pi * (to_float epoch / to_float (total_epochs s))) / 2.0
          + 0.5)
         * PrimFloat.abs (log_start_lr s - log_end_lr s) + log_end_lr s)%float
  end.

(** [get_lr] for an [int] epoch. *)
Definition get_lr (s : LearningRateScheduler) (epoch : Z) : outcome float :=
  match total_epochs s with
  | IntNum total =>
      if total =? 0 then Throws (Builtin ZeroDivisionError)
      else
        let epoch := epoch mod total in
        if epoch >? total then Throws AssertionError
        else Returns (calc_lr s (IntNum epoch))
  | FloatNum total =>
      if PrimFloat.eqb total 0 then Throws (Builtin ZeroDivisionError)
      else Returns (calc_lr s (FloatNum (float_mod (float_of_Z epoch) total)))
  end.

(** [adjust_learning_rate]: the parameter groups afterwards and the
    result. *)
Definition adjust_learning_rate {Other : Type} (s : LearningRateScheduler)
    (param_groups : list (Dict.t string (hyper Other))) (epoch : Z)
    : list (Dict.t string (hyper Other)) * outcome float :=
  match get_lr s epoch with
  | Throws e => (param_groups, Throws e)
  | Returns new_lr =>
      (map (Dict.set "lr"%string (HFloat new_lr)) param_groups,
       Returns new_lr)
  end.

End Scheduler.

(** *** [MixUp.__init__] *)

Record MixUp : Type := {
  mix_p : float;
  mix_lambda : option float
}.

(** Truth value of a float: anything but zero. *)
Definition float_truthy (x : float) : bool := negb (PrimFloat.eqb x 0).

Definition unit_interval (x : float) : bool :=
  (PrimFloat.leb 0 x && PrimFloat.leb x 1)%bool.

(** [MixUp(λ, p)]: comparing [None] with a float is a [TypeError]. *)
Definition mixup_init (lam p : option float) : outcome MixUp :=
  match p with
  | None => Throws TypeError
  | Some p =>
      if unit_interval p then
        match lam with
        | Some l =>
            if float_truthy l && negb (unit_interval l)
            then Throws AssertionError
            else Returns {| mix_p := p; mix_lambda := lam |}
        | None => Returns {| mix_p := p; mix_lambda := lam |}
        end
      else Throws AssertionError
  end.

(** *** [MixUp.forward] *)

(** [forward] on a batch whose data and targets are tensors, each the
    list of its rows along the first dimension. [r_p] and [r_lam] are what
    [random()] returns where the code calls it: for the test against [p]
    and for the mix factor. *)
Section MixUpForward.
Variables Sample Target : Type.
(** [λ * a + (1.0 - λ) * b] on two rows of equal shape. *)
Variable blend_x : float -> Sample -> Sample -> Sample.
Variable blend_y : float -> Target -> Target -> Target.

Definition blend_rows {A : Type} (blend : float -> A -> A -> A) (lam : float)
    (front back : list A) : list A :=
  map (fun ab => blend lam (fst ab) (snd ab)) (combine front back).

(** [λ * t[:h] + (1.0 - λ) * t[h:]] *)
Definition mix_even {A : Type} (blend : float -> A -> A -> A) (lam : float)
    (h : nat) (t : list A) : list A :=
  blend_rows blend lam (firstn h t) (skipn h t).

(** [out[:-1] = λ * t[:h] + (1.0 - λ) * t[h:-1]] and [out[-1] = t[-1]] *)
Definition mix_odd {A : Type} (blend : float -> A -> A -> A) (lam : float)
    (h : nat) (t : list A) : list A :=
  blend_rows blend lam (firstn h t)
             (skipn h (firstn (List.length t - 1) t))
  ++ skipn (List.length t - 1) t.

Definition skipped (m : MixUp) (r_p : float) : bool :=
  float_truthy (mix_p m) && PrimFloat.ltb (mix_p m) r_p.

Definition mix_factor (m : MixUp) (r_lam : float) : float :=
  match mix_lambda m with
  | Some l => if float_truthy l then l else r_lam
  | None => r_lam
  end.

Definition forward (m : MixUp) (r_p r_lam : float) (x : list Sample)
    (y : list Target) : outcome (list Sample * list Target) :=
  if skipped m r_p then Returns (x, y)
  else
    let L := List.length x in
    if negb (List.length y =? L)%nat then Throws ValueError
    else if (L =? 1)%nat then Returns (x, y)
    else
      let lam := mix_factor m r_lam in
      if (L mod 2 =? 0)%nat then
        let h := (L / 2)%nat in
        Returns (mix_even blend_x lam h x, mix_even blend_y lam h y)
      else
        let h := ((L - 1) / 2)%nat in
        Returns (mix_odd blend_x lam h x, mix_odd blend_y lam h y).

End MixUpForward.

(** *** [train] *)

Section PlainTraining.
Context {T : Torch}.
(** [To_one_hot] on the target of a batch and [MixUp.forward] on the
    batch; the index stands for the random numbers the call draws. *)
Variable one_hot : Batch -> Batch.
Variable mixup_forward : MixUp -> Z -> Batch -> Batch.

(** What [train] has changed or collected: the model and the optimiser it
    was given (both updated in place), [avg_loss], and the points sent to
    visdom. *)
Record train_state : Type := {
  tr_model : Model;
  tr_optimizer : Optim;
  tr_avg_loss : list float;
  tr_points : list (float * float)
}.

Fixpoint train_loop (args : TrainArguments) (vis_params : bool)
    (mix : option MixUp) (epoch : Z) (div : float) (batches : list Batch)
    (batch_idx : Z) (st : train_state) : train_state * option pyexn :=
  match batches with
  | [] => (st, None)
  | b :: rest =>
      let b :=
        match mix with
        | Some m => mixup_forward m batch_idx (one_hot b)
        | None => b
        end in
      let '(model, optimizer, loss) :=
        train_batch (tr_model st) (tr_optimizer st) b in
      let stepped :=
        {| tr_model := model; tr_optimizer := optimizer;
           tr_avg_loss := tr_avg_loss st; tr_points := tr_points st |} in
      match py_mod batch_idx (log_interval args) with
      | Raise e => (stepped, Some (Builtin e))
      | Ok r =>
          let logged := r =? 0 in
          if logged && visdom args && negb vis_params
          then (stepped, Some TypeError)
          else
            train_loop args vis_params mix epoch div rest (batch_idx + 1)
              {| tr_model := model;
                 tr_optimizer := optimizer;
                 tr_avg_loss :=
                   if logged && negb (visdom args)
                   then tr_avg_loss st ++ [loss] else tr_avg_loss st;
                 tr_points :=
                   if logged && visdom args
                   then tr_points st
                        ++ [((float_of_Z epoch + float_of_Z batch_idx * div - 1)%float,
                             loss)]
                   else tr_points st |}
      end
  end.

(** [train]: the state it leaves and the exception it raises, if any;
    without one it returns the model of that state. [vis_params] tells
    whether the caller passed that argument, which is [None] by default and
    subscripted only when a loss goes to visdom. *)
Definition train (args : TrainArguments) (vis_params : bool) (model : Model)
    (optimizer : Optim) (epoch : Z) (train_loader : list Batch)
    : train_state * option pyexn :=
  let st :=
    {| tr_model := model; tr_optimizer := optimizer;
       tr_avg_loss := []; tr_points := [] |} in
  let mix :=
    if mixup args then
      match mixup_init (mixup_lambda args) (mixup_prob args) with
      | Returns m => Returns (Some m)
      | Throws e => Throws e
      end
    else Returns None in
  match mix with
  | Throws e => (st, Some e)
  | Returns mix =>
      let L := Z.of_nat (List.length train_loader) in
      if L =? 0 then (st, Some (Builtin ZeroDivisionError))
      else train_loop args vis_params mix epoch (1.0 / float_of_Z L)%float
                      train_loader 0 st
  end.

(** The losses [train] keeps: those of the batches whose index, counted
    from [batch_idx], is a multiple of the interval. *)
Fixpoint logged_losses (interval : Z) (batch_idx : Z) (losses : list float)
    : list float :=
  match losses with
  | [] => []
  | loss :: rest =>
      if batch_idx mod interval =? 0
      then loss :: logged_losses interval (batch_idx + 1) rest
      else logged_losses interval (batch_idx + 1) rest
  end.

(** The points [train] sends to visdom instead, when [args.visdom] is
    set. *)
Fixpoint logged_points (epoch : Z) (div : float) (interval : Z)
    (batch_idx : Z) (losses : list float) : list (float * float) :=
  match losses with
  | [] => []
  | loss :: rest =>
      if batch_idx mod interval =? 0
      then ((float_of_Z epoch + float_of_Z batch_idx * div - 1)%float, loss)
             :: logged_points epoch div interval (batch_idx + 1) rest
      else logged_points epoch div interval (batch_idx + 1) rest
  end.

End PlainTraining.

(** *** [training_animation] *)

Inductive animation_event : Type :=
| APrint (text : string)
| ASleep (seconds : float).

(** ["\r \033[K"] *)
Definition clear_line : string :=
  String (Ascii.ascii_of_nat 13)
    (String (Ascii.ascii_of_nat 32)
       (String (Ascii.ascii_of_nat 27) "[K"%string)).

Definition newline : string := String (Ascii.ascii_of_nat 10) EmptyString.

(** The loop body, [n] times: as often as [done.value] was found false. *)
Fixpoint animation_loop (message : string) (n : nat) (i : Z)
    : list animation_event :=
  match n with
  | O => []
  | S n' =>
      if i mod 4 =? 0
      then APrint (String.append clear_line message) :: ASleep 0.5
             :: animation_loop message n' 1
      else APrint "."%string :: ASleep 0.5
             :: animation_loop message n' (i + 1)
  end.

Definition training_animation (message : string) (n : nat)
    : list animation_event :=
  animation_loop message n 0 ++ [APrint (String.append clear_line newline)].

(** What the [k]-th turn of the loop prints. *)
Definition animation_frame (message : string) (k : nat) : string :=
  if (Z.of_nat k) mod 4 =? 0
  then String.append clear_line message else "."%string.

Set Implicit Arguments.

(** * Properties *)

(** ** Dictionaries *)

Class KeyLaws (K : Type) `{Key K} : Prop := {
  key_eqb_eq : forall a b : K, key_eqb a b = true <-> a = b
}.

Arguments KeyLaws K {_}.

#[export] Instance string_KeyLaws : KeyLaws string.
Proof. constructor. exact String.eqb_eq. Qed.

#[export] Instance loss_key_KeyLaws : KeyLaws loss_key.
Proof.
  constructor. intros [i|] [j|]; simpl; split; intros E;
    try discriminate; try reflexivity.
  - apply Z.eqb_eq in E. now subst.
  - injection E as ->. apply Z.eqb_refl.
Qed.

Section DictFacts.
Context {K V : Type} `{KeyLaws K}.
Implicit Types (k : K) (v : V) (d : Dict.t K V).

Lemma key_eqb_refl k : key_eqb k k = true.
Proof. now apply key_eqb_eq. Qed.

Lemma key_eqb_neq k k' : k <> k' -> key_eqb k k' = false.
Proof.
  intros Hne. destruct (key_eqb k k') eqn:E; [|reflexivity].
  apply key_eqb_eq in E. contradiction.
Qed.

Lemma lookup_set_eq k v d : Dict.lookup k (Dict.set k v d) = Some v.
Proof.
  induction d as [|[k' v'] d IH]; simpl.
  - now rewrite key_eqb_refl.
  - destruct (key_eqb k k') eqn:E; simpl; now rewrite E.
Qed.

Lemma lookup_set_neq k k' v d :
  k' <> k -> Dict.lookup k' (Dict.set k v d) = Dict.lookup k' d.
Proof.
  intros Hne. induction d as [|[k0 v0] d IH]; simpl.
  - now rewrite key_eqb_neq.
  - destruct (key_eqb k k0) eqn:E; simpl.
    + apply key_eqb_eq in E. subst k0. now rewrite key_eqb_neq.
    + now rewrite IH.
Qed.

Lemma lookup_remove_eq k d : Dict.lookup k (Dict.remove k d) = None.
Proof.
  induction d as [|[k' v'] d IH]; simpl; [reflexivity|].
  destruct (key_eqb k k') eqn:E; simpl; [assumption|].
  now rewrite E.
Qed.

Lemma lookup_remove_neq k k' d :
  k' <> k -> Dict.lookup k' (Dict.remove k d) = Dict.lookup k' d.
Proof.
  intros Hne. induction d as [|[k0 v0] d IH]; simpl; [reflexivity|].
  destruct (key_eqb k k0) eqn:E; simpl.
  - apply key_eqb_eq in E. subst k0. now rewrite key_eqb_neq.
  - now rewrite IH.
Qed.

Lemma mem_set k k' v d :
  Dict.mem k' (Dict.set k v d) = (key_eqb k' k || Dict.mem k' d)%bool.
Proof.
  unfold Dict.mem. destruct (key_eqb k' k) eqn:E.
  - apply key_eqb_eq in E. subst. now rewrite lookup_set_eq.
  - rewrite lookup_set_neq; [reflexivity|].
    intros ->. now rewrite key_eqb_refl in E.
Qed.

Lemma mem_set_keeps k k' v d :
  Dict.mem k' d = true -> Dict.mem k' (Dict.set k v d) = true.
Proof. intros Hm. rewrite mem_set, Hm. apply orb_true_r. Qed.

Lemma lookup_in k v d :
  NoDup (Dict.keys d) -> In (k, v) d -> Dict.lookup k d = Some v.
Proof.
  induction d as [|[k' v'] d IH]; simpl; [tauto|].
  intros Hnd [E|Hin].
  - injection E as -> ->. now rewrite key_eqb_refl.
  - inversion Hnd as [|? ? Hk Hnd']; subst.
    rewrite key_eqb_neq; [now apply IH|].
    intros ->. apply Hk. change (In k' (map fst d)).
    apply in_map_iff. now exists (k', v).
Qed.

(** Writing a fresh key appends it. *)
Lemma set_fresh k v d :
  ~ In k (Dict.keys d) -> Dict.set k v d = d ++ [(k, v)].
Proof.
  induction d as [|[k' v'] d IH]; simpl; [reflexivity|].
  intros Hn. rewrite key_eqb_neq by (intros ->; tauto).
  now rewrite IH by tauto.
Qed.

(** Filling a dictionary entry by entry from a list without repeated keys
    gives that list, in its order. *)
Lemma fold_set_fresh (A : Type) (fk : A -> K) (fv : A -> V) (l : list A) :
  forall d,
    NoDup (Dict.keys d ++ map fk l) ->
    fold_left (fun acc a => Dict.set (fk a) (fv a) acc) l d
    = d ++ map (fun a => (fk a, fv a)) l.
Proof.
  induction l as [|a l IH]; intros d Hnd; simpl.
  - now rewrite app_nil_r.
  - simpl in Hnd. rewrite IH.
    + rewrite set_fresh.
      * now rewrite <- app_assoc.
      * apply NoDup_remove_2 in Hnd. intros Hin. apply Hnd.
        apply in_or_app. now left.
    + rewrite set_fresh.
      * unfold Dict.keys. rewrite map_app. simpl. rewrite <- app_assoc.
        exact Hnd.
      * apply NoDup_remove_2 in Hnd. intros Hin. apply Hnd.
        apply in_or_app. now left.
Qed.

End DictFacts.

(** ** Aggregation and the resolution branch *)

Section AggregationFacts.
Context {T : Torch}.

Lemma len_one_singleton (V : Type) (d : Dict.t string V) :
  Dict.len d = 1 -> exists k v, d = [(k, v)].
Proof.
  destruct d as [|[k v] [|kv d]]; unfold Dict.len; simpl; try lia.
  intros _. now exists k, v.
Qed.

Lemma federated_avg_nil_never_model(ws : option (Dict.t string float))
    (m : Model) :
  federated_avg [] ws <> Ok (Some m).
Proof. destruct ws as [[|kv w]|]; simpl; discriminate. Qed.

Lemma resolve_models_nil (weights : Dict.t string float) (s : Shared) :
  Dict.len (result_dict s) = 0 -> resolve_models weights s = Ok s.
Proof. intros Hlen. unfold resolve_models. now rewrite Hlen. Qed.

Lemma resolve_models_singleton (weights : Dict.t string float) (s : Shared)
    (id : string) (model : pymodel) :
  result_dict s = [(id, model)] ->
  resolve_models weights s = Ok (publish_merged s model).
Proof. intros Hrd. unfold resolve_models. now rewrite Hrd. Qed.

Lemma lookup_publish_merged (s : Shared) (model : pymodel) :
  Dict.lookup "model"%string (sync_dict (publish_merged s model)) = Some model.
Proof. unfold publish_merged. simpl. apply lookup_set_eq. Qed.

End AggregationFacts.

(** C10: called with no models, [federated_avg] is not a no-op. Without
    weights (or with an empty weights dictionary) it raises [IndexError] at
    [model_list[0]]; with weights that are not empty its loop runs zero
    times and it returns [None]; for no weights argument does it return a
    model. What leaves the merged model alone on zero submissions is the
    coordinator's own branch on [len(result_dict)]. *)
Theorem federated_avg_no_models (T : Torch) (weights : Dict.t string float)
    (s : Shared) :
  weights <> [] ->
  Dict.len (result_dict s) = 0 ->
  federated_avg [] None = Raise IndexError
  /\ federated_avg [] (Some []) = Raise IndexError
  /\ federated_avg [] (Some weights) = Ok None
  /\ (forall ws m, federated_avg [] ws <> Ok (Some m))
  /\ (forall w, resolve_models w s = Ok s).
Proof.
  intros Hw Hlen. repeat split.
  - destruct weights; [contradiction|reflexivity].
  - intros ws m. apply federated_avg_nil_never_model.
  - intros w. now apply resolve_models_nil.
Qed.

Lemma federated_avg_no_models_witness :
  federated_avg (T := Probe.torch) [] (Some [("A"%string, 1%float)]) = Ok None.
Proof.
  refine (proj1 (proj2 (proj2
    (@federated_avg_no_models Probe.torch [("A"%string, 1%float)]
       empty_shared _ _)))).
  - discriminate.
  - reflexivity.
Defined.

(** C6: when a round resolves with exactly one submitted model, that model
    itself becomes [sync_dict["model"]]: no weight is read and neither
    [scale_model] nor [add_model] is applied. *)
Theorem resolve_single_model (T : Torch) (weights : Dict.t string float)
    (wait_interval : float) (s : Shared) :
  Dict.len (result_dict s) = 1 ->
  exists id model,
    result_dict s = [(id, model)]
    /\ resolve_models weights s = Ok (publish_merged s model)
    /\ synchronizer_step weights wait_interval s SResolve
       = (EvResolve, publish_merged s model, SRelease)
    /\ Dict.lookup "model"%string (sync_dict (publish_merged s model))
       = Some model.
Proof.
  intros Hlen. destruct (len_one_singleton _ Hlen) as (id & model & Hrd).
  exists id, model.
  assert (Hr : resolve_models weights s = Ok (publish_merged s model))
    by now apply resolve_models_singleton with id.
  repeat split.
  - exact Hrd.
  - exact Hr.
  - simpl. now rewrite Hr.
  - apply lookup_publish_merged.
Qed.

Lemma resolve_single_model_witness :
  exists id model,
    let s := with_result_dict (T := Probe.torch) empty_shared
               [("A"%string, Some (Probe.probe 2))] in
    result_dict s = [(id, model)]
    /\ resolve_models [] s = Ok (publish_merged s model)
    /\ synchronizer_step [] 0.1%float s SResolve
       = (EvResolve, publish_merged s model, SRelease)
    /\ Dict.lookup "model"%string (sync_dict (publish_merged s model))
       = Some model.
Proof.
  apply (@resolve_single_model Probe.torch [] 0.1%float
           (with_result_dict (T := Probe.torch) empty_shared
              [("A"%string, Some (Probe.probe 2))])).
  reflexivity.
Defined.

(** ** The coordinator *)

Unset Implicit Arguments.

Section CoordinatorFacts.
Context {T : Torch}.

Lemma with_sync_dict_same (s : Shared) : with_sync_dict s (sync_dict s) = s.
Proof. now destruct s. Qed.

Lemma fold_publish_merged (l : list pymodel) :
  forall s, exists d, fold_left publish_merged l s = with_sync_dict s d.
Proof.
  induction l as [|m l IH]; intros s; simpl.
  - exists (sync_dict s). now rewrite with_sync_dict_same.
  - destruct (IH (publish_merged s m)) as [d Hd]. exists d. now rewrite Hd.
Qed.

(** The resolution only ever writes [sync_dict]. *)
Lemma resolve_models_frame (weights : Dict.t string float) (s s' : Shared) :
  resolve_models weights s = Ok s' -> exists d, s' = with_sync_dict s d.
Proof.
  unfold resolve_models.
  destruct (Dict.len (result_dict s) =? 1).
  - intros E. injection E as <-. apply fold_publish_merged.
  - destruct (Dict.len (result_dict s) =? 0).
    + intros E. injection E as <-. exists (sync_dict s).
      now rewrite with_sync_dict_same.
    + destruct (federated_avg _ _) as [avg|e]; simpl; [|discriminate].
      intros E. injection E as <-. now eexists.
Qed.

(** The coordinator never writes [stop]. *)
Lemma synchronizer_step_stop (weights : Dict.t string float)
    (wait_interval : float) (s : Shared) (pc : sync_pc) :
  stop (snd (fst (synchronizer_step weights wait_interval s pc))) = stop s.
Proof.
  destruct pc; simpl; try reflexivity.
  destruct (resolve_models weights s) as [s'|e] eqn:E; simpl; [|reflexivity].
  apply resolve_models_frame in E. destruct E as [d ->]. reflexivity.
Qed.

(** With [stop] set, a step brings the coordinator closer to its end and
    accounts for the resolution it began. *)
Lemma synchronizer_step_after_stop (weights : Dict.t string float)
    (wait_interval : float) (s : Shared) (pc : sync_pc) :
  stop s = true ->
  let pc' := snd (synchronizer_step weights wait_interval s pc) in
  (sync_rank pc = O \/ sync_rank pc' < sync_rank pc)%nat
  /\ final_passes pc
     = (match pc with SResolve => 1 | _ => 0 end + final_passes pc')%nat.
Proof.
  intros Hstop. destruct pc; simpl; rewrite ?Hstop; simpl;
    try (split; [right; lia | reflexivity]);
    try (split; [left; reflexivity | reflexivity]).
  - destruct (forallb _ _); simpl; split; try (right; lia); reflexivity.
  - destruct (resolve_models weights s); simpl; split;
      try (right; lia); reflexivity.
Qed.

Lemma synchronizer_run_after_stop (weights : Dict.t string float)
    (wait_interval : float) (envs : list (Shared -> Shared)) :
  forall (s : Shared) (pc : sync_pc),
    stop s = true ->
    Forall keeps_stop envs ->
    (sync_rank pc <= List.length envs)%nat ->
    let '(s', pc', passes) :=
      synchronizer_run weights wait_interval envs s pc in
    sync_terminal pc' = true /\ stop s' = true /\ passes = final_passes pc.
Proof.
  induction envs as [|env envs IH]; intros s pc Hstop Henvs Hrank; simpl.
  - simpl in Hrank. destruct pc; simpl in *; try lia; auto.
  - inversion Henvs as [|? ? Henv Henvs']; subst.
    assert (Hstop1 : stop (env s) = true) by now apply Henv.
    pose proof (synchronizer_step_stop weights wait_interval (env s) pc) as Hst.
    pose proof (synchronizer_step_after_stop weights wait_interval (env s) pc
                  Hstop1) as [Hr Hp].
    destruct (synchronizer_step weights wait_interval (env s) pc)
      as [[ev s1] pc1] eqn:E. simpl in Hst, Hr, Hp.
    assert (Hstop2 : stop s1 = true) by congruence.
    assert (Hrank1 : (sync_rank pc1 <= List.length envs)%nat).
    { simpl in Hrank. destruct Hr as [Hz|Hlt]; [|lia].
      destruct pc; simpl in Hz; try discriminate; simpl in E;
        injection E as _ _ <-; simpl; lia. }
    specialize (IH s1 pc1 Hstop2 Henvs' Hrank1).
    destruct (synchronizer_run weights wait_interval envs s1 pc1)
      as [[s2 pc2] n].
    destruct IH as (Hterm & Hstop3 & Hn). repeat split; try assumption.
    rewrite Hp, Hn. destruct pc; reflexivity.
Qed.

End CoordinatorFacts.

(** C2 (as amended): once [stop] is set and stays set, the coordinator
    terminates within seven of its own steps, whatever the other processes
    do to the rest of the shared state in between and wherever it stands.
    It begins one more resolution pass exactly when [stop] finds it in its
    wait loop or about to resolve, and none when it finds it past the
    resolution or at the test of the outer loop: never more than one. *)
Theorem synchronizer_terminates_after_stop (T : Torch)
    (weights : Dict.t string float) (wait_interval : float)
    (envs : list (Shared -> Shared)) (s : Shared) (pc : sync_pc) :
  stop s = true ->
  Forall keeps_stop envs ->
  (7 <= List.length envs)%nat ->
  let '(s', pc', passes) := synchronizer_run weights wait_interval envs s pc in
  sync_terminal pc' = true
  /\ stop s' = true
  /\ passes = final_passes pc
  /\ (passes <= 1)%nat.
Proof.
  intros Hstop Henvs Hlen.
  pose proof (synchronizer_run_after_stop weights wait_interval envs s pc
                Hstop Henvs) as H.
  assert (Hrank : (sync_rank pc <= List.length envs)%nat)
    by (destruct pc; simpl; lia).
  specialize (H Hrank).
  destruct (synchronizer_run weights wait_interval envs s pc) as [[s' pc'] n].
  destruct H as (Hterm & Hstop' & Hn). repeat split; try assumption.
  subst n. destruct pc; simpl; lia.
Qed.

Lemma synchronizer_terminates_after_stop_witness :
  let '(s', pc', passes) :=
    synchronizer_run (T := Probe.torch) [] 0.1%float (Probe.idle 7)
      (with_stop empty_shared true) SSleep in
  sync_terminal pc' = true
  /\ stop s' = true
  /\ passes = final_passes SSleep
  /\ (passes <= 1)%nat.
Proof.
  apply (synchronizer_terminates_after_stop Probe.torch [] 0.1%float
           (Probe.idle 7) (with_stop empty_shared true) SSleep).
  - reflexivity.
  - repeat constructor; intros s Hs; exact Hs.
  - simpl. lia.
Defined.

(** In the two-worker scenario the orchestrator sets [stop] while the
    coordinator stands at the test of its outer loop: the coordinator then
    ends without another resolution pass, and worker A's final model (6)
    never reaches the merged model, which stays the 4 of the round
    before. *)
Lemma no_final_pass_when_stop_found_at_loop_head :
  let sys := snd (Probe.run Probe.stop_at_loop_head) in
  let s := sys_shared sys in
  sys_sync sys = SOuter
  /\ stop s = true
  /\ forallb (fun w => worker_terminal (wk_pc w)) (sys_workers sys) = true
  /\ Dict.lookup "A"%string (result_dict s) = Some (Some (Probe.probe 6))
  /\ synchronizer_run (snd Probe.started) 0.1%float (Probe.idle 7) s SOuter
     = (s, SDone, 0%nat)
  /\ Dict.lookup "model"%string (sync_dict s) = Some (Some (Probe.probe 4)).
Proof. vm_compute. repeat split; reflexivity. Qed.

(** C8: the wait loop of the coordinator sleeps 0.1 seconds whatever
    [wait_interval] it was given, while the worker's wait loop sleeps
    [args.wait_interval]. With [args.wait_interval = 0.5], which
    [train_federated] passes on, the coordinator still sleeps 0.1. *)
Theorem synchronizer_sleep_ignores_wait_interval :
  (forall (T : Torch) (weights : Dict.t string float) (wait_interval : float)
          (s : Shared),
      synchronizer_step weights wait_interval s SSleep
      = (EvSleep 0.1%float, s, SWaitAll))
  /\ (forall (T : Torch) (args : Arguments) (s : Shared) (w : Worker)
             (b : Batch),
         worker_step args s (at_pc w (WSleep b))
         = (EvSleep (wait_interval args), s, at_pc w (WPoll b)))
  /\ (let args := Probe.config 2 0.5 false in
      let sys :=
        {| sys_shared := init_shared (T := Probe.torch) Probe.two_workers;
           sys_workers := [];
           sys_sync := SSleep;
           sys_main := MJoin;
           sys_weights := [];
           sys_vis_params := false |} in
      wait_interval args = 0.5%float
      /\ fst (system_step args [] ActSync sys) = EvSleep 0.1%float
      /\ PrimFloat.eqb 0.1 (wait_interval args) = false).
Proof.
  split; [|split].
  - reflexivity.
  - reflexivity.
  - vm_compute. repeat split; reflexivity.
Qed.

(** In the two-worker scenario, when the coordinator resolves the first
    round, A waits and B has completed and left the waiting map. The
    coordinator merges both submitted models with the weights 0.5 and 0.5
    as configured and publishes 4; merging the models of the waiting ids
    only, with their weights renormalised, would publish A's own 2. *)
Lemma resolve_merges_models_of_workers_not_waiting :
  let sys := snd (Probe.run Probe.at_first_resolution) in
  let s := sys_shared sys in
  let weights := snd Probe.started in
  sys_sync sys = SResolve
  /\ waiting_for_sync_dict s = [("A"%string, true)]
  /\ result_dict s = [("A"%string, Some (Probe.probe 2));
                      ("B"%string, Some (Probe.probe 6))]
  /\ weights = [("A"%string, 0.5%float); ("B"%string, 0.5%float)]
  /\ resolve_models weights s = Ok (publish_merged s (Some (Probe.probe 4)))
  /\ resolve_waiting_only weights s
     = Ok (publish_merged s (Some (Probe.probe 2)))
  /\ List.length (waiting_ids s) = 1%nat
  /\ Dict.len (result_dict s) = 2.
Proof. vm_compute. repeat split; reflexivity. Qed.

(** ** What a round merges *)

Section RoundFacts.
Context {T : Torch}.

Lemma map_pair_eta {A B : Type} (l : list (A * B)) :
  map (fun a => (fst a, snd a)) l = l.
Proof. induction l as [|[a b] l IH]; simpl; [reflexivity|now rewrite IH]. Qed.

(** Copying a dictionary entry by entry gives the dictionary. *)
Lemma copy_dict {V : Type} (d : Dict.t string V) :
  NoDup (Dict.keys d) ->
  fold_left (fun models kv => Dict.set (fst kv) (snd kv) models) d []
  = d.
Proof.
  intros Hnd.
  rewrite (@fold_set_fresh string V _ _ (string * V) fst snd d []).
  - simpl. apply map_pair_eta.
  - simpl. exact Hnd.
Qed.

Lemma weighted_loop_sum (weights : Dict.t string float)
    (items : list (string * pymodel)) (terms : list (Model * float)) :
  Forall2 (entry_term weights) items terms ->
  forall acc,
    weighted_loop weights items (Some acc)
    = Ok (Some (fold_left
                  (fun acc t => add_model acc (scale_model (fst t) (snd t)))
                  terms acc)).
Proof.
  induction 1 as [|[id pm] [m w] items terms [Hm Hw] _ IH]; intros acc; simpl.
  - reflexivity.
  - simpl in Hm, Hw. subst pm. unfold Dict.getitem. rewrite Hw. simpl.
    apply IH.
Qed.

Lemma federated_avg_weighted (weights : Dict.t string float)
    (models : Dict.t string pymodel) (terms : list (Model * float)) :
  Forall2 (entry_term weights) models terms ->
  models <> [] ->
  federated_avg models (Some weights) = Ok (weighted_sum terms).
Proof.
  intros Hall Hne.
  destruct Hall as [|[id pm] [m w] items terms [Hm Hw] Hrest];
    [contradiction|].
  simpl in Hm, Hw. subst pm.
  destruct weights as [|kv weights]; [discriminate|].
  unfold federated_avg, Dict.items. simpl weighted_loop.
  unfold Dict.getitem. rewrite Hw. simpl.
  apply weighted_loop_sum. exact Hrest.
Qed.

Lemma resolve_models_weighted (weights : Dict.t string float) (s : Shared)
    (terms : list (Model * float)) :
  NoDup (Dict.keys (result_dict s)) ->
  Forall2 (entry_term weights) (result_dict s) terms ->
  2 <= Dict.len (result_dict s) ->
  resolve_models weights s = Ok (publish_merged s (weighted_sum terms)).
Proof.
  intros Hnd Hall Hlen. unfold resolve_models.
  destruct (Z.eqb_spec (Dict.len (result_dict s)) 1) as [E|_]; [lia|].
  destruct (Z.eqb_spec (Dict.len (result_dict s)) 0) as [E|_]; [lia|].
  unfold Dict.items, Dict.empty. rewrite copy_dict by exact Hnd.
  rewrite (federated_avg_weighted weights (result_dict s) terms Hall).
  - reflexivity.
  - intros E. rewrite E in Hlen. unfold Dict.len in Hlen. simpl in Hlen. lia.
Qed.

End RoundFacts.

(** C1 (as amended): a round with two or more entries in [result_dict]
    merges every entry of [result_dict], the last model of each worker,
    waiting or not: the merged model is the sum, in the order of the
    dictionary, of each model scaled by the configured weight of its id,
    taken as it is. There are as many terms as [result_dict] has entries,
    and the waiting map has no part in the result. *)
Theorem resolve_merges_every_entry (T : Torch) (weights : Dict.t string float)
    (s : Shared) (terms : list (Model * float)) :
  NoDup (Dict.keys (result_dict s)) ->
  Forall2 (entry_term weights) (result_dict s) terms ->
  2 <= Dict.len (result_dict s) ->
  resolve_models weights s = Ok (publish_merged s (weighted_sum terms))
  /\ Z.of_nat (List.length terms) = Dict.len (result_dict s)
  /\ (forall waiting : Dict.t string bool,
         resolve_models weights (with_waiting s waiting)
         = Ok (publish_merged (with_waiting s waiting) (weighted_sum terms))).
Proof.
  intros Hnd Hall Hlen. repeat split.
  - now apply resolve_models_weighted.
  - unfold Dict.len. f_equal. symmetry. eapply Forall2_length. exact Hall.
  - intros waiting. now apply resolve_models_weighted.
Qed.

Lemma resolve_merges_every_entry_witness :
  let s := sys_shared (snd (Probe.run Probe.at_first_resolution)) in
  resolve_models (snd Probe.started) s
  = Ok (publish_merged s
          (weighted_sum (T := Probe.torch)
             [(Probe.probe 2, 0.5%float); (Probe.probe 6, 0.5%float)])).
Proof.
  refine (proj1 (resolve_merges_every_entry Probe.torch (snd Probe.started)
    (sys_shared (snd (Probe.run Probe.at_first_resolution)))
    [(Probe.probe 2, 0.5%float); (Probe.probe 6, 0.5%float)] _ _ _)).
  - vm_compute. repeat constructor; simpl; intuition discriminate.
  - vm_compute. repeat constructor.
  - vm_compute. discriminate.
Defined.

(** ** The weights computed at start-up *)

Section StartFacts.
Context {T : Torch}.

Lemma progress_register (train_loaders : loaders) :
  forall s,
    progress_dict (fold_left register_worker train_loaders s)
    = fold_left
        (fun d wl => Dict.set (fst wl) (0, batches (snd wl)) d)
        train_loaders (progress_dict s).
Proof.
  induction train_loaders as [|wl l IH]; intros s; simpl; [reflexivity|].
  now rewrite IH.
Qed.

(** With distinct worker ids, [progress_dict] lists the workers in the
    order of [train_loaders], each with its batch count. *)
Lemma progress_init (train_loaders : loaders) :
  NoDup (map fst train_loaders) ->
  progress_dict (init_shared train_loaders)
  = map (fun wl => (fst wl, (0, batches (snd wl)))) train_loaders.
Proof.
  intros Hnd. unfold init_shared. rewrite progress_register. simpl.
  rewrite (@fold_set_fresh string (Z * Z) _ _ _ fst
             (fun wl => (0, batches (snd wl))) train_loaders []).
  - reflexivity.
  - exact Hnd.
Qed.

Lemma combine_map {A B C : Type} (f : A -> B) (g : A -> C) (l : list A) :
  combine (map f l) (map g l) = map (fun a => (f a, g a)) l.
Proof. induction l as [|a l IH]; simpl; [reflexivity|now rewrite IH]. Qed.

Lemma fold_left_over_map {A B C : Type} (f : A -> B -> A) (g : C -> B)
    (l : list C) :
  forall a, fold_left f (map g l) a = fold_left (fun a x => f a (g x)) l a.
Proof. induction l as [|x l IH]; intros a; simpl; [reflexivity|apply IH]. Qed.

Lemma w_dict_init (args : Arguments) (train_loaders : loaders) :
  NoDup (map fst train_loaders) ->
  w_dict args (progress_dict (init_shared train_loaders))
  = map (fun wl =>
           (fst wl,
            if weighted_averaging args
            then (float_of_Z (batches (snd wl))
                  / float_of_Z (all_batches train_loaders))%float
            else (1.0 / float_of_Z (Z.of_nat (List.length train_loaders)))%float))
        train_loaders.
Proof.
  intros Hnd. rewrite (progress_init train_loaders Hnd).
  unfold w_dict, np_weights, total_batches, batch_counts, Dict.items, Dict.keys.
  rewrite !map_map. simpl.
  destruct (weighted_averaging args).
  - rewrite combine_map.
    rewrite (@fold_set_fresh string float _ _ _ snd fst _ []).
    + simpl. rewrite map_map. reflexivity.
    + simpl. rewrite map_map. simpl. exact Hnd.
  - rewrite length_map, fold_left_over_map.
    rewrite (@fold_set_fresh string float _ _ _ (fun wl => fst wl)
               (fun _ => (1.0 / float_of_Z
                    (Z.of_nat (List.length train_loaders)))%float)
               train_loaders []).
    + reflexivity.
    + simpl. exact Hnd.
Qed.

Lemma lookup_w_dict (args : Arguments) (train_loaders : loaders)
    (id : string) (train_loader : list Batch) :
  NoDup (map fst train_loaders) ->
  In (id, train_loader) train_loaders ->
  Dict.lookup id (w_dict args (progress_dict (init_shared train_loaders)))
  = Some (if weighted_averaging args
          then (float_of_Z (batches train_loader)
                / float_of_Z (all_batches train_loaders))%float
          else (1.0 / float_of_Z (Z.of_nat (List.length train_loaders)))%float).
Proof.
  intros Hnd Hin. rewrite (w_dict_init args train_loaders Hnd).
  apply lookup_in.
  - unfold Dict.keys. rewrite map_map. simpl. exact Hnd.
  - apply in_map_iff. exists (id, train_loader). split; [reflexivity|exact Hin].
Qed.

End StartFacts.

(** C5: with distinct worker ids, the weight [train_federated] computes for
    a worker before it starts any process is, under weighted averaging, the
    worker's batch count divided by the sum of all batch counts, and
    otherwise 1/N for N workers. With 300 batches at A and 100 at B the
    weights are 0.75 and 0.25, and merging a probe parameter of 2.0 at A
    and 0.0 at B with them gives 1.5. *)
Theorem weights_at_start (T : Torch) (args : Arguments)
    (train_loaders : loaders) (id : string) (train_loader : list Batch) :
  NoDup (map fst train_loaders) ->
  In (id, train_loader) train_loaders ->
  (exists s weights,
      train_federated_start args train_loaders = Ok (s, weights)
      /\ Dict.lookup id weights
         = Some (if weighted_averaging args
                 then (float_of_Z (batches train_loader)
                       / float_of_Z (all_batches train_loaders))%float
                 else (1.0 / float_of_Z
                               (Z.of_nat (List.length train_loaders)))%float))
  /\ (let s := init_shared (T := Probe.torch) Probe.unequal_workers in
      let weights := [("A"%string, 0.75%float); ("B"%string, 0.25%float)] in
      let submitted :=
        with_result_dict s [("A"%string, Some (Probe.probe 2));
                            ("B"%string, Some (Probe.probe 0))] in
      train_federated_start (Probe.config 10 0.1 true) Probe.unequal_workers
      = Ok (s, weights)
      /\ resolve_models weights submitted
         = Ok (publish_merged submitted (Some (Probe.probe 1.5)))).
Proof.
  intros Hnd Hin. split.
  - exists (init_shared train_loaders),
           (w_dict args (progress_dict (init_shared train_loaders))).
    split; [reflexivity|]. now apply lookup_w_dict.
  - vm_compute. split; reflexivity.
Qed.

Lemma weights_at_start_witness :
  exists s weights,
    train_federated_start (T := Probe.torch) (Probe.config 10 0.1 true)
      Probe.unequal_workers = Ok (s, weights)
    /\ Dict.lookup "A"%string weights
       = Some (float_of_Z (batches (T := Probe.torch) (repeat 0%float 300))
               / float_of_Z (all_batches (T := Probe.torch)
                               Probe.unequal_workers))%float.
Proof.
  refine (proj1 (weights_at_start Probe.torch (Probe.config 10 0.1 true)
                   Probe.unequal_workers "A"%string (repeat 0%float 300) _ _)).
  - repeat constructor; simpl; intuition discriminate.
  - left. reflexivity.
Defined.

(** ** The worker *)

Section WorkerFacts.
Context {T : Torch}.

(** Case analysis on the innermost test of a step. *)
Ltac step_cases :=
  repeat match goal with
         | |- context [match ?x with _ => _ end] =>
             lazymatch x with
             | context [match _ with _ => _ end] => fail
             | _ => destruct x eqn:?; simpl in *
             end
         end.

Lemma worker_inv_spawn (id : string) (model : Model) (optimizer : Optim)
    (train_loader : list Batch) :
  worker_inv (spawn_worker id model optimizer train_loader).
Proof. unfold worker_inv. simpl. split; [lia|reflexivity]. Qed.

(** The invariant holds along every run of the worker, whatever the shared
    state does. *)
Lemma worker_inv_step (args : Arguments) (s : Shared) (w : Worker) :
  worker_inv w -> worker_inv (snd (worker_step args s w)).
Proof.
  unfold worker_inv, worker_step, fail, get_batch_idx.
  destruct w as [id model optimizer avg_loss L batch_idx rest pc].
  simpl. destruct pc; simpl; intros Hinv;
    try (step_cases; simpl; try exact I; try exact Hinv; fail).
  - (* the head of the loop *)
    destruct Hinv as [HL Hidx]. destruct rest as [|b rest]; simpl in *.
    + repeat split; [lia|exact Hidx].
    + split; [lia|]. subst batch_idx.
      destruct (Z.eqb_spec (Z.of_nat (List.length avg_loss)) 0) as [E|E].
      * now rewrite E.
      * f_equal. lia.
  - (* the optimisation step *)
    destruct Hinv as [HL Hidx].
    destruct (train_batch model optimizer b) as [[model' optimizer'] loss].
    simpl. rewrite length_app. simpl. split; [lia|].
    destruct (Z.eqb_spec (Z.of_nat (List.length avg_loss + 1)) 0) as [E|E];
      [lia|]. rewrite Hidx. f_equal. lia.
Qed.

(** Every event of a worker holds of the shared state its step leaves. *)
Lemma worker_step_event (args : Arguments) (s : Shared) (w : Worker) :
  event_holds (fst (fst (worker_step args s w)))
              (snd (fst (worker_step args s w))).
Proof.
  unfold worker_step, fail, get_batch_idx, Dict.getitem, Dict.del.
  destruct (wk_pc w); simpl; step_cases; simpl;
    first [ exact I
          | reflexivity
          | apply lookup_set_eq
          | apply lookup_remove_eq
          | eexists; split; apply lookup_set_eq ].
Qed.

(** A worker writes neither [stop] nor the entries of another worker. *)
Lemma worker_step_stop (args : Arguments) (s : Shared) (w : Worker) :
  stop (snd (fst (worker_step args s w))) = stop s.
Proof.
  unfold worker_step, fail. destruct (wk_pc w); simpl; step_cases; reflexivity.
Qed.

Lemma mem_remove_other {V : Type} (k k' : string) (d : Dict.t string V) :
  k' <> k -> Dict.mem k' (Dict.remove k d) = Dict.mem k' d.
Proof. intros Hne. unfold Dict.mem. now rewrite lookup_remove_neq. Qed.

Lemma worker_step_keeps_other_entries (args : Arguments) (w : Worker)
    (id : string) :
  id <> wk_id w ->
  keeps_worker_entries id (fun s => snd (fst (worker_step args s w))).
Proof.
  intros Hne s. unfold worker_step, fail, Dict.getitem, Dict.del.
  destruct (wk_pc w); simpl; step_cases; simpl; split; intros Hm;
    try exact Hm; try (now apply mem_set_keeps).
  now rewrite mem_remove_other.
Qed.

End WorkerFacts.

Section WorkerSteps.
Context {T : Torch}.
Variable args : Arguments.

Lemma worker_run_events_hold (envs : list (Shared -> Shared)) :
  forall (s : Shared) (w : Worker),
    Forall (fun es => event_holds (fst es) (snd es))
           (fst (worker_run args envs s w)).
Proof.
  induction envs as [|env envs IH]; intros s w; simpl; [constructor|].
  pose proof (worker_step_event args (env s) w) as Hev.
  destruct (worker_step args (env s) w) as [[ev s'] w'].
  specialize (IH s' w').
  destruct (worker_run args envs s' w') as [trace w''].
  simpl in *. constructor; assumption.
Qed.



Lemma mem_getitem {V : Type} (k : string) (d : Dict.t string V) :
  Dict.mem k d = true -> exists v, Dict.getitem k d = Ok v.
Proof.
  unfold Dict.mem, Dict.getitem. destruct (Dict.lookup k d) as [v|];
    [now exists v|discriminate].
Qed.

Lemma worker_run_cons (env : Shared -> Shared)
    (envs : list (Shared -> Shared)) (s : Shared) (w : Worker) :
  worker_run args (env :: envs) s w
  = let '(ev, s', w') := worker_step args (env s) w in
    let '(trace, w'') := worker_run args envs s' w' in
    ((ev, s') :: trace, w'').
Proof. reflexivity. Qed.












End WorkerSteps.



(** ** Completion of a worker *)

Section WorkerCompletion.
Context {T : Torch}.
Variable args : Arguments.

Lemma step_loop_exit (s : Shared) (w : Worker) :
  wk_pc w = WFor ->
  wk_rest w = [] ->
  worker_step args s w = (EvTau, s, at_pc w WFinalPublish).
Proof. intros Hpc Hrest. unfold worker_step. now rewrite Hpc, Hrest. Qed.

Lemma step_final_publish (s : Shared) (w : Worker) :
  worker_step args s (at_pc w WFinalPublish)
  = (EvPublish (wk_id w) (wk_model w),
     with_result_dict s (Dict.set (wk_id w) (Some (wk_model w)) (result_dict s)),
     at_pc w WFinalLoss).
Proof. reflexivity. Qed.

Lemma step_final_loss (s : Shared) (w : Worker) (d : Dict.t loss_key float) :
  Dict.getitem (wk_id w) (loss_dict s) = Ok d ->
  worker_step args s (at_pc w WFinalLoss)
  = (EvLoss (wk_id w) Final (np_mean (wk_avg_loss w)),
     with_loss s
       (Dict.set (wk_id w) (Dict.set Final (np_mean (wk_avg_loss w)) d)
                 (loss_dict s)),
     at_pc w WFinalProgress).
Proof. intros Hd. unfold worker_step. simpl. now rewrite Hd. Qed.

Lemma step_final_progress (s : Shared) (w : Worker) (i : Z) :
  wk_batch_idx w = Some i ->
  worker_step args s (at_pc w WFinalProgress)
  = (EvProgress (wk_id w) (i + 1) (wk_L w),
     with_progress s (Dict.set (wk_id w) (i + 1, wk_L w) (progress_dict s)),
     at_pc w WDelWaiting).
Proof.
  intros Hidx. unfold worker_step, get_batch_idx. simpl. now rewrite Hidx.
Qed.

Lemma step_del_waiting (s : Shared) (w : Worker) :
  Dict.mem (wk_id w) (waiting_for_sync_dict s) = true ->
  worker_step args s (at_pc w WDelWaiting)
  = (EvDelWaiting (wk_id w),
     with_waiting s (Dict.remove (wk_id w) (waiting_for_sync_dict s)),
     at_pc w WDone).
Proof. intros Hm. unfold worker_step, Dict.del. simpl. now rewrite Hm. Qed.

(** From the exit of the loop to the end of the process, under
    interference. *)
Lemma run_completion (w : Worker) (i : Z)
    (e1 e2 e3 e4 e5 : Shared -> Shared) (s : Shared) :
  wk_pc w = WFor ->
  wk_rest w = [] ->
  wk_batch_idx w = Some i ->
  Dict.mem (wk_id w) (loss_dict s) = true ->
  Dict.mem (wk_id w) (waiting_for_sync_dict s) = true ->
  Forall (keeps_worker_entries (wk_id w)) [e1; e2; e3; e4; e5] ->
  map fst (fst (worker_run args [e1; e2; e3; e4; e5] s w))
  = [EvTau;
     EvPublish (wk_id w) (wk_model w);
     EvLoss (wk_id w) Final (np_mean (wk_avg_loss w));
     EvProgress (wk_id w) (i + 1) (wk_L w);
     EvDelWaiting (wk_id w)]
  /\ snd (worker_run args [e1; e2; e3; e4; e5] s w) = at_pc w WDone.
Proof.
  intros Hpc Hrest Hidx Hloss Hwait Henvs.
  inversion Henvs as [|? ? H1 Henvs1]; subst.
  inversion Henvs1 as [|? ? H2 Henvs2]; subst.
  inversion Henvs2 as [|? ? H3 Henvs3]; subst.
  inversion Henvs3 as [|? ? H4 Henvs4]; subst.
  inversion Henvs4 as [|? ? H5 _]; subst.
  rewrite worker_run_cons, (step_loop_exit (e1 s) w Hpc Hrest).
  cbv beta iota.
  rewrite worker_run_cons, step_final_publish. cbv beta iota.
  set (s2 := with_result_dict (e2 (e1 s)) _).
  assert (Hl2 : Dict.mem (wk_id w) (loss_dict s2) = true)
    by (subst s2; simpl; apply H2, H1, Hloss).
  assert (Hw2 : Dict.mem (wk_id w) (waiting_for_sync_dict s2) = true)
    by (subst s2; simpl; apply H2, H1, Hwait).
  destruct (mem_getitem (wk_id w) (loss_dict (e3 s2))) as [d Hd];
    [apply H3, Hl2|].
  rewrite worker_run_cons, (step_final_loss (e3 s2) w d Hd). cbv beta iota.
  set (s3 := with_loss (e3 s2) _).
  assert (Hw3 : Dict.mem (wk_id w) (waiting_for_sync_dict s3) = true)
    by (subst s3; simpl; apply H3, Hw2).
  rewrite worker_run_cons, (step_final_progress (e4 s3) w i Hidx).
  cbv beta iota.
  set (s4 := with_progress (e4 s3) _).
  assert (Hw4 : Dict.mem (wk_id w) (waiting_for_sync_dict s4) = true)
    by (subst s4; simpl; apply H4, Hw3).
  rewrite worker_run_cons, (step_del_waiting (e5 s4) w (proj2 (H5 s4) Hw4)).
  cbv beta iota. split; reflexivity.
Qed.

End WorkerCompletion.

(** C4: a worker that leaves its loop after at least one batch goes, with
    no test on the way and whatever the other processes do in between
    (they leave its loss dictionary and its waiting flag in place), through
    these steps: publish its model in [result_dict[id]], record
    [np.mean(avg_loss)] under ["final"] in [loss_dict[id]], where
    [avg_loss] holds one loss per batch of its loader, set
    [progress_dict[id]] to [(L, L)], and delete its key from
    [waiting_for_sync_dict]: right after that step the map has no entry
    for it. *)
Theorem worker_completion (T : Torch) (args : Arguments) (w : Worker)
    (envs : list (Shared -> Shared)) (s : Shared) :
  wk_pc w = WFor ->
  wk_rest w = [] ->
  worker_inv w ->
  1 <= wk_L w ->
  Dict.mem (wk_id w) (loss_dict s) = true ->
  Dict.mem (wk_id w) (waiting_for_sync_dict s) = true ->
  Forall (keeps_worker_entries (wk_id w)) envs ->
  List.length envs = 5%nat ->
  map fst (fst (worker_run args envs s w))
  = [EvTau;
     EvPublish (wk_id w) (wk_model w);
     EvLoss (wk_id w) Final (np_mean (wk_avg_loss w));
     EvProgress (wk_id w) (wk_L w) (wk_L w);
     EvDelWaiting (wk_id w)]
  /\ Forall (fun es => event_holds (fst es) (snd es))
            (fst (worker_run args envs s w))
  /\ wk_pc (snd (worker_run args envs s w)) = WDone
  /\ Z.of_nat (List.length (wk_avg_loss w)) = wk_L w.
Proof.
  intros Hpc Hrest Hinv HL Hloss Hwait Henvs Hlen.
  unfold worker_inv in Hinv. rewrite Hpc, Hrest in Hinv. simpl in Hinv.
  destruct Hinv as [Htrained Hidx].
  assert (Hall : Z.of_nat (List.length (wk_avg_loss w)) = wk_L w) by lia.
  rewrite Hall in Hidx.
  destruct (Z.eqb_spec (wk_L w) 0) as [E|_]; [lia|].
  destruct envs as [|e1 [|e2 [|e3 [|e4 [|e5 [|e6 envs]]]]]];
    try discriminate Hlen.
  destruct (run_completion args w (wk_L w - 1) e1 e2 e3 e4 e5 s
              Hpc Hrest Hidx Hloss Hwait Henvs) as [Htr Hw].
  replace (wk_L w - 1 + 1) with (wk_L w) in Htr by lia.
  repeat split.
  - exact Htr.
  - apply worker_run_events_hold.
  - now rewrite Hw.
  - exact Hall.
Qed.

Lemma worker_completion_witness :
  let sys := snd (Probe.run Probe.at_loop_exit) in
  wk_pc (snd (worker_run Probe.args2 (Probe.idle 5) (sys_shared sys)
                (Probe.worker_A sys))) = WDone.
Proof.
  refine (proj1 (proj2 (proj2 (worker_completion Probe.torch Probe.args2
    (Probe.worker_A (snd (Probe.run Probe.at_loop_exit)))
    (Probe.idle 5) (sys_shared (snd (Probe.run Probe.at_loop_exit)))
    _ _ _ _ _ _ _ _)))).
  - reflexivity.
  - reflexivity.
  - vm_compute. split; reflexivity.
  - vm_compute. discriminate.
  - reflexivity.
  - reflexivity.
  - repeat constructor; intros H; exact H.
  - reflexivity.
Defined.

(** ** The synchronisation interval *)





(** ** The processes respect each other's assumptions

    The runs above let the other processes do anything that keeps [stop]
    set, respectively keeps a worker's entries in place. The coordinator,
    the other workers and the orchestrator do no more than that. *)

Section Guarantees.
Context {T : Torch}.

Lemma mem_fold_set_false (id : string) (ks : list string) :
  forall d : Dict.t string bool,
    Dict.mem id d = true ->
    Dict.mem id (fold_left (fun d k => Dict.set k false d) ks d) = true.
Proof.
  induction ks as [|k ks IH]; intros d Hm; simpl; [exact Hm|].
  apply IH. now apply mem_set_keeps.
Qed.

Lemma synchronizer_keeps_worker_entries (weights : Dict.t string float)
    (wait_interval : float) (pc : sync_pc) (id : string) :
  keeps_worker_entries id
    (fun s => snd (fst (synchronizer_step weights wait_interval s pc))).
Proof.
  intros s. destruct pc; simpl; try (split; intros H; exact H).
  - destruct (resolve_models weights s) as [s'|e] eqn:E; simpl;
      [|split; intros H; exact H].
    apply resolve_models_frame in E. destruct E as [d ->]. simpl.
    split; intros H; exact H.
  - split; intros H; [exact H|]. now apply mem_fold_set_false.
Qed.

Lemma worker_keeps_stop (args : Arguments) (w : Worker) :
  keeps_stop (fun s => snd (fst (worker_step args s w))).
Proof. intros s Hs. now rewrite worker_step_stop. Qed.

Lemma main_step_shared (args : Arguments) (sys : System) :
  snd (fst (main_step args sys))
  = match sys_main sys with
    | MStop => with_stop (sys_shared sys) true
    | _ => sys_shared sys
    end.
Proof.
  unfold main_step. destruct (sys_main sys); simpl; try reflexivity.
  - now destruct (Dict.getitem "model"%string (sync_dict (sys_shared sys))).
  - now destruct (average_loss (sys_shared sys) (sys_weights sys)).
  - now destruct (visdom (training args) && negb (sys_vis_params sys))%bool.
Qed.

Lemma main_keeps_stop (args : Arguments) (workers : list Worker)
    (sync : sync_pc) (pc : main_pc) (weights : list float)
    (vis_params : bool) :
  keeps_stop
    (fun s => snd (fst (main_step args
                          {| sys_shared := s;
                             sys_workers := workers;
                             sys_sync := sync;
                             sys_main := pc;
                             sys_weights := weights;
                             sys_vis_params := vis_params |}))).
Proof.
  intros s Hs. rewrite main_step_shared. simpl.
  destruct pc; try exact Hs; reflexivity.
Qed.

Lemma main_keeps_worker_entries (args : Arguments) (workers : list Worker)
    (sync : sync_pc) (pc : main_pc) (weights : list float)
    (vis_params : bool) (id : string) :
  keeps_worker_entries id
    (fun s => snd (fst (main_step args
                          {| sys_shared := s;
                             sys_workers := workers;
                             sys_sync := sync;
                             sys_main := pc;
                             sys_weights := weights;
                             sys_vis_params := vis_params |}))).
Proof.
  intros s. rewrite main_step_shared. simpl.
  destruct pc; split; intros H; exact H.
Qed.

End Guarantees.

(** * Further properties of the code *)

(** ** More on dictionaries *)

Section MoreDictFacts.
Context {K V : Type} `{KeyLaws K}.
Implicit Types (k : K) (v : V) (d : Dict.t K V).

Lemma mem_In_keys k d : Dict.mem k d = true <-> In k (Dict.keys d).
Proof.
  unfold Dict.mem. induction d as [|[k' v'] d IH]; simpl.
  - split; [discriminate|tauto].
  - destruct (key_eqb k k') eqn:E.
    + apply key_eqb_eq in E. subst. split; [now left|reflexivity].
    + rewrite IH. split; [now right|].
      intros [E'|Hin]; [|exact Hin]. subst k'.
      rewrite key_eqb_refl in E. discriminate.
Qed.

Lemma keys_set_in k v d :
  In k (Dict.keys d) -> Dict.keys (Dict.set k v d) = Dict.keys d.
Proof.
  induction d as [|[k' v'] d IH]; simpl; [tauto|].
  intros Hin. destruct (key_eqb k k') eqn:E; simpl; [reflexivity|].
  f_equal. apply IH. destruct Hin as [E'|Hin]; [|exact Hin].
  subst k'. rewrite key_eqb_refl in E. discriminate.
Qed.

Lemma keys_set_notin k v d :
  ~ In k (Dict.keys d) -> Dict.keys (Dict.set k v d) = Dict.keys d ++ [k].
Proof.
  intros Hn. rewrite set_fresh by exact Hn. unfold Dict.keys.
  now rewrite map_app.
Qed.

Lemma NoDup_keys_set k v d :
  NoDup (Dict.keys d) -> NoDup (Dict.keys (Dict.set k v d)).
Proof.
  intros Hnd. destruct (Dict.mem k d) eqn:Hk.
  - apply mem_In_keys in Hk. now rewrite keys_set_in.
  - assert (Hn : ~ In k (Dict.keys d)).
    { intros Hin. apply mem_In_keys in Hin. congruence. }
    rewrite keys_set_notin by exact Hn.
    apply NoDup_rev in Hnd. rewrite <- (rev_involutive (Dict.keys d ++ [k])).
    apply NoDup_rev. rewrite rev_app_distr. simpl. constructor.
    + now rewrite <- in_rev.
    + exact Hnd.
Qed.

Lemma keys_fold_set (ks : list K) v :
  forall d,
    incl ks (Dict.keys d) ->
    Dict.keys (fold_left (fun d k => Dict.set k v d) ks d) = Dict.keys d.
Proof.
  induction ks as [|k ks IH]; intros d Hincl; simpl; [reflexivity|].
  assert (Hk : In k (Dict.keys d)) by (apply Hincl; now left).
  rewrite IH.
  - now apply keys_set_in.
  - rewrite keys_set_in by exact Hk. intros x Hx. apply Hincl. now right.
Qed.

Lemma lookup_fold_set (ks : list K) v :
  forall d id,
    Dict.lookup id (fold_left (fun d k => Dict.set k v d) ks d)
    = if existsb (key_eqb id) ks then Some v else Dict.lookup id d.
Proof.
  induction ks as [|k ks IH]; intros d id; simpl; [reflexivity|].
  rewrite IH. destruct (existsb (key_eqb id) ks).
  - now rewrite orb_true_r.
  - rewrite orb_false_r. destruct (key_eqb id k) eqn:E.
    + apply key_eqb_eq in E. subst. apply lookup_set_eq.
    + apply lookup_set_neq. intros ->. rewrite key_eqb_refl in E.
      discriminate.
Qed.

Lemma existsb_keys_mem k d :
  existsb (key_eqb k) (Dict.keys d) = Dict.mem k d.
Proof.
  unfold Dict.mem. induction d as [|[k' v'] d IH]; simpl; [reflexivity|].
  destruct (key_eqb k k'); simpl; [reflexivity|exact IH].
Qed.

End MoreDictFacts.

(** The keys after [d[k] = v] depend on the keys before only. *)
Lemma keys_set_same {K V W : Type} `{KeyLaws K} (k : K) (v : V) (w : W)
    (d : Dict.t K V) (d' : Dict.t K W) :
  Dict.keys d = Dict.keys d' ->
  Dict.keys (Dict.set k v d) = Dict.keys (Dict.set k w d').
Proof.
  intros E. destruct (Dict.mem k d) eqn:Hk.
  - assert (Hin : In k (Dict.keys d)) by now apply mem_In_keys.
    rewrite (keys_set_in k v d Hin).
    rewrite E in Hin. now rewrite (keys_set_in k w d' Hin).
  - assert (Hn : ~ In k (Dict.keys d)).
    { intros Hin. apply mem_In_keys in Hin. congruence. }
    rewrite (keys_set_notin k v d Hn).
    rewrite E in Hn. rewrite (keys_set_notin k w d' Hn). now rewrite E.
Qed.

(** ** What the coordinator leaves alone *)

Section CoordinatorFrame.
Context {T : Torch}.

Lemma release_barrier_keys (s : Shared) :
  Dict.keys (waiting_for_sync_dict (release_barrier s))
  = Dict.keys (waiting_for_sync_dict s).
Proof.
  unfold release_barrier. simpl. apply keys_fold_set. apply incl_refl.
Qed.

Lemma release_barrier_lookup (s : Shared) (id : string) :
  Dict.lookup id (waiting_for_sync_dict (release_barrier s))
  = option_map (fun _ => false) (Dict.lookup id (waiting_for_sync_dict s)).
Proof.
  unfold release_barrier. simpl. rewrite lookup_fold_set.
  rewrite existsb_keys_mem. unfold Dict.mem.
  now destruct (Dict.lookup id (waiting_for_sync_dict s)).
Qed.

Lemma synchronizer_wait_step (weights : Dict.t string float)
    (wait_interval : float) (s : Shared) (pc : sync_pc) :
  in_wait_loop pc = true ->
  barrier_closed s = true ->
  exists ev pc',
    synchronizer_step weights wait_interval s pc = (ev, s, pc')
    /\ in_wait_loop pc' = true.
Proof.
  unfold barrier_closed. intros Hpc Hclosed.
  apply andb_true_iff in Hclosed. destruct Hclosed as [Hstop Hall].
  apply negb_true_iff in Hstop. apply negb_true_iff in Hall.
  destruct pc; try discriminate Hpc; simpl; rewrite ?Hstop, ?Hall;
    eexists; eexists; split; reflexivity.
Qed.

End CoordinatorFrame.

(** X1: a step of the coordinator never writes [result_dict],
    [progress_dict], [loss_dict] or [stop], and it neither adds an id to
    the waiting map nor removes one: the models the workers submitted stay
    in place from round to round. *)
Theorem synchronizer_leaves_submissions (T : Torch)
    (weights : Dict.t string float) (wait_interval : float) (s : Shared)
    (pc : sync_pc) :
  let s' := snd (fst (synchronizer_step weights wait_interval s pc)) in
  result_dict s' = result_dict s
  /\ progress_dict s' = progress_dict s
  /\ loss_dict s' = loss_dict s
  /\ stop s' = stop s
  /\ Dict.keys (waiting_for_sync_dict s') = Dict.keys (waiting_for_sync_dict s).
Proof.
  destruct pc; simpl; try (repeat split; reflexivity).
  - destruct (resolve_models weights s) as [s'|e] eqn:E; simpl;
      [|repeat split; reflexivity].
    apply resolve_models_frame in E. destruct E as [d ->].
    repeat split; reflexivity.
  - repeat split; try reflexivity. apply release_barrier_keys.
Qed.

(** X2: releasing the barrier sets the flag of every id of the waiting map
    to false and leaves the ids themselves, and every other shared object,
    as they were. *)
Theorem release_barrier_clears_flags (T : Torch) (s : Shared) (id : string) :
  Dict.lookup id (waiting_for_sync_dict (release_barrier s))
  = option_map (fun _ => false) (Dict.lookup id (waiting_for_sync_dict s))
  /\ Dict.keys (waiting_for_sync_dict (release_barrier s))
     = Dict.keys (waiting_for_sync_dict s)
  /\ release_barrier s
     = with_waiting s (waiting_for_sync_dict (release_barrier s)).
Proof.
  split; [apply release_barrier_lookup|split].
  - apply release_barrier_keys.
  - reflexivity.
Qed.

(** X3: as long as [stop] is unset and some waiting flag is false in
    every state the other processes make, the coordinator only polls:
    whatever the number of its steps, it begins no resolution pass, stays
    in its wait loop and leaves the shared state as the others made it, so
    that the states it finds are those states. *)
Theorem synchronizer_waits_while_barrier_closed (T : Torch)
    (weights : Dict.t string float) (wait_interval : float)
    (envs : list (Shared -> Shared)) (s : Shared) (pc : sync_pc) :
  in_wait_loop pc = true ->
  Forall (fun s' => barrier_closed s' = true) (states_after envs s) ->
  exists pc',
    synchronizer_run weights wait_interval envs s pc
    = (fold_left (fun s env => env s) envs s, pc', 0%nat)
    /\ in_wait_loop pc' = true.
Proof.
  revert s pc.
  induction envs as [|env envs IH]; intros s pc Hpc Hseen; simpl.
  - exists pc. split; [reflexivity|exact Hpc].
  - simpl in Hseen. inversion Hseen as [|? ? Henv Hseen']; subst.
    destruct (synchronizer_wait_step weights wait_interval (env s) pc
                Hpc Henv) as (ev & pc1 & Hstep & Hpc1).
    rewrite Hstep.
    destruct (IH (env s) pc1 Hpc1 Hseen') as (pc' & Hrun & Hpc').
    rewrite Hrun. exists pc'. split; [|exact Hpc'].
    destruct pc; try discriminate Hpc; reflexivity.
Qed.

Lemma synchronizer_waits_while_barrier_closed_witness :
  exists pc',
    synchronizer_run (T := Probe.torch) (snd Probe.started) 0.1%float
      Probe.first_steps_of_A (sys_shared (fst Probe.started)) SOuter
    = (fold_left (fun s env => env s) Probe.first_steps_of_A
                 (sys_shared (fst Probe.started)),
       pc', 0%nat)
    /\ in_wait_loop pc' = true.
Proof.
  apply (synchronizer_waits_while_barrier_closed Probe.torch
           (snd Probe.started) 0.1%float Probe.first_steps_of_A
           (sys_shared (fst Probe.started)) SOuter).
  - reflexivity.
  - repeat constructor.
Defined.

(** ** Outcomes of [federated_avg] *)

Section AverageOutcomes.
Context {T : Torch}.

Lemma weighted_loop_first_bad (weights : Dict.t string float)
    (items : list (string * pymodel)) :
  forall acc : pymodel,
    match find (fun kv => negb (entry_ok weights kv)) items with
    | Some (id, _) =>
        weighted_loop weights items acc
        = Raise (if Dict.mem id weights then AttributeError else KeyError)
    | None =>
        exists r,
          weighted_loop weights items acc = Ok r
          /\ (items <> [] \/ acc <> None -> r <> None)
    end.
Proof.
  induction items as [|[id pm] items IH]; intros acc; simpl.
  - exists acc. split; [reflexivity|]. intros [Hne|Hacc]; [contradiction|exact Hacc].
  - unfold entry_ok at 1, Dict.mem, Dict.getitem. simpl.
    destruct (Dict.lookup id weights) as [w|] eqn:Hw; simpl;
      rewrite ?Hw; [|reflexivity].
    destruct pm as [m|]; simpl; rewrite ?Hw; [|reflexivity].
    destruct acc as [a|].
    + specialize (IH (Some (add_model a (scale_model m w)))).
      destruct (find _ items) as [[id' pm']|]; [exact IH|].
      destruct IH as (r & Hr & Hsome). exists r. split; [exact Hr|].
      intros _. apply Hsome. right. discriminate.
    + specialize (IH (Some (scale_model m w))).
      destruct (find _ items) as [[id' pm']|]; [exact IH|].
      destruct IH as (r & Hr & Hsome). exists r. split; [exact Hr|].
      intros _. apply Hsome. right. discriminate.
Qed.

Lemma add_loop_all (m : Model) (rest : list (string * Model)) :
  add_loop (Some m) (map (fun im => Some (snd im)) rest)
  = Ok (Some (fold_left add_model (map snd rest) m)).
Proof.
  revert m. induction rest as [|[id' m'] rest IH]; intros m; simpl;
    [reflexivity|]. apply IH.
Qed.

End AverageOutcomes.

(** X4: with weights that are not empty, [federated_avg] fails at the
    first entry of [models], in dictionary order, whose id has no weight
    or whose value is [None]: with [KeyError] when the id has no weight
    (also when the value is [None] as well, since [weights[id]] is
    evaluated first), with [AttributeError] otherwise. When there is no
    such entry it returns a value, and a model unless [models] is empty. *)
Theorem federated_avg_first_bad_entry (T : Torch)
    (weights : Dict.t string float) (models : Dict.t string pymodel) :
  weights <> [] ->
  match find (fun kv => negb (entry_ok weights kv)) models with
  | Some (id, _) =>
      federated_avg models (Some weights)
      = Raise (if Dict.mem id weights then AttributeError else KeyError)
  | None =>
      exists r,
        federated_avg models (Some weights) = Ok r
        /\ (models <> [] -> r <> None)
  end.
Proof.
  intros Hw. destruct weights as [|kv weights]; [contradiction|].
  unfold federated_avg, Dict.items.
  pose proof (weighted_loop_first_bad (kv :: weights) models None) as H.
  destruct (find _ models) as [[id pm]|]; [exact H|].
  destruct H as (r & Hr & Hsome). exists r. split; [exact Hr|].
  intros Hne. apply Hsome. now left.
Qed.

Lemma federated_avg_first_bad_entry_witness :
  federated_avg (T := Probe.torch)
    [("A"%string, Some (Probe.probe 2)); ("B"%string, None)]
    (Some [("A"%string, 1%float)])
  = Raise KeyError.
Proof.
  exact (federated_avg_first_bad_entry Probe.torch [("A"%string, 1%float)]
           [("A"%string, Some (Probe.probe 2)); ("B"%string, None)]
           ltac:(discriminate)).
Defined.

(** X5: without weights, and likewise with an empty weights dictionary,
    [federated_avg] of models that are all present adds them up in
    dictionary order, starting from the first, and scales the sum by
    [1.0 / n] for [n] models; a single model comes back scaled by 1.0. *)
Theorem federated_avg_uniform (T : Torch) (id : string) (m : Model)
    (rest : list (string * Model)) :
  let models := (id, Some m) :: map (fun im => (fst im, Some (snd im))) rest in
  let mean :=
    scale_model (fold_left add_model (map snd rest) m)
                (1.0 / float_of_Z (Z.of_nat (S (List.length rest))))%float in
  federated_avg models None = Ok (Some mean)
  /\ federated_avg models (Some []) = Ok (Some mean)
  /\ federated_avg [(id, Some m)] None = Ok (Some (scale_model m 1%float)).
Proof.
  simpl. unfold federated_avg, Dict.values, Dict.len. simpl.
  rewrite map_map. simpl. rewrite length_map.
  pose proof (add_loop_all m rest) as Hsum.
  unfold pymodel in *. rewrite Hsum. simpl.
  repeat split; reflexivity.
Qed.

(** ** The shared state at start-up *)

Section StartState.
Context {T : Torch}.

Lemma Forall_set {V : Type} (P : V -> Prop) (k : string) (v : V)
    (d : Dict.t string V) :
  P v ->
  Forall (fun kv => P (snd kv)) d ->
  Forall (fun kv => P (snd kv)) (Dict.set k v d).
Proof.
  intros Hv. induction d as [|[k' v'] d IH]; intros Hall; simpl.
  - constructor; [exact Hv|constructor].
  - inversion Hall as [|? ? Hhd Htl]; subst.
    destruct (String.eqb k k'); constructor; auto.
Qed.

Lemma registered_register_worker (s : Shared) (wl : string * list Batch) :
  registered s -> registered (register_worker s wl).
Proof.
  intros (Hr & Hw & Hl & Hnd & Hnone & Hfalse & Hsd & Hstop & Hsc).
  unfold registered, register_worker. simpl. repeat split.
  - now apply keys_set_same.
  - now apply keys_set_same.
  - now apply keys_set_same.
  - now apply NoDup_keys_set.
  - apply (Forall_set (fun v => v = None)); [reflexivity|exact Hnone].
  - apply (Forall_set (fun v => v = false)); [reflexivity|exact Hfalse].
  - exact Hsd.
  - exact Hstop.
  - exact Hsc.
Qed.

Lemma registered_fold (train_loaders : loaders) :
  forall s, registered s -> registered (fold_left register_worker train_loaders s).
Proof.
  induction train_loaders as [|wl l IH]; intros s Hs; simpl; [exact Hs|].
  apply IH. now apply registered_register_worker.
Qed.

Lemma registered_init (train_loaders : loaders) :
  registered (init_shared train_loaders).
Proof.
  apply registered_fold. unfold registered, empty_shared. simpl.
  repeat split; try reflexivity; constructor.
Qed.

Lemma keys_register_fold (train_loaders : loaders) :
  forall s id,
    In id (Dict.keys (progress_dict (fold_left register_worker train_loaders s)))
    <-> In id (Dict.keys (progress_dict s)) \/ In id (map fst train_loaders).
Proof.
  induction train_loaders as [|wl l IH]; intros s id; simpl; [tauto|].
  rewrite IH. simpl.
  destruct (Dict.mem (fst wl) (progress_dict s)) eqn:Hm.
  - apply mem_In_keys in Hm. rewrite keys_set_in by exact Hm.
    split; [tauto|]. intros [Hin|[E|Hin]]; auto. subst id. now left.
  - assert (Hn : ~ In (fst wl) (Dict.keys (progress_dict s))).
    { intros Hin. apply mem_In_keys in Hin. congruence. }
    rewrite keys_set_notin by exact Hn. rewrite in_app_iff. simpl. tauto.
Qed.

Lemma map_snd_combine {A B : Type} (a : list A) (b : list B) :
  List.length a = List.length b -> map snd (combine a b) = b.
Proof.
  revert b. induction a as [|x a IH]; intros [|y b] Hlen; simpl in *;
    try discriminate; [reflexivity|]. f_equal. apply IH. lia.
Qed.

(** The weights have exactly the ids of [progress_dict], in its order. *)
Lemma keys_w_dict (args : Arguments) (progress : Dict.t string (Z * Z)) :
  NoDup (Dict.keys progress) ->
  Dict.keys (w_dict args progress) = Dict.keys progress.
Proof.
  intros Hnd. unfold w_dict. destruct (weighted_averaging args).
  - rewrite (@fold_set_fresh string float _ _ _ snd fst _ []).
    + simpl. unfold Dict.keys at 1. rewrite map_map. simpl.
      apply map_snd_combine. unfold np_weights, batch_counts, Dict.items,
        Dict.keys. now rewrite !length_map.
    + simpl. rewrite map_snd_combine; [exact Hnd|].
      unfold np_weights, batch_counts, Dict.items, Dict.keys.
      now rewrite !length_map.
  - rewrite (@fold_set_fresh string float _ _ _ (fun k => k) _ _ []).
    + simpl. unfold Dict.keys at 1. rewrite map_map. simpl. apply map_id.
    + simpl. rewrite map_id. exact Hnd.
Qed.

Lemma find_unsubmitted (weights : Dict.t string float)
    (models : Dict.t string pymodel) :
  (forall id, In id (Dict.keys models) -> Dict.mem id weights = true) ->
  match find (fun kv => negb (entry_ok weights kv)) models with
  | Some (id, _) => Dict.mem id weights = true /\ forallb submitted models = false
  | None => forallb submitted models = true
  end.
Proof.
  induction models as [|[id pm] models IH]; intros Hmem; simpl;
    [reflexivity|].
  assert (Hid : Dict.mem id weights = true) by (apply Hmem; now left).
  unfold entry_ok at 1, submitted at 1 2. simpl. rewrite Hid. simpl.
  destruct pm as [m|]; simpl.
  - apply IH. intros id' Hin. apply Hmem. now right.
  - split; [exact Hid|reflexivity].
Qed.

End StartState.

(** X6: whatever the loaders (also with a worker id given twice), the shared
    state [train_federated] builds holds the same ids, each once and in
    the same order, in [result_dict], [waiting_for_sync_dict],
    [progress_dict] and [loss_dict]: exactly the worker ids. Every
    submission is [None], every waiting flag false, [sync_dict] empty and
    both signals unset. The weights computed from it carry exactly these
    ids again, for either weighting. *)
Theorem start_state_registers_every_worker (T : Torch) (args : Arguments)
    (train_loaders : loaders) :
  let s := init_shared train_loaders in
  registered s
  /\ (forall id,
         In id (Dict.keys (progress_dict s)) <-> In id (map fst train_loaders))
  /\ Dict.keys (w_dict args (progress_dict s)) = Dict.keys (result_dict s).
Proof.
  simpl. pose proof (registered_init train_loaders) as Hreg.
  split; [exact Hreg|split].
  - intros id. unfold init_shared. rewrite keys_register_fold. simpl. tauto.
  - destruct Hreg as (Hr & _ & _ & Hnd & _). rewrite Hr.
    now apply keys_w_dict.
Qed.

(** X7: in a state whose [result_dict] still has the ids registered at
    start-up, at least two of them, a resolution with the weights computed
    at start-up never fails for a missing weight: it publishes a merged
    model when every worker has submitted one, and raises
    [AttributeError], leaving the state as it was, as soon as one entry is
    still [None]. *)
Theorem resolve_fails_only_on_missing_submission (T : Torch)
    (args : Arguments) (train_loaders : loaders) (s : Shared) :
  let s0 := init_shared train_loaders in
  let weights := w_dict args (progress_dict s0) in
  Dict.keys (result_dict s) = Dict.keys (result_dict s0) ->
  2 <= Dict.len (result_dict s) ->
  if forallb submitted (result_dict s)
  then exists m, resolve_models weights s = Ok (publish_merged s (Some m))
  else resolve_models weights s = Raise AttributeError.
Proof.
  simpl. intros Hkeys Hlen.
  destruct (registered_init train_loaders) as (Hr & _ & _ & Hnd & _).
  pose proof (keys_w_dict args _ Hnd) as Hwk.
  set (weights := w_dict args (progress_dict (init_shared train_loaders))) in *.
  assert (Hnd' : NoDup (Dict.keys (result_dict s))) by (rewrite Hkeys, Hr; exact Hnd).
  assert (Hmem : forall id, In id (Dict.keys (result_dict s)) ->
                            Dict.mem id weights = true).
  { intros id Hin. apply mem_In_keys. rewrite Hwk, <- Hr, <- Hkeys. exact Hin. }
  assert (Hne : result_dict s <> []).
  { intros E. rewrite E in Hlen. unfold Dict.len in Hlen. simpl in Hlen. lia. }
  assert (Hw : weights <> []).
  { intros E. destruct (result_dict s) as [|[id pm] rd] eqn:Erd;
      [contradiction|].
    specialize (Hmem id (or_introl eq_refl)). rewrite E in Hmem.
    discriminate. }
  unfold resolve_models.
  destruct (Z.eqb_spec (Dict.len (result_dict s)) 1) as [E|_]; [lia|].
  destruct (Z.eqb_spec (Dict.len (result_dict s)) 0) as [E|_]; [lia|].
  unfold Dict.items, Dict.empty. rewrite copy_dict by exact Hnd'.
  pose proof (find_unsubmitted weights (result_dict s) Hmem) as Hfind.
  pose proof (weighted_loop_first_bad weights (result_dict s) None) as Hloop.
  destruct weights as [|kv weights']; [contradiction|].
  unfold federated_avg, Dict.items.
  destruct (find _ (result_dict s)) as [[id pm]|].
  - destruct Hfind as [Hid Hall]. rewrite Hall, Hloop, Hid. reflexivity.
  - rewrite Hfind. destruct Hloop as (r & Hr' & Hsome).
    rewrite Hr'. simpl. destruct r as [m|].
    + now exists m.
    + exfalso. apply Hsome; [now left|reflexivity].
Qed.

Lemma resolve_fails_only_on_missing_submission_witness :
  resolve_models (T := Probe.torch) (snd Probe.started)
                 (sys_shared (fst Probe.started))
  = Raise AttributeError.
Proof.
  exact (resolve_fails_only_on_missing_submission Probe.torch Probe.args2
           Probe.two_workers (sys_shared (fst Probe.started))
           eq_refl ltac:(vm_compute; discriminate)).
Defined.

(** ** What a worker leaves alone *)

(** X8: a step of a worker never writes [sync_dict] or [stop], and it
    leaves the entries of every other id in [result_dict],
    [progress_dict], [loss_dict] and [waiting_for_sync_dict] as they
    were. *)
Theorem worker_writes_only_its_own_entries (T : Torch) (args : Arguments)
    (s : Shared) (w : Worker) (id : string) :
  id <> wk_id w ->
  let s' := snd (fst (worker_step args s w)) in
  sync_dict s' = sync_dict s
  /\ stop s' = stop s
  /\ Dict.lookup id (result_dict s') = Dict.lookup id (result_dict s)
  /\ Dict.lookup id (progress_dict s') = Dict.lookup id (progress_dict s)
  /\ Dict.lookup id (loss_dict s') = Dict.lookup id (loss_dict s)
  /\ Dict.lookup id (waiting_for_sync_dict s')
     = Dict.lookup id (waiting_for_sync_dict s).
Proof.
  intros Hne. unfold worker_step, fail, Dict.getitem, Dict.del.
  destruct (wk_pc w); simpl;
    repeat match goal with
           | |- context [match ?x with _ => _ end] =>
               lazymatch x with
               | context [match _ with _ => _ end] => fail
               | _ => destruct x eqn:?; simpl in *
               end
           end;
    repeat split;
    first [ reflexivity
          | apply lookup_set_neq; exact Hne
          | apply lookup_remove_neq; exact Hne ].
Qed.

Lemma worker_writes_only_its_own_entries_witness :
  let sys := snd (Probe.run Probe.at_sync_test) in
  Dict.lookup "B"%string
    (result_dict (snd (fst (worker_step Probe.args2 (sys_shared sys)
                                        (Probe.worker_A sys)))))
  = Dict.lookup "B"%string (result_dict (sys_shared sys)).
Proof.
  refine (proj1 (proj2 (proj2 (worker_writes_only_its_own_entries Probe.torch
    Probe.args2 (sys_shared (snd (Probe.run Probe.at_sync_test)))
    (Probe.worker_A (snd (Probe.run Probe.at_sync_test))) "B"%string _)))).
  vm_compute. discriminate.
Defined.

(** ** Whole runs of a worker *)

Section WorkerRuns.
Context {T : Torch}.
Variable args : Arguments.

Lemma worker_step_keeps_id (s : Shared) (w : Worker) :
  wk_id (snd (worker_step args s w)) = wk_id w
  /\ wk_L (snd (worker_step args s w)) = wk_L w.
Proof.
  unfold worker_step, fail. destruct (wk_pc w); simpl;
    repeat match goal with
           | |- context [match ?x with _ => _ end] =>
               lazymatch x with
               | context [match _ with _ => _ end] => fail
               | _ => destruct x eqn:?; simpl in *
               end
           end; split; reflexivity.
Qed.

Lemma worker_step_progress_bound (s : Shared) (w : Worker) (id : string)
    (i L : Z) :
  worker_inv w ->
  fst (fst (worker_step args s w)) = EvProgress id i L ->
  id = wk_id w /\ L = wk_L w /\ 0 <= i <= L.
Proof.
  unfold worker_inv, worker_step, fail, get_batch_idx, Dict.getitem, Dict.del.
  destruct (wk_pc w); simpl; intros Hinv;
    repeat match goal with
           | |- context [match ?x with _ => _ end] =>
               lazymatch x with
               | context [match _ with _ => _ end] => fail
               | _ => destruct x eqn:?; simpl in *
               end
           end; intros E; try discriminate E; injection E as <- <- <-.
  - destruct Hinv as [HL Hidx]. injection Hidx as ->.
    repeat split; lia.
  - destruct Hinv as (HL & _ & Hidx).
    destruct (Z.of_nat (List.length (wk_avg_loss w)) =? 0) eqn:E0;
      [discriminate|]. injection Hidx as ->. apply Z.eqb_neq in E0.
    repeat split; lia.
Qed.

Lemma worker_run_progress_bound (envs : list (Shared -> Shared)) :
  forall (s : Shared) (w : Worker),
    worker_inv w ->
    worker_inv (snd (worker_run args envs s w))
    /\ Forall (fun es => forall id i L,
                   fst es = EvProgress id i L ->
                   id = wk_id w /\ L = wk_L w /\ 0 <= i <= L)
              (fst (worker_run args envs s w)).
Proof.
  induction envs as [|env envs IH]; intros s w Hinv; simpl.
  - split; [exact Hinv|constructor].
  - pose proof (worker_inv_step args (env s) w Hinv) as Hinv'.
    pose proof (worker_step_progress_bound (env s) w) as Hev.
    pose proof (worker_step_keeps_id (env s) w) as [Hid HL].
    destruct (worker_step args (env s) w) as [[ev s'] w']. simpl in *.
    specialize (IH s' w' Hinv'). rewrite Hid, HL in IH.
    destruct (worker_run args envs s' w') as [trace w'']. simpl in *.
    destruct IH as [Hfin Hall]. split; [exact Hfin|].
    constructor; [|exact Hall].
    simpl. intros id i L E. now apply Hev.
Qed.

Lemma last_cons {A : Type} (a d : A) (l : list A) :
  last (a :: l) d = last l a.
Proof.
  revert a d. induction l as [|b l IH]; intros a d; [reflexivity|].
  change (last (a :: b :: l) d) with (last (b :: l) d).
  now rewrite (IH b d), (IH b a).
Qed.

Lemma final_shared_cons (s s' : Shared) (ev : event)
    (trace : list (event * Shared)) :
  final_shared s ((ev, s') :: trace) = final_shared s' trace.
Proof. unfold final_shared. simpl map. apply last_cons. Qed.

Lemma final_shared_app (ta tb : list (event * Shared)) :
  forall s, final_shared s (ta ++ tb) = final_shared (final_shared s ta) tb.
Proof.
  induction ta as [|[ev s'] ta IH]; intros s; [reflexivity|].
  simpl app. rewrite !final_shared_cons. apply IH.
Qed.

Lemma worker_run_app (ea eb : list (Shared -> Shared)) :
  forall (s : Shared) (w : Worker),
    worker_run args (ea ++ eb) s w
    = let '(ta, wa) := worker_run args ea s w in
      let '(tb, wb) := worker_run args eb (final_shared s ta) wa in
      (ta ++ tb, wb).
Proof.
  induction ea as [|env ea IH]; intros s w; simpl.
  - unfold final_shared. simpl.
    now destruct (worker_run args eb s w).
  - destruct (worker_step args (env s) w) as [[ev s'] w'].
    rewrite IH. destruct (worker_run args ea s' w') as [ta wa].
    rewrite final_shared_cons.
    now destruct (worker_run args eb (final_shared s' ta) wa).
Qed.

End WorkerRuns.

(** X9: along every run of a worker from its start, whatever the other
    processes do, the loop invariant holds, and every progress entry the
    worker writes is [(i, L)] under its own id with [L] the length of its
    loader and [0 <= i <= L]. *)
Theorem worker_progress_stays_in_range (T : Torch) (args : Arguments)
    (envs : list (Shared -> Shared)) (s : Shared) (id : string)
    (model : Model) (optimizer : Optim) (train_loader : list Batch) :
  let run := worker_run args envs s
               (spawn_worker id model optimizer train_loader) in
  worker_inv (snd run)
  /\ Forall (fun es => forall id' i L,
                 fst es = EvProgress id' i L ->
                 id' = id /\ L = batches train_loader /\ 0 <= i <= L)
            (fst run).
Proof.
  simpl.
  exact (worker_run_progress_bound args envs s
           (spawn_worker id model optimizer train_loader)
           (worker_inv_spawn id model optimizer train_loader)).
Qed.

Section WorkerWithoutBarrier.
Context {T : Torch}.
Variable args : Arguments.

(** The synchronisation test fails at batch index [i]. *)
Definition no_sync_at (i : Z) : Prop :=
  ((i mod sync_every_n_batch args =? 0) && (0 <? i))%bool = false.

Lemma no_sync_below_interval (L i : Z) :
  L <= sync_every_n_batch args -> 0 <= i < L -> no_sync_at i.
Proof.
  intros HL Hi. unfold no_sync_at.
  destruct (Z.ltb_spec 0 i) as [Hpos|Hz]; [|apply andb_false_r].
  rewrite Z.mod_small by lia. rewrite andb_true_r. apply Z.eqb_neq. lia.
Qed.

(** One pass through the loop body when the test fails. *)
Lemma run_one_batch (id : string) (model : Model) (optimizer : Optim)
    (avg_loss : list float) (L : Z) (idx : option Z) (b : Batch)
    (rest : list Batch) (e1 e2 e3 e4 : Shared -> Shared) (s : Shared) :
  let i := match idx with Some i => i + 1 | None => 0 end in
  let s2 := with_progress (e2 (e1 s))
              (Dict.set id (i, L) (progress_dict (e2 (e1 s)))) in
  sync_every_n_batch args <> 0 ->
  no_sync_at i ->
  worker_run args [e1; e2; e3; e4] s
    {| wk_id := id; wk_model := model; wk_optimizer := optimizer;
       wk_avg_loss := avg_loss; wk_L := L; wk_batch_idx := idx;
       wk_rest := b :: rest; wk_pc := WFor |}
  = ([(EvTau, e1 s); (EvProgress id i L, s2); (EvTau, e3 s2);
      (EvTau, e4 (e3 s2))],
     {| wk_id := id;
        wk_model := fst (fst (train_batch model optimizer b));
        wk_optimizer := snd (fst (train_batch model optimizer b));
        wk_avg_loss := avg_loss ++ [snd (train_batch model optimizer b)];
        wk_L := L; wk_batch_idx := Some i;
        wk_rest := rest; wk_pc := WFor |}).
Proof.
  intros i s2 Hn Hno. unfold no_sync_at in Hno. fold i in Hno.
  apply Z.eqb_neq in Hn.
  unfold worker_run, worker_step, get_batch_idx, py_mod. simpl.
  fold i. rewrite Hn. simpl. rewrite Hno. simpl.
  destruct (train_batch model optimizer b) as [[m' o'] loss]. reflexivity.
Qed.

Lemma keeps_entries_progress (id : string) (s : Shared)
    (d : Dict.t string (Z * Z)) :
  loss_dict (with_progress s d) = loss_dict s
  /\ waiting_for_sync_dict (with_progress s d) = waiting_for_sync_dict s.
Proof. split; reflexivity. Qed.

(** The loop over the batches left, when no test on the way succeeds. *)
Lemma run_batches_without_sync (rest : list Batch) :
  forall (id : string) (model : Model) (optimizer : Optim)
         (avg_loss : list float) (L : Z) (idx : option Z)
         (envs : list (Shared -> Shared)) (s : Shared),
    let w := {| wk_id := id; wk_model := model; wk_optimizer := optimizer;
                wk_avg_loss := avg_loss; wk_L := L; wk_batch_idx := idx;
                wk_rest := rest; wk_pc := WFor |} in
    worker_inv w ->
    sync_every_n_batch args <> 0 ->
    (forall i, 0 <= i < L -> no_sync_at i) ->
    List.length envs = (4 * List.length rest)%nat ->
    Forall (keeps_worker_entries id) envs ->
    let run := worker_run args envs s w in
    wk_pc (snd run) = WFor
    /\ wk_rest (snd run) = []
    /\ wk_id (snd run) = id
    /\ (wk_model (snd run), wk_optimizer (snd run), wk_avg_loss (snd run))
       = fold_left train_acc rest (model, optimizer, avg_loss)
    /\ existsb is_sleep (map fst (fst run)) = false
    /\ List.length (fst run) = (4 * List.length rest)%nat
    /\ (Dict.mem id (loss_dict s) = true ->
        Dict.mem id (loss_dict (final_shared s (fst run))) = true)
    /\ (Dict.mem id (waiting_for_sync_dict s) = true ->
        Dict.mem id (waiting_for_sync_dict (final_shared s (fst run))) = true).
Proof.
  induction rest as [|b rest IH];
    intros id model optimizer avg_loss L idx envs s w Hinv Hn Hno Hlen Henvs.
  - destruct envs; [|discriminate Hlen]. simpl.
    repeat split; auto.
  - destruct envs as [|e1 [|e2 [|e3 [|e4 envs]]]];
      try (simpl in Hlen; lia).
    inversion Henvs as [|? ? H1 Henvs1]; subst.
    inversion Henvs1 as [|? ? H2 Henvs2]; subst.
    inversion Henvs2 as [|? ? H3 Henvs3]; subst.
    inversion Henvs3 as [|? ? H4 Henvs4]; subst.
    unfold worker_inv in Hinv. simpl in Hinv. destruct Hinv as [HL Hidx].
    set (trained := Z.of_nat (List.length avg_loss)) in *.
    assert (Hi : match idx with Some i => i + 1 | None => 0 end = trained).
    { subst idx. destruct (Z.eqb_spec trained 0) as [E|E]; lia. }
    assert (Hnoi : no_sync_at (match idx with Some i => i + 1 | None => 0 end)).
    { rewrite Hi. apply Hno. subst trained. lia. }
    intros run. subst run w.
    change (e1 :: e2 :: e3 :: e4 :: envs) with ([e1; e2; e3; e4] ++ envs).
    rewrite worker_run_app.
    rewrite (run_one_batch id model optimizer avg_loss L idx b rest
               e1 e2 e3 e4 s Hn Hnoi).
    rewrite Hi. cbv beta iota.
    set (s2 := with_progress (e2 (e1 s)) _).
    set (s4 := final_shared s _).
    assert (Hs4 : s4 = e4 (e3 s2)) by reflexivity.
    destruct (train_batch model optimizer b) as [[m' o'] loss] eqn:Etb.
    simpl fst. simpl snd.
    assert (Hinv' : worker_inv
              {| wk_id := id; wk_model := m'; wk_optimizer := o';
                 wk_avg_loss := avg_loss ++ [loss]; wk_L := L;
                 wk_batch_idx := Some trained; wk_rest := rest;
                 wk_pc := WFor |}).
    { unfold worker_inv. simpl. rewrite length_app. simpl. fold trained.
      split; [subst trained; lia|].
      destruct (Z.eqb_spec (Z.of_nat (List.length avg_loss + 1)) 0) as [E|E];
        [lia|]. f_equal. subst trained. lia. }
    assert (Hlen' : List.length envs = (4 * List.length rest)%nat)
      by (simpl in Hlen; lia).
    specialize (IH id m' o' (avg_loss ++ [loss]) L (Some trained) envs s4
                  Hinv' Hn Hno Hlen' Henvs4).
    simpl in IH.
    destruct (worker_run args envs s4 _) as [tb wb]. simpl in IH.
    destruct IH as (Hpc & Hrest & Hid & Hfold & Hsleep & Hlentb & Hloss & Hwait).
    cbn [fst snd]. repeat split.
    + exact Hpc.
    + exact Hrest.
    + exact Hid.
    + rewrite Hfold. simpl. unfold train_acc at 2. now rewrite Etb.
    + simpl. exact Hsleep.
    + simpl. rewrite Hlentb. simpl. lia.
    + intros Hm.
      simpl app. rewrite !final_shared_cons.
      apply Hloss. rewrite Hs4. apply H4, H3. subst s2. simpl.
      apply H2, H1, Hm.
    + intros Hm.
      simpl app. rewrite !final_shared_cons.
      apply Hwait. rewrite Hs4. apply H4, H3. subst s2. simpl.
      apply H2, H1, Hm.
Qed.

End WorkerWithoutBarrier.

Section WorkerEdgeRuns.
Context {T : Torch}.
Variable args : Arguments.

Lemma step_final_progress_unbound (s : Shared) (w : Worker) :
  wk_batch_idx w = None ->
  worker_step args s (at_pc w WFinalProgress)
  = (EvRaise UnboundLocalError, s, at_pc w (WFailed UnboundLocalError)).
Proof.
  intros Hidx. unfold worker_step, get_batch_idx. simpl. now rewrite Hidx.
Qed.

Lemma run_empty_loader (id : string) (model : Model) (optimizer : Optim)
    (e1 e2 e3 e4 : Shared -> Shared) (s : Shared) :
  Dict.mem id (loss_dict s) = true ->
  Forall (keeps_worker_entries id) [e1; e2; e3; e4] ->
  let run := worker_run args [e1; e2; e3; e4] s
               (spawn_worker id model optimizer []) in
  map fst (fst run)
  = [EvTau; EvPublish id model; EvLoss id Final (np_mean []);
     EvRaise UnboundLocalError]
  /\ wk_pc (snd run) = WFailed UnboundLocalError
  /\ (Dict.mem id (waiting_for_sync_dict s) = true ->
      Dict.mem id (waiting_for_sync_dict (final_shared s (fst run))) = true).
Proof.
  intros Hloss Henvs.
  inversion Henvs as [|? ? H1 Henvs1]; subst.
  inversion Henvs1 as [|? ? H2 Henvs2]; subst.
  inversion Henvs2 as [|? ? H3 Henvs3]; subst.
  inversion Henvs3 as [|? ? H4 _]; subst.
  set (w := spawn_worker id model optimizer []).
  intros run. subst run.
  rewrite worker_run_cons, (step_loop_exit args (e1 s) w eq_refl eq_refl).
  cbv beta iota.
  rewrite worker_run_cons, step_final_publish. cbv beta iota.
  set (s2 := with_result_dict (e2 (e1 s)) _).
  assert (Hl2 : Dict.mem id (loss_dict s2) = true)
    by (subst s2; simpl; apply H2, H1, Hloss).
  destruct (mem_getitem id (loss_dict (e3 s2))) as [d Hd]; [apply H3, Hl2|].
  rewrite worker_run_cons, (step_final_loss args (e3 s2) w d Hd).
  cbv beta iota.
  set (s3 := with_loss (e3 s2) _).
  rewrite worker_run_cons, (step_final_progress_unbound (e4 s3) w eq_refl).
  cbv beta iota. simpl worker_run. cbn [fst snd map].
  repeat split.
  intros Hw. rewrite !final_shared_cons. unfold final_shared. simpl.
  apply H4. subst s3. simpl. apply H3. subst s2. simpl.
  apply H2, H1, Hw.
Qed.

End WorkerEdgeRuns.

(** X10: a worker whose loader is empty publishes the model it was given,
    records [np.mean([])] as its final loss and then fails with
    [UnboundLocalError] at [batch_idx + 1]: it never reaches
    [del waiting_for_sync_dict[id]], so its waiting flag stays in the
    map. *)
Theorem worker_with_empty_loader_fails (T : Torch) (args : Arguments)
    (id : string) (model : Model) (optimizer : Optim)
    (envs : list (Shared -> Shared)) (s : Shared) :
  Dict.mem id (loss_dict s) = true ->
  Forall (keeps_worker_entries id) envs ->
  List.length envs = 4%nat ->
  let run := worker_run args envs s (spawn_worker id model optimizer []) in
  map fst (fst run)
  = [EvTau; EvPublish id model; EvLoss id Final (np_mean []);
     EvRaise UnboundLocalError]
  /\ wk_pc (snd run) = WFailed UnboundLocalError
  /\ (Dict.mem id (waiting_for_sync_dict s) = true ->
      Dict.mem id (waiting_for_sync_dict (final_shared s (fst run))) = true).
Proof.
  intros Hloss Henvs Hlen.
  destruct envs as [|e1 [|e2 [|e3 [|e4 [|e5 envs]]]]]; try discriminate Hlen.
  now apply run_empty_loader.
Qed.

Lemma worker_with_empty_loader_fails_witness :
  wk_pc (snd (worker_run Probe.args2 (Probe.idle 4)
                (sys_shared (fst Probe.started))
                (spawn_worker (T := Probe.torch) "A"%string (Probe.probe 0)
                              tt [])))
  = WFailed UnboundLocalError.
Proof.
  refine (proj1 (proj2 (worker_with_empty_loader_fails Probe.torch Probe.args2
    "A"%string (Probe.probe 0) tt (Probe.idle 4)
    (sys_shared (fst Probe.started)) _ _ _))).
  - reflexivity.
  - repeat constructor; intros H; exact H.
  - reflexivity.
Defined.

Lemma worker_run_keeps_id (T : Torch) (args : Arguments)
    (envs : list (Shared -> Shared)) :
  forall (s : Shared) (w : Worker),
    wk_id (snd (worker_run args envs s w)) = wk_id w
    /\ wk_L (snd (worker_run args envs s w)) = wk_L w.
Proof.
  induction envs as [|env envs IH]; intros s w; simpl; [split; reflexivity|].
  pose proof (worker_step_keeps_id args (env s) w) as [Hid HL].
  destruct (worker_step args (env s) w) as [[ev s'] w']. simpl in *.
  specialize (IH s' w'). destruct (worker_run args envs s' w') as [tr w''].
  simpl in *. destruct IH as [Hid' HL']. split; congruence.
Qed.

Lemma run_below_interval (T : Torch) (args : Arguments)
    (id : string) (model : Model) (optimizer : Optim)
    (train_loader : list Batch) (envs : list (Shared -> Shared))
    (s : Shared) :
  train_loader <> [] ->
  batches train_loader <= sync_every_n_batch args ->
  Dict.mem id (loss_dict s) = true ->
  Dict.mem id (waiting_for_sync_dict s) = true ->
  Forall (keeps_worker_entries id) envs ->
  List.length envs = (4 * List.length train_loader + 5)%nat ->
  let run := worker_run args envs s
               (spawn_worker id model optimizer train_loader) in
  wk_pc (snd run) = WDone
  /\ (wk_model (snd run), wk_optimizer (snd run), wk_avg_loss (snd run))
     = train_batches model optimizer train_loader
  /\ existsb is_sleep (map fst (fst run)) = false
  /\ In (EvPublish id (fst (fst (train_batches model optimizer train_loader))))
        (map fst (fst run)).
Proof.
  intros Hne HL Hloss Hwait Henvs Hlen.
  set (n := (4 * List.length train_loader)%nat) in *.
  rewrite <- (firstn_skipn n envs) in Henvs |- *.
  apply Forall_app in Henvs. destruct Henvs as [Hea Heb].
  assert (Hlena : List.length (firstn n envs) = n)
    by (rewrite length_firstn; lia).
  assert (Hlenb : List.length (skipn n envs) = 5%nat)
    by (rewrite length_skipn; lia).
  set (ea := firstn n envs) in *. set (eb := skipn n envs) in *.
  assert (HLpos : 1 <= batches train_loader).
  { unfold batches. destruct train_loader; [contradiction|simpl; lia]. }
  assert (Hn : sync_every_n_batch args <> 0) by lia.
  pose proof (worker_inv_spawn id model optimizer train_loader) as Hinv.
  pose proof (run_batches_without_sync args train_loader id model optimizer
                [] (batches train_loader) None ea s Hinv Hn
                (fun i Hi => no_sync_below_interval args _ i HL Hi)
                Hlena Hea) as Hloop.
  pose proof (worker_run_progress_bound args ea s _ Hinv) as [Hinva _].
  pose proof (worker_run_keeps_id T args ea s
                (spawn_worker id model optimizer train_loader)) as [_ HLa].
  unfold spawn_worker in *. cbv zeta in Hloop |- *.
  rewrite worker_run_app.
  destruct (worker_run args ea s _) as [ta wa].
  cbn [fst snd wk_L] in Hloop, Hinva, HLa.
  destruct Hloop as (Hpc & Hrest & Hid & Hfold & Hsleep & _ & Hl & Hw).
  unfold worker_inv in Hinva. rewrite Hpc, Hrest, HLa in Hinva.
  cbn [List.length] in Hinva. destruct Hinva as [Htrained Hidx].
  assert (Hidx' : wk_batch_idx wa = Some (batches train_loader - 1)).
  { rewrite Hidx. unfold batches in *.
    destruct (Z.eqb_spec (Z.of_nat (List.length (wk_avg_loss wa))) 0);
      [lia|]. f_equal. lia. }
  destruct eb as [|e1 [|e2 [|e3 [|e4 [|e5 [|e6 eb]]]]]];
    try discriminate Hlenb.
  rewrite <- Hid in Heb.
  destruct (run_completion args wa (batches train_loader - 1)
              e1 e2 e3 e4 e5 (final_shared s ta) Hpc Hrest Hidx'
              ltac:(rewrite Hid; exact (Hl Hloss))
              ltac:(rewrite Hid; exact (Hw Hwait)) Heb) as [Htr Hfin].
  destruct (worker_run args [e1; e2; e3; e4; e5] (final_shared s ta) wa)
    as [tb wb].
  cbn [fst snd] in *. subst wb. cbn [at_pc wk_pc wk_model wk_optimizer
                                      wk_avg_loss].
  unfold train_batches. rewrite <- Hfold. cbn [fst snd].
  repeat split.
  - rewrite map_app, existsb_app, Hsleep, Htr. reflexivity.
  - rewrite map_app, Htr, Hid. apply in_or_app. right. simpl. tauto.
Qed.


(** X11: a worker that has at least one batch and no more batches than
    the synchronisation interval never enters a synchronisation point.
    Whatever the other processes do (they leave its entries in place), it
    completes in [4 L + 5] steps without ever sleeping, and its model,
    optimiser and batch losses are those of the local optimisation steps
    over its batches, in order; that model is what it publishes last. *)
Theorem worker_below_interval_runs_alone (T : Torch) (args : Arguments)
    (id : string) (model : Model) (optimizer : Optim)
    (train_loader : list Batch) (envs : list (Shared -> Shared))
    (s : Shared) :
  train_loader <> [] ->
  batches train_loader <= sync_every_n_batch args ->
  Dict.mem id (loss_dict s) = true ->
  Dict.mem id (waiting_for_sync_dict s) = true ->
  Forall (keeps_worker_entries id) envs ->
  List.length envs = (4 * List.length train_loader + 5)%nat ->
  let run := worker_run args envs s
               (spawn_worker id model optimizer train_loader) in
  wk_pc (snd run) = WDone
  /\ (wk_model (snd run), wk_optimizer (snd run), wk_avg_loss (snd run))
     = train_batches model optimizer train_loader
  /\ existsb is_sleep (map fst (fst run)) = false
  /\ In (EvPublish id (fst (fst (train_batches model optimizer train_loader))))
        (map fst (fst run)).
Proof.
  intros Hne HL Hloss Hwait Henvs Hlen.
  exact (run_below_interval T args id model optimizer train_loader envs s
           Hne HL Hloss Hwait Henvs Hlen).
Qed.

Lemma worker_below_interval_runs_alone_witness :
  wk_pc (snd (worker_run Probe.args2 (Probe.idle 13)
                (sys_shared (fst Probe.started))
                (spawn_worker (T := Probe.torch) "B"%string (Probe.probe 0)
                              tt [3; 3]%float)))
  = WDone.
Proof.
  refine (proj1 (worker_below_interval_runs_alone Probe.torch Probe.args2
    "B"%string (Probe.probe 0) tt [3; 3]%float (Probe.idle 13)
    (sys_shared (fst Probe.started)) _ _ _ _ _ _)).
  - discriminate.
  - vm_compute. discriminate.
  - reflexivity.
  - reflexivity.
  - repeat constructor; intros H; exact H.
  - reflexivity.
Defined.

(** ** A round with a single worker *)

(** X12: when only one worker is registered, a synchronisation point gives
    it back its own model. From its publishing step on, with the
    coordinator at the head of its wait loop: the worker publishes,
    records its loss, clears the completion flag and sets its waiting
    flag; the coordinator finds every flag set, stores the single
    submission as the merged model without reading any weight, releases
    the flag and signals completion; the worker then loads the model it
    had, keeping its optimiser if [keep_optim_dict] is set and
    re-initialising it otherwise. *)
Theorem lone_worker_round_returns_its_model (T : Torch) (args : Arguments)
    (weights : Dict.t string float) (w : Worker) (b : Batch) (i : Z)
    (v : float) (d : Dict.t loss_key float) (s : Shared) :
  wk_pc w = WPublish b ->
  wk_batch_idx w = Some i ->
  last_loss (wk_avg_loss w) = Ok v ->
  Dict.lookup (wk_id w) (loss_dict s) = Some d ->
  Dict.keys (result_dict s) = [wk_id w] ->
  Dict.keys (waiting_for_sync_dict s) = [wk_id w] ->
  let sys := {| sys_shared := s; sys_workers := [w];
                sys_sync := SWaitAll; sys_main := MJoin;
                sys_weights := []; sys_vis_params := false |} in
  let schedule :=
    repeat (ActWorker 0) 4 ++ repeat ActSync 4 ++ repeat (ActWorker 0) 2 in
  let run := system_run args weights schedule sys in
  fst run
  = [EvPublish (wk_id w) (wk_model w); EvLoss (wk_id w) (AtBatch i) v;
     EvRound false; EvWaiting (wk_id w) true;
     EvTau; EvResolve; EvRelease; EvRound true;
     EvTau; EvLoad (wk_model w)]
  /\ sys_workers (snd run)
     = [ {| wk_id := wk_id w;
            wk_model := wk_model w;
            wk_optimizer :=
              if keep_optim_dict args then wk_optimizer w
              else init_optim (wk_model w) (reinit_kwargs args)
                              (wk_optimizer w);
            wk_avg_loss := wk_avg_loss w;
            wk_L := wk_L w;
            wk_batch_idx := wk_batch_idx w;
            wk_rest := wk_rest w;
            wk_pc := WTrain b |} ]
  /\ Dict.lookup "model"%string (sync_dict (sys_shared (snd run)))
     = Some (Some (wk_model w))
  /\ Dict.lookup (wk_id w) (waiting_for_sync_dict (sys_shared (snd run)))
     = Some false
  /\ sys_sync (snd run) = SOuter.
Proof.
  intros Hpc Hidx Hlast Hd Hres Hwait.
  destruct w as [id model optimizer avg_loss L idx rest pc].
  destruct s as [rd wd sd pd ld st sc].
  simpl in *. subst pc idx.
  destruct rd as [|[k x] [|kv rd]]; try discriminate Hres.
  destruct wd as [|[k' fl] [|kv wd]]; try discriminate Hwait.
  simpl in Hres, Hwait. injection Hres as ->. injection Hwait as ->.
  unfold system_run, system_step, worker_step, synchronizer_step,
    resolve_models, release_barrier, publish_merged, get_batch_idx,
    Dict.getitem, Dict.len.
  simpl. rewrite Hlast. simpl. rewrite Hd. simpl.
  rewrite ?String.eqb_refl. simpl. rewrite ?lookup_set_eq. simpl.
  repeat split.
  - apply lookup_set_eq.
  - rewrite String.eqb_refl. simpl. now rewrite String.eqb_refl.
Qed.

Lemma lone_worker_round_returns_its_model_witness :
  Dict.lookup "model"%string
    (sync_dict (sys_shared (snd (system_run Probe.args2 []
       (repeat (ActWorker 0) 4 ++ repeat ActSync 4 ++ repeat (ActWorker 0) 2)
       {| sys_shared := Probe.lone_state; sys_workers := [Probe.lone_worker];
          sys_sync := SWaitAll; sys_main := MJoin;
          sys_weights := []; sys_vis_params := false |}))))
  = Some (Some (Probe.probe 2)).
Proof.
  refine (proj1 (proj2 (proj2 (lone_worker_round_returns_its_model
    Probe.torch Probe.args2 [] Probe.lone_worker 1%float 2 1%float []
    Probe.lone_state _ _ _ _ _ _)))); reflexivity.
Defined.

(** ** The orchestrator and the processes it started *)

Section Orchestration.
Context {T : Torch}.
Variable args : Arguments.
Variable weights : Dict.t string float.

Lemma terminal_worker_step (s : Shared) (w : Worker) :
  worker_terminal (wk_pc w) = true -> worker_step args s w = (EvTau, s, w).
Proof.
  unfold worker_step. destruct (wk_pc w); try discriminate; reflexivity.
Qed.

Lemma terminal_sync_step (wait_interval : float) (s : Shared) (pc : sync_pc) :
  sync_terminal pc = true ->
  synchronizer_step weights wait_interval s pc = (EvTau, s, pc).
Proof. destruct pc; try discriminate; reflexivity. Qed.

Lemma replace_nth_same {A : Type} (l : list A) :
  forall n a, nth_error l n = Some a -> replace_nth n a l = l.
Proof.
  induction l as [|x l IH]; intros [|n] a E; simpl in *; try discriminate.
  - now injection E as ->.
  - f_equal. now apply IH.
Qed.

Lemma forallb_nth_error {A : Type} (P : A -> bool) (l : list A) :
  forall n a, forallb P l = true -> nth_error l n = Some a -> P a = true.
Proof.
  induction l as [|x l IH]; intros [|n] a Hall E; simpl in *;
    try discriminate; apply andb_true_iff in Hall; destruct Hall as [Hx Hl].
  - now injection E as <-.
  - now apply IH with n.
Qed.

(** Once every worker has ended, a step of a worker changes nothing. *)
Lemma ended_worker_step (n : nat) (sys : System) :
  all_ended (sys_workers sys) = true ->
  snd (system_step args weights (ActWorker n) sys) = sys.
Proof.
  intros Hall. unfold system_step.
  destruct (nth_error (sys_workers sys) n) as [w|] eqn:E; [|reflexivity].
  rewrite terminal_worker_step
    by (exact (forallb_nth_error _ _ n w Hall E)).
  simpl. rewrite replace_nth_same by exact E. now destruct sys.
Qed.

Lemma ended_sync_step (sys : System) :
  sync_terminal (sys_sync sys) = true ->
  snd (system_step args weights ActSync sys) = sys.
Proof.
  intros Hterm. unfold system_step. rewrite terminal_sync_step by exact Hterm.
  simpl. now destruct sys.
Qed.

Lemma main_outcome_same (sys sys' : System) (pc : main_pc) :
  sys_shared sys' = sys_shared sys ->
  sys_weights sys' = sys_weights sys ->
  sys_vis_params sys' = sys_vis_params sys ->
  main_outcome args sys pc -> main_outcome args sys' pc.
Proof.
  intros Hs Hw Hv H.
  destruct H as [Hm|m e Hm Ha|m a Hm Ha Hvis Hno|m a Hm Ha Hvis];
    rewrite <- ?Hs, <- ?Hw, <- ?Hv in *.
  - now apply NoModel.
  - now apply NoAverage with m.
  - now apply NoVisdom with m a.
  - now apply Returned with a.
Qed.

Lemma orchestrated_step (who : actor) (sys : System) :
  orchestrated args sys ->
  orchestrated args (snd (system_step args weights who sys)).
Proof.
  intros Hsys. destruct who as [n| |].
  - (* a worker *)
    destruct (sys_main sys) eqn:Hmain;
      try (rewrite ended_worker_step; [exact Hsys|];
           unfold orchestrated, quiescent in Hsys; rewrite Hmain in Hsys;
           tauto).
    unfold orchestrated in *. rewrite Hmain in Hsys. unfold system_step.
    destruct (nth_error (sys_workers sys) n) as [w|];
      [|simpl; now rewrite Hmain].
    pose proof (worker_step_stop args (sys_shared sys) w) as Hst.
    destruct (worker_step args (sys_shared sys) w) as [[ev s'] w'].
    simpl in *. rewrite Hmain. congruence.
  - (* the coordinator *)
    destruct (sys_main sys) eqn:Hmain;
      try (rewrite ended_sync_step; [exact Hsys|];
           unfold orchestrated, quiescent in Hsys; rewrite Hmain in Hsys;
           tauto);
      unfold orchestrated in *; rewrite Hmain in Hsys; unfold system_step;
      pose proof (synchronizer_step_stop weights (wait_interval args)
                    (sys_shared sys) (sys_sync sys)) as Hst;
      destruct (synchronizer_step weights (wait_interval args)
                  (sys_shared sys) (sys_sync sys)) as [[ev s'] pc'];
      simpl in *; rewrite Hmain; intuition congruence.
  - (* the orchestrator *)
    destruct sys as [s workers sync pc wts vis].
    unfold orchestrated, quiescent, system_step, main_step in *.
    simpl in *. destruct pc; simpl.
    + destruct (forallb _ workers) eqn:Hall; simpl; auto.
    + tauto.
    + destruct (sync_terminal sync) eqn:Hterm; simpl; tauto.
    + unfold Dict.getitem.
      destruct (Dict.lookup "model"%string (sync_dict s)) as [m|] eqn:Hm;
        simpl; [tauto|].
      split; [tauto|]. now apply NoModel.
    + destruct Hsys as (Hq & Hm).
      destruct (average_loss s wts) as [a|e] eqn:Ha; simpl; [tauto|].
      split; [exact Hq|]. now apply NoAverage with model.
    + destruct Hsys as (Hq & Hm & Ha).
      destruct (visdom (training args)) eqn:Hvis;
        destruct vis; simpl; (split; [exact Hq|]).
      * apply Returned with avg_loss; auto.
      * now apply NoVisdom with model avg_loss.
      * apply Returned with avg_loss; auto.
      * apply Returned with avg_loss; auto. simpl. congruence.
    + destruct Hsys as (Hq & Ho). split; [exact Hq|].
      revert Ho. now apply main_outcome_same.
    + destruct Hsys as (Hq & Ho). split; [exact Hq|].
      revert Ho. now apply main_outcome_same.
Qed.

Lemma orchestrated_run (schedule : list actor) :
  forall sys,
    orchestrated args sys ->
    orchestrated args (snd (system_run args weights schedule sys)).
Proof.
  induction schedule as [|who schedule IH]; intros sys Hsys; simpl;
    [exact Hsys|].
  pose proof (orchestrated_step who sys Hsys) as Hstep.
  destruct (system_step args weights who sys) as [ev sys']. simpl in Hstep.
  specialize (IH sys' Hstep).
  now destruct (system_run args weights schedule sys') as [evs sys''].
Qed.

(** No step changes the local variables of the orchestrator. *)
Lemma system_step_locals (who : actor) (sys : System) :
  sys_weights (snd (system_step args weights who sys)) = sys_weights sys
  /\ sys_vis_params (snd (system_step args weights who sys))
     = sys_vis_params sys.
Proof.
  destruct who as [n| |]; unfold system_step.
  - destruct (nth_error (sys_workers sys) n) as [w|]; [|now split].
    now destruct (worker_step args (sys_shared sys) w) as [[ev s'] w'].
  - now destruct (synchronizer_step weights (wait_interval args)
                    (sys_shared sys) (sys_sync sys)) as [[ev s'] pc'].
  - now destruct (main_step args sys) as [[ev s'] pc'].
Qed.

Lemma system_run_locals (schedule : list actor) :
  forall sys,
    sys_weights (snd (system_run args weights schedule sys)) = sys_weights sys
    /\ sys_vis_params (snd (system_run args weights schedule sys))
       = sys_vis_params sys.
Proof.
  induction schedule as [|who schedule IH]; intros sys; simpl; [now split|].
  pose proof (system_step_locals who sys) as (Hw & Hv).
  destruct (system_step args weights who sys) as [ev sys']. simpl in *.
  specialize (IH sys'). destruct IH as (Hw' & Hv').
  destruct (system_run args weights schedule sys') as [evs sys''].
  simpl in *. split; congruence.
Qed.

End Orchestration.

Section FinalLosses.
Context {T : Torch}.

Lemma final_losses_raises (ls : list (Dict.t loss_key float)) (e : exn) :
  final_losses ls = Raise e -> e = KeyError.
Proof.
  induction ls as [|l ls IH]; simpl; [discriminate|].
  unfold Dict.getitem. destruct (Dict.lookup Final l) as [v|]; simpl.
  - destruct (final_losses ls) as [vs|e']; simpl; [discriminate|].
    intros E. injection E as <-. now apply IH.
  - intros E. now injection E as <-.
Qed.

Lemma final_losses_missing (ls : list (Dict.t loss_key float))
    (l : Dict.t loss_key float) :
  In l ls -> Dict.lookup Final l = None -> final_losses ls = Raise KeyError.
Proof.
  intros Hin Hl.
  destruct (final_losses ls) as [vs|e] eqn:E.
  - exfalso. revert vs E.
    induction ls as [|l0 ls IH]; intros vs E; [contradiction|].
    simpl in E. unfold Dict.getitem in E. destruct Hin as [->|Hin].
    + rewrite Hl in E. discriminate.
    + destruct (Dict.lookup Final l0); simpl in E; [|discriminate].
      destruct (final_losses ls) as [vs'|]; simpl in E; [|discriminate].
      now apply (IH Hin vs').
  - now rewrite (final_losses_raises ls e E).
Qed.

End FinalLosses.

(** X13: under every schedule of the processes [train_federated] started,
    [stop] is set only when every worker has ended (completed or failed),
    and the orchestrator ends only when the coordinator has ended as well.
    It returns what [sync_dict["model"]] holds then, and it returns
    exactly when a pass has stored something there, [np.average] of the
    final losses has a value, and [vis_params] was passed if [args.visdom]
    is set; otherwise it fails with the exception of the first of these
    that fails: [KeyError] without a stored model, the exception of the
    average ([KeyError] as soon as one worker has left no ["final"] loss),
    [TypeError] for the missing [vis_params]. A single worker that fails
    at its first batch makes it fail in this way after the read. *)
Theorem stop_only_after_every_worker_ended (T : Torch) (args : Arguments)
    (model : Model) (get_optim : string -> Optim) (train_loaders : loaders)
    (vis_params : bool) (schedule : list actor) :
  let started := start_system args model get_optim train_loaders vis_params in
  let sys := snd (system_run args (snd started) schedule (fst started)) in
  let s := sys_shared sys in
  let stored := Dict.lookup "model"%string (sync_dict s) in
  let averaged :=
    average_loss s (np_weights (progress_dict (init_shared train_loaders))) in
  let fine :=
    stored <> None
    /\ (exists avg_loss, averaged = Returns avg_loss)
    /\ (visdom (training args) = true -> vis_params = true) in
  (stop s = true -> all_ended (sys_workers sys) = true)
  /\ (forall merged,
         sys_main sys = MReturned merged ->
         all_ended (sys_workers sys) = true
         /\ sync_terminal (sys_sync sys) = true
         /\ stored = Some merged
         /\ fine)
  /\ (forall e,
         sys_main sys = MFailed e ->
         all_ended (sys_workers sys) = true
         /\ sync_terminal (sys_sync sys) = true
         /\ ~ fine
         /\ ((stored = None /\ e = Builtin KeyError)
             \/ (stored <> None /\ averaged = Throws e)
             \/ (stored <> None
                 /\ (exists avg_loss, averaged = Returns avg_loss)
                 /\ visdom (training args) = true
                 /\ vis_params = false
                 /\ e = TypeError)))
  /\ (forall l,
         In l (Dict.values (loss_dict s)) ->
         Dict.lookup Final l = None ->
         averaged = Throws (Builtin KeyError))
  /\ (let zero := Probe.config 0 0.1 false in
      let lone := [("A"%string, [1; 1]%float)] in
      let ended :=
        snd (system_run zero [("A"%string, 1%float)]
               (repeat (ActWorker 0) 3 ++ [ActSync] ++ repeat ActMain 2
                ++ repeat ActSync 6 ++ repeat ActMain 3)
               (fst (start_system (T := Probe.torch) zero (Probe.probe 0)
                       (fun _ => tt) lone false))) in
      wk_pc (Probe.worker_A ended) = WFailed ZeroDivisionError
      /\ Dict.lookup "model"%string (sync_dict (sys_shared ended))
         = Some None
      /\ sys_main ended = MFailed (Builtin KeyError)).
Proof.
  cbv zeta.
  assert (H0 : orchestrated args
                 (fst (start_system args model get_optim train_loaders
                         vis_params))).
  { unfold orchestrated, start_system. simpl.
    destruct (registered_init train_loaders) as (_ & _ & _ & _ & _ & _ & _ & Hs & _).
    exact Hs. }
  pose proof (orchestrated_run args
                (snd (start_system args model get_optim train_loaders
                        vis_params))
                schedule _ H0) as H.
  pose proof (system_run_locals args
                (snd (start_system args model get_optim train_loaders
                        vis_params))
                schedule
                (fst (start_system args model get_optim train_loaders
                        vis_params))) as (Hw & Hv).
  simpl in Hw, Hv.
  set (sys := snd (system_run _ _ schedule _)) in *.
  unfold orchestrated, quiescent in H. rewrite <- Hw, <- Hv.
  clear Hw Hv H0. clearbody sys.
  split; [|split; [|split; [|split]]].
  - intros Hstop. destruct (sys_main sys); intuition congruence.
  - intros merged Hmain. rewrite Hmain in H.
    destruct H as ((_ & Hall & Hterm) & Ho).
    inversion Ho as [| | |m a Hm Ha Hvis]; subst.
    repeat split; try assumption.
    + rewrite Hm. discriminate.
    + now exists a.
  - intros e Hmain. rewrite Hmain in H.
    destruct H as ((_ & Hall & Hterm) & Ho).
    split; [exact Hall|]. split; [exact Hterm|].
    inversion Ho as [Hm|m e' Hm Ha|m a Hm Ha Hvis Hno|]; subst.
    + split; [|left; now split].
      intros (Hst & _). contradiction.
    + split; [|right; left; split; [rewrite Hm; discriminate|exact Ha]].
      intros (_ & (a & Ha') & _). congruence.
    + split.
      * intros (_ & _ & Hgiven). specialize (Hgiven Hvis). congruence.
      * right; right. repeat split; try assumption.
        -- rewrite Hm. discriminate.
        -- now exists a.
  - intros l Hin Hl. unfold average_loss.
    now rewrite (final_losses_missing _ l Hin Hl).
  - vm_compute. repeat split; reflexivity.
Qed.

(** ** The entries of [result_dict] *)

Section KeptEntries.
Context {T : Torch}.
Variable args : Arguments.
Variable weights : Dict.t string float.

Lemma worker_step_result_keys (s : Shared) (w : Worker) :
  In (wk_id w) (Dict.keys (result_dict s)) ->
  Dict.keys (result_dict (snd (fst (worker_step args s w))))
  = Dict.keys (result_dict s).
Proof.
  intros Hin. unfold worker_step, fail. destruct (wk_pc w); simpl;
    repeat match goal with
           | |- context [match ?x with _ => _ end] =>
               lazymatch x with
               | context [match _ with _ => _ end] => fail
               | _ => destruct x eqn:?; simpl in *
               end
           end; try reflexivity; now apply keys_set_in.
Qed.

Lemma synchronizer_step_result (wait_interval : float) (s : Shared)
    (pc : sync_pc) :
  result_dict (snd (fst (synchronizer_step weights wait_interval s pc)))
  = result_dict s.
Proof.
  destruct pc; simpl; try reflexivity.
  destruct (resolve_models weights s) as [s'|e] eqn:E; simpl; [|reflexivity].
  apply resolve_models_frame in E. destruct E as [d ->]. reflexivity.
Qed.

Lemma Forall_replace_nth {A : Type} (P : A -> Prop) (a : A) (l : list A) :
  forall n, Forall P l -> P a -> Forall P (replace_nth n a l).
Proof.
  induction l as [|x l IH]; intros [|n] Hl Ha; simpl; try exact Hl;
    inversion Hl; subst; constructor; auto.
Qed.

(** [result_dict] keeps exactly the ids it has, as long as they include
    the id of every worker. *)
Lemma system_step_result_keys (who : actor) (sys : System) (ids : list string) :
  Dict.keys (result_dict (sys_shared sys)) = ids ->
  Forall (fun w => In (wk_id w) ids) (sys_workers sys) ->
  Dict.keys (result_dict (sys_shared (snd (system_step args weights who sys))))
  = ids
  /\ Forall (fun w => In (wk_id w) ids)
            (sys_workers (snd (system_step args weights who sys))).
Proof.
  intros Hkeys Hws. destruct who as [n| |]; unfold system_step.
  - destruct (nth_error (sys_workers sys) n) as [w|] eqn:E; [|now split].
    assert (Hw : In (wk_id w) ids).
    { apply nth_error_In in E. rewrite Forall_forall in Hws. now apply Hws. }
    pose proof (worker_step_result_keys (sys_shared sys) w) as Hk.
    pose proof (worker_step_keeps_id args (sys_shared sys) w) as [Hid _].
    destruct (worker_step args (sys_shared sys) w) as [[ev s'] w'].
    simpl in *. split.
    + rewrite Hk; [exact Hkeys|now rewrite Hkeys].
    + apply Forall_replace_nth; [exact Hws|now rewrite Hid].
  - pose proof (synchronizer_step_result (wait_interval args)
                  (sys_shared sys) (sys_sync sys)) as Hr.
    destruct (synchronizer_step weights (wait_interval args)
                (sys_shared sys) (sys_sync sys)) as [[ev s'] pc'].
    simpl in *. now rewrite Hr.
  - pose proof (main_step_shared args sys) as Hs.
    destruct (main_step args sys) as [[ev s'] pc']. simpl in *. subst s'.
    split; [|exact Hws]. now destruct (sys_main sys).
Qed.

Lemma system_run_result_keys (schedule : list actor) (ids : list string) :
  forall sys,
    Dict.keys (result_dict (sys_shared sys)) = ids ->
    Forall (fun w => In (wk_id w) ids) (sys_workers sys) ->
    Dict.keys
      (result_dict (sys_shared (snd (system_run args weights schedule sys))))
    = ids.
Proof.
  induction schedule as [|who schedule IH]; intros sys Hkeys Hws; simpl;
    [exact Hkeys|].
  pose proof (system_step_result_keys who sys ids Hkeys Hws) as (Hk & Hw).
  destruct (system_step args weights who sys) as [ev sys']. simpl in *.
  specialize (IH sys' Hk Hw).
  now destruct (system_run args weights schedule sys') as [evs sys''].
Qed.

Lemma resolve_models_branches (s : Shared) :
  resolve_models weights s
  = if Dict.len (result_dict s) =? 1 then
      Ok (fold_left publish_merged (Dict.values (result_dict s)) s)
    else if Dict.len (result_dict s) =? 0 then Ok s
    else
      match federated_avg
              (fold_left (fun models kv => Dict.set (fst kv) (snd kv) models)
                         (Dict.items (result_dict s)) Dict.empty)
              (Some weights) with
      | Ok avg_model => Ok (publish_merged s avg_model)
      | Raise e => Raise e
      end.
Proof. reflexivity. Qed.

(** A resolution that takes one of the other two branches stores a model
    that it computes from [result_dict] and the weights alone. *)
Lemma resolve_models_overwrites (s s' : Shared) :
  Dict.len (result_dict s) <> 0 ->
  resolve_models weights s = Ok s' ->
  exists merged,
    s' = publish_merged s merged
    /\ forall s2,
         result_dict s2 = result_dict s ->
         resolve_models weights s2 = Ok (publish_merged s2 merged).
Proof.
  intros Hlen. rewrite resolve_models_branches.
  destruct (Dict.len (result_dict s) =? 1) eqn:E1.
  - apply Z.eqb_eq in E1. destruct (len_one_singleton _ E1) as (k & v & Hrd).
    rewrite Hrd. simpl. intros E. injection E as <-.
    exists v. split; [reflexivity|].
    intros s2 Hrd2. unfold resolve_models. rewrite Hrd2. reflexivity.
  - destruct (Dict.len (result_dict s) =? 0) eqn:E0;
      [apply Z.eqb_eq in E0; contradiction|].
    destruct (federated_avg _ _) as [avg|e] eqn:Ea; [|discriminate].
    intros E. injection E as <-. exists avg. split; [reflexivity|].
    intros s2 Hrd. rewrite resolve_models_branches, Hrd, E1, E0, Ea.
    reflexivity.
Qed.

End KeptEntries.

(** C7: the resolution skips the aggregation and leaves the stored merged
    model alone only when [result_dict] has no entry at all. With at
    least one worker that is never so: under every schedule of the
    processes [train_federated] started, [result_dict] keeps exactly the
    ids registered at start-up, and a pass that does not fail overwrites
    [sync_dict["model"]] with a model computed from the entries of
    [result_dict] and the weights alone, whatever was stored and whichever
    ids are waiting, also none. *)
Theorem resolve_skips_only_without_entries (T : Torch) (args : Arguments)
    (model : Model) (get_optim : string -> Optim) (train_loaders : loaders)
    (vis_params : bool) (schedule : list actor) :
  train_loaders <> [] ->
  let started := start_system args model get_optim train_loaders vis_params in
  let weights := snd started in
  let s := sys_shared (snd (system_run args weights schedule (fst started))) in
  (forall s0, Dict.len (result_dict s0) = 0 -> resolve_models weights s0 = Ok s0)
  /\ Dict.keys (result_dict s)
     = Dict.keys (result_dict (init_shared train_loaders))
  /\ Dict.len (result_dict s) <> 0
  /\ (forall s',
         resolve_models weights s = Ok s' ->
         exists merged,
           s' = publish_merged s merged
           /\ Dict.lookup "model"%string (sync_dict s') = Some merged
           /\ forall s2,
                result_dict s2 = result_dict s ->
                resolve_models weights s2 = Ok (publish_merged s2 merged)).
Proof.
  intros Hne. cbv zeta.
  set (weights := snd (start_system args model get_optim train_loaders
                         vis_params)).
  assert (Hids : forall id,
             In id (map fst train_loaders) ->
             In id (Dict.keys (result_dict (init_shared train_loaders)))).
  { intros id Hin.
    destruct (registered_init train_loaders) as (Hr & _). rewrite Hr.
    unfold init_shared. rewrite keys_register_fold. now right. }
  assert (Hkeys :
    Dict.keys (result_dict (sys_shared (snd (system_run args weights schedule
      (fst (start_system args model get_optim train_loaders vis_params))))))
    = Dict.keys (result_dict (init_shared train_loaders))).
  { apply system_run_result_keys; [reflexivity|].
    unfold start_system. simpl. apply Forall_forall. intros w Hw.
    apply in_map_iff in Hw. destruct Hw as (wl & <- & Hwl). simpl.
    apply Hids. now apply in_map. }
  assert (Hlen :
    Dict.len (result_dict (sys_shared (snd (system_run args weights schedule
      (fst (start_system args model get_optim train_loaders vis_params))))))
    <> 0).
  { destruct train_loaders as [|wl rest]; [contradiction|].
    specialize (Hids (fst wl) (or_introl eq_refl)). rewrite <- Hkeys in Hids.
    unfold Dict.len, Dict.keys in *.
    destruct (result_dict _); [contradiction|]. simpl. lia. }
  split; [|split; [|split]].
  - intros s0. apply resolve_models_nil.
  - exact Hkeys.
  - exact Hlen.
  - intros s' Hres.
    destruct (resolve_models_overwrites weights _ s' Hlen Hres)
      as (merged & Hs' & Hdep).
    exists merged. split; [exact Hs'|]. split; [|exact Hdep].
    rewrite Hs'. apply lookup_publish_merged.
Qed.

Lemma resolve_skips_only_without_entries_witness :
  Dict.len (result_dict (sys_shared (snd (Probe.run Probe.at_idle_resolution))))
  <> 0.
Proof.
  exact (proj1 (proj2 (proj2
    (resolve_skips_only_without_entries Probe.torch Probe.args2
       (Probe.probe 0) (fun _ => tt) Probe.two_workers false
       Probe.at_idle_resolution ltac:(discriminate))))).
Defined.

(** In the two-worker scenario both workers have completed and left the
    waiting map when the coordinator, finding no flag unset, resolves
    again: no id is waiting, and the merged model 4 of the round before is
    overwritten by 6, the merge of the final models the workers left in
    [result_dict]. A pass over the models of the waiting ids only would
    have left the 4 in place. *)
Lemma resolve_without_waiting_ids_overwrites_merged :
  let sys := snd (Probe.run Probe.at_idle_resolution) in
  let s := sys_shared sys in
  let weights := snd Probe.started in
  sys_sync sys = SResolve
  /\ stop s = false
  /\ waiting_for_sync_dict s = []
  /\ waiting_ids s = []
  /\ result_dict s = [("A"%string, Some (Probe.probe 6));
                      ("B"%string, Some (Probe.probe 6))]
  /\ Dict.lookup "model"%string (sync_dict s) = Some (Some (Probe.probe 4))
  /\ resolve_waiting_only weights s = Ok s
  /\ resolve_models weights s = Ok (publish_merged s (Some (Probe.probe 6)))
  /\ Dict.lookup "model"%string
       (sync_dict (sys_shared (snd (system_step Probe.args2 weights ActSync sys))))
     = Some (Some (Probe.probe 6)).
Proof. vm_compute. repeat split; reflexivity. Qed.

(** ** The learning rate schedule *)

Section SchedulerFacts.
Variable np_power : float -> float -> float.
Variable np_cos : float -> float.
Variable float_mod : float -> float -> float.

Lemma get_lr_int (s : LearningRateScheduler) (total epoch : Z) :
  total_epochs s = IntNum total ->
  get_lr np_power np_cos float_mod s epoch
  = if total =? 0 then Throws (Builtin ZeroDivisionError)
    else if total <? 0 then Throws AssertionError
    else Returns (calc_lr np_power np_cos s (IntNum (epoch mod total))).
Proof.
  intros Htotal. unfold get_lr. rewrite Htotal.
  destruct (Z.eqb_spec total 0) as [E|E]; [reflexivity|].
  destruct (Z.ltb_spec total 0) as [Hneg|Hpos].
  - pose proof (Z.mod_neg_bound epoch total Hneg) as Hb.
    destruct (Z.gtb_spec (epoch mod total) total) as [_|Hle];
      [reflexivity|lia].
  - pose proof (Z.mod_pos_bound epoch total ltac:(lia)) as Hb.
    destruct (Z.gtb_spec (epoch mod total) total) as [Hgt|_];
      [lia|reflexivity].
Qed.

Lemma get_lr_periodic (s : LearningRateScheduler) (total epoch k : Z) :
  total_epochs s = IntNum total ->
  get_lr np_power np_cos float_mod s (epoch + k * total)
  = get_lr np_power np_cos float_mod s epoch.
Proof.
  intros Htotal. rewrite !(get_lr_int s total _ Htotal).
  destruct (Z.eqb_spec total 0) as [E|E]; [reflexivity|].
  now rewrite Z.mod_add by exact E.
Qed.

Lemma scheduler_init_plain (epochs : Z) (start_lr end_lr : float)
    (plan_name : string) (restarts : option Z) :
  restarts = None \/ restarts = Some 0 ->
  plan_name = "log_linear"%string \/ plan_name = "log_cosine"%string ->
  exists s,
    scheduler_init epochs start_lr end_lr plan_name restarts = Returns s
    /\ total_epochs s = IntNum epochs.
Proof.
  intros [-> | ->] [-> | ->]; simpl; eexists; split; reflexivity.
Qed.

End SchedulerFacts.

(** X14: for a scheduler whose [total_epochs] is an [int] (no restarts),
    [get_lr] raises [ZeroDivisionError] when it is 0 and [AssertionError]
    for every epoch when it is negative; when it is positive [get_lr]
    never raises, so the test for an epoch "out of precalculated schedule"
    never fires, and the rate is that of the epoch reduced modulo
    [total_epochs], which lies in [0, total_epochs). *)
Theorem get_lr_by_sign_of_total (np_power : float -> float -> float)
    (np_cos : float -> float) (float_mod : float -> float -> float)
    (s : LearningRateScheduler) (total epoch : Z) :
  total_epochs s = IntNum total ->
  get_lr np_power np_cos float_mod s epoch
  = (if total =? 0 then Throws (Builtin ZeroDivisionError)
     else if total <? 0 then Throws AssertionError
     else Returns (calc_lr np_power np_cos s (IntNum (epoch mod total))))
  /\ (0 < total -> 0 <= epoch mod total < total).
Proof.
  intros Htotal. split.
  - now apply get_lr_int.
  - intros Hpos. now apply Z.mod_pos_bound.
Qed.

Lemma get_lr_by_sign_of_total_witness :
  get_lr (fun _ x => x) (fun x => x) (fun x _ => x)
    {| total_epochs := IntNum (-5); schedule_plan := LogLinear;
       log_start_lr := 0; log_end_lr := 1 |} 3
  = Throws AssertionError.
Proof.
  exact (proj1 (get_lr_by_sign_of_total (fun _ x => x) (fun x => x)
                  (fun x _ => x)
                  {| total_epochs := IntNum (-5); schedule_plan := LogLinear;
                     log_start_lr := 0; log_end_lr := 1 |} (-5) 3 eq_refl)).
Defined.

(** X15: a scheduler built by [__init__] without restarts ([None] or 0),
    for a positive number of epochs and a known plan, never raises in
    [get_lr] and repeats with period [total_epochs]: the rate at epoch
    [e + k * total_epochs] is the rate at epoch [e], so at epoch
    [total_epochs] the schedule is back at the rate of epoch 0. *)
Theorem schedule_without_restarts_wraps
    (np_power : float -> float -> float) (np_cos : float -> float)
    (float_mod : float -> float -> float) (epochs : Z)
    (start_lr end_lr : float) (plan_name : string) (restarts : option Z)
    (epoch k : Z) :
  restarts = None \/ restarts = Some 0 ->
  plan_name = "log_linear"%string \/ plan_name = "log_cosine"%string ->
  0 < epochs ->
  exists s lr,
    scheduler_init epochs start_lr end_lr plan_name restarts = Returns s
    /\ get_lr np_power np_cos float_mod s epoch = Returns lr
    /\ get_lr np_power np_cos float_mod s (epoch + k * epochs) = Returns lr
    /\ get_lr np_power np_cos float_mod s epochs
       = get_lr np_power np_cos float_mod s 0.
Proof.
  intros Hrestarts Hplan Hpos.
  destruct (scheduler_init_plain epochs start_lr end_lr plan_name restarts
              Hrestarts Hplan) as (s & Hinit & Htotal).
  exists s, (calc_lr np_power np_cos s (IntNum (epoch mod epochs))).
  assert (Hlr : get_lr np_power np_cos float_mod s epoch
                = Returns (calc_lr np_power np_cos s (IntNum (epoch mod epochs)))).
  { rewrite (get_lr_int np_power np_cos float_mod s epochs epoch Htotal).
    destruct (Z.eqb_spec epochs 0); [lia|].
    destruct (Z.ltb_spec epochs 0); [lia|reflexivity]. }
  repeat split.
  - exact Hinit.
  - exact Hlr.
  - now rewrite (get_lr_periodic np_power np_cos float_mod s epochs epoch k
                   Htotal).
  - pose proof (get_lr_periodic np_power np_cos float_mod s epochs 0 1
                  Htotal) as Hwrap.
    replace (0 + 1 * epochs) with epochs in Hwrap by lia. exact Hwrap.
Qed.

Lemma schedule_without_restarts_wraps_witness :
  exists s lr,
    scheduler_init 10 0 1 "log_linear" (Some 0) = Returns s
    /\ get_lr (fun _ x => x) (fun x => x) (fun x _ => x) s 3 = Returns lr
    /\ get_lr (fun _ x => x) (fun x => x) (fun x _ => x) s (3 + 2 * 10)
       = Returns lr
    /\ get_lr (fun _ x => x) (fun x => x) (fun x _ => x) s 10
       = get_lr (fun _ x => x) (fun x => x) (fun x _ => x) s 0.
Proof.
  apply (schedule_without_restarts_wraps (fun _ x => x) (fun x => x)
           (fun x _ => x) 10 0 1 "log_linear" (Some 0) 3 2).
  - now right.
  - now left.
  - lia.
Defined.

(** X16: [adjust_learning_rate] computes the rate before it touches the
    optimiser. When [get_lr] raises, the parameter groups are as they
    were; otherwise it returns the rate, keeps the number of groups, and
    every group then has that rate under ["lr"] and every other key as
    before. *)
Theorem adjust_learning_rate_sets_every_group
    (np_power : float -> float -> float) (np_cos : float -> float)
    (float_mod : float -> float -> float) (Other : Type)
    (s : LearningRateScheduler)
    (param_groups : list (Dict.t string (hyper Other))) (epoch : Z) :
  let after := adjust_learning_rate np_power np_cos float_mod s param_groups
                 epoch in
  match get_lr np_power np_cos float_mod s epoch with
  | Throws e => after = (param_groups, Throws e)
  | Returns lr =>
      snd after = Returns lr
      /\ List.length (fst after) = List.length param_groups
      /\ Forall (fun g => Dict.lookup "lr"%string g = Some (HFloat lr))
                (fst after)
      /\ (forall n g g' key,
             nth_error param_groups n = Some g ->
             nth_error (fst after) n = Some g' ->
             key <> "lr"%string ->
             Dict.lookup key g' = Dict.lookup key g)
  end.
Proof.
  simpl. unfold adjust_learning_rate.
  destruct (get_lr np_power np_cos float_mod s epoch) as [lr|e];
    [|reflexivity].
  simpl. repeat split.
  - apply length_map.
  - apply Forall_forall. intros g Hin. apply in_map_iff in Hin.
    destruct Hin as (g0 & <- & _). apply lookup_set_eq.
  - intros n g g' key Hg Hg' Hkey.
    rewrite nth_error_map, Hg in Hg'. simpl in Hg'. injection Hg' as <-.
    now apply lookup_set_neq.
Qed.

(** ** Plain training *)

Section PlainTrainingFacts.
Context {T : Torch}.
Variable one_hot : Batch -> Batch.
Variable mixup_forward : MixUp -> Z -> Batch -> Batch.

Lemma fold_train_acc (batches : list Batch) :
  forall (m : Model) (o : Optim) (seen : list float),
    fold_left train_acc batches (m, o, seen)
    = let '(fm, fo, ls) := fold_left train_acc batches (m, o, []) in
      (fm, fo, seen ++ ls).
Proof.
  induction batches as [|b rest IH]; intros m o seen; simpl.
  - now rewrite app_nil_r.
  - destruct (train_batch m o b) as [[m1 o1] l].
    rewrite (IH m1 o1 (seen ++ [l])), (IH m1 o1 [l]).
    destruct (fold_left train_acc rest (m1, o1, [])) as [[fm fo] ls].
    now rewrite <- app_assoc.
Qed.

Lemma train_loop_plain (args : TrainArguments) (vis_params : bool)
    (epoch : Z) (div : float) (batches : list Batch) :
  log_interval args <> 0 ->
  (visdom args = true -> vis_params = true) ->
  forall (batch_idx : Z) (st : train_state),
    train_loop one_hot mixup_forward args vis_params None epoch div batches
               batch_idx st
    = let '(m, o, losses) :=
        fold_left train_acc batches (tr_model st, tr_optimizer st, []) in
      ({| tr_model := m;
          tr_optimizer := o;
          tr_avg_loss :=
            tr_avg_loss st
            ++ (if visdom args then []
                else logged_losses (log_interval args) batch_idx losses);
          tr_points :=
            tr_points st
            ++ (if visdom args
                then logged_points epoch div (log_interval args) batch_idx
                                   losses
                else []) |},
       None).
Proof.
  intros Hli Hvis. apply Z.eqb_neq in Hli.
  assert (Hgo : forall logged, logged && visdom args && negb vis_params = false).
  { intros logged. destruct (visdom args); [rewrite Hvis by reflexivity|];
      now destruct logged. }
  induction batches as [|b rest IH]; intros batch_idx st; simpl.
  - destruct (visdom args); rewrite !app_nil_r; now destruct st.
  - destruct (train_batch (tr_model st) (tr_optimizer st) b)
      as [[m1 o1] l] eqn:Eb.
    unfold py_mod. rewrite Hli. rewrite Hgo, IH. simpl.
    rewrite (fold_train_acc rest m1 o1 [l]).
    destruct (fold_left train_acc rest (m1, o1, [])) as [[fm fo] ls].
    simpl.
    destruct (batch_idx mod log_interval args =? 0), (visdom args); simpl;
      rewrite ?app_nil_r, <- ?app_assoc; reflexivity.
Qed.

Lemma train_plain (args : TrainArguments) (vis_params : bool) (model : Model)
    (optimizer : Optim) (epoch : Z) (train_loader : list Batch) :
  mixup args = false ->
  log_interval args <> 0 ->
  (visdom args = true -> vis_params = true) ->
  train_loader <> [] ->
  train one_hot mixup_forward args vis_params model optimizer epoch
        train_loader
  = let '(m, o, losses) := train_batches model optimizer train_loader in
    let div := (1.0 / float_of_Z (Z.of_nat (List.length train_loader)))%float in
    ({| tr_model := m;
        tr_optimizer := o;
        tr_avg_loss :=
          if visdom args then []
          else logged_losses (log_interval args) 0 losses;
        tr_points :=
          if visdom args
          then logged_points epoch div (log_interval args) 0 losses
          else [] |},
     None).
Proof.
  intros Hmix Hli Hvis Hne. unfold train. rewrite Hmix.
  destruct train_loader as [|b rest]; [contradiction|].
  change (Z.of_nat (List.length (b :: rest)) =? 0) with false.
  cbv iota. rewrite train_loop_plain by assumption.
  unfold train_batches. cbn [tr_model tr_optimizer tr_avg_loss tr_points].
  destruct (fold_left train_acc (b :: rest) (model, optimizer, []))
    as [[m o] losses].
  reflexivity.
Qed.

End PlainTrainingFacts.

(** X17: [train] without mixup, with a log interval that is not zero, a
    loader that is not empty, and [vis_params] given whenever
    [args.visdom] is set, raises nothing. It leaves the model and the
    optimiser as the local optimisation steps over the batches, in order,
    make them; [avg_loss] holds the losses of the batches whose index is a
    multiple of the log interval, or stays empty under visdom, which gets
    those losses as points instead. *)
Theorem train_runs_every_batch (T : Torch) (one_hot : Batch -> Batch)
    (mixup_forward : MixUp -> Z -> Batch -> Batch) (args : TrainArguments)
    (vis_params : bool) (model : Model) (optimizer : Optim) (epoch : Z)
    (train_loader : list Batch) :
  mixup args = false ->
  log_interval args <> 0 ->
  (visdom args = true -> vis_params = true) ->
  train_loader <> [] ->
  train one_hot mixup_forward args vis_params model optimizer epoch
        train_loader
  = let '(m, o, losses) := train_batches model optimizer train_loader in
    let div := (1.0 / float_of_Z (Z.of_nat (List.length train_loader)))%float in
    ({| tr_model := m;
        tr_optimizer := o;
        tr_avg_loss :=
          if visdom args then []
          else logged_losses (log_interval args) 0 losses;
        tr_points :=
          if visdom args
          then logged_points epoch div (log_interval args) 0 losses
          else [] |},
     None).
Proof.
  intros Hmix Hli Hvis Hne. now apply train_plain.
Qed.

Lemma train_runs_every_batch_witness :
  snd (train (T := Probe.torch) (fun b => b) (fun _ _ b => b)
         {| mixup := false; mixup_lambda := None; mixup_prob := None;
            log_interval := 2; visdom := false |}
         false (Probe.probe 0) tt 1 [1; 1; 1]%float)
  = None.
Proof.
  exact (f_equal snd
    (train_runs_every_batch Probe.torch (fun b => b) (fun _ _ b => b)
       {| mixup := false; mixup_lambda := None; mixup_prob := None;
          log_interval := 2; visdom := false |}
       false (Probe.probe 0) tt 1 [1; 1; 1]%float eq_refl
       ltac:(discriminate) ltac:(discriminate) ltac:(discriminate))).
Defined.

(** X18: how [train] fails. With mixup and no [mixup_prob] configured it
    raises [TypeError] in the constructor of [MixUp], before any batch.
    Without mixup, an empty loader raises [ZeroDivisionError] at
    [1.0 / float(L)], before any batch; a log interval of zero raises
    [ZeroDivisionError] at the first batch, and [args.visdom] without
    [vis_params] raises [TypeError] there, both after the optimisation step
    on that batch has already changed the model and the optimiser. *)
Theorem train_failures (T : Torch) (one_hot : Batch -> Batch)
    (mixup_forward : MixUp -> Z -> Batch -> Batch) (lam : option float)
    (prob : option float) (interval : Z) (vis vis_params : bool)
    (model : Model) (optimizer : Optim) (epoch : Z) (b : Batch)
    (rest : list Batch) :
  let untouched :=
    {| tr_model := model; tr_optimizer := optimizer;
       tr_avg_loss := []; tr_points := [] |} in
  let stepped :=
    {| tr_model := fst (fst (train_batch model optimizer b));
       tr_optimizer := snd (fst (train_batch model optimizer b));
       tr_avg_loss := []; tr_points := [] |} in
  train one_hot mixup_forward
    {| mixup := true; mixup_lambda := lam; mixup_prob := None;
       log_interval := interval; visdom := vis |}
    vis_params model optimizer epoch (b :: rest)
  = (untouched, Some TypeError)
  /\ train one_hot mixup_forward
       {| mixup := false; mixup_lambda := lam; mixup_prob := prob;
          log_interval := interval; visdom := vis |}
       vis_params model optimizer epoch []
     = (untouched, Some (Builtin ZeroDivisionError))
  /\ train one_hot mixup_forward
       {| mixup := false; mixup_lambda := lam; mixup_prob := prob;
          log_interval := 0; visdom := vis |}
       vis_params model optimizer epoch (b :: rest)
     = (stepped, Some (Builtin ZeroDivisionError))
  /\ train one_hot mixup_forward
       {| mixup := false; mixup_lambda := lam; mixup_prob := prob;
          log_interval := 1 + Z.abs interval; visdom := true |}
       false model optimizer epoch (b :: rest)
     = (stepped, Some TypeError).
Proof.
  cbv zeta. repeat split.
  - unfold train. simpl.
    destruct (train_batch model optimizer b) as [[m o] l]. reflexivity.
  - unfold train.
    change (Z.of_nat (List.length (b :: rest)) =? 0) with false.
    cbn [mixup]. cbv iota. cbn [train_loop tr_model tr_optimizer].
    destruct (train_batch model optimizer b) as [[m o] l].
    unfold py_mod. cbn [log_interval visdom tr_avg_loss tr_points fst snd].
    replace (1 + Z.abs interval =? 0) with false by (symmetry; lia).
    rewrite Z.mod_0_l by lia. reflexivity.
Qed.

(** X19: a federated worker that never reaches a synchronisation point
    (at least one batch, no more batches than the interval) ends, whatever
    the other processes do, with the model and the optimiser that [train]
    without mixup leaves for the same loader and starting point: the loop
    bodies of [train_on_server] and [train] then take the same
    optimisation step, [train_batch], on every batch. *)
Theorem worker_below_interval_matches_train (T : Torch)
    (one_hot : Batch -> Batch) (mixup_forward : MixUp -> Z -> Batch -> Batch)
    (args : Arguments) (targs : TrainArguments) (vis_params : bool)
    (id : string) (model : Model) (optimizer : Optim) (epoch : Z)
    (train_loader : list Batch) (envs : list (Shared -> Shared))
    (s : Shared) :
  train_loader <> [] ->
  batches train_loader <= sync_every_n_batch args ->
  Dict.mem id (loss_dict s) = true ->
  Dict.mem id (waiting_for_sync_dict s) = true ->
  Forall (keeps_worker_entries id) envs ->
  List.length envs = (4 * List.length train_loader + 5)%nat ->
  mixup targs = false ->
  log_interval targs <> 0 ->
  (visdom targs = true -> vis_params = true) ->
  let worker := snd (worker_run args envs s
                       (spawn_worker id model optimizer train_loader)) in
  let plain := train one_hot mixup_forward targs vis_params model optimizer
                     epoch train_loader in
  wk_pc worker = WDone
  /\ snd plain = None
  /\ wk_model worker = tr_model (fst plain)
  /\ wk_optimizer worker = tr_optimizer (fst plain).
Proof.
  intros Hne HL Hloss Hwait Henvs Hlen Hmix Hli Hvis.
  destruct (run_below_interval T args id model optimizer train_loader envs s
              Hne HL Hloss Hwait Henvs Hlen) as (Hpc & Hres & _).
  cbv zeta in Hpc, Hres |- *.
  rewrite (train_plain one_hot mixup_forward targs vis_params model optimizer
             epoch train_loader Hmix Hli Hvis Hne).
  destruct (train_batches model optimizer train_loader) as [[m o] losses].
  injection Hres as Hm Ho _. cbn [fst snd tr_model tr_optimizer].
  repeat split; assumption.
Qed.

Lemma worker_below_interval_matches_train_witness :
  wk_model (snd (worker_run Probe.args2 (Probe.idle 13)
                   (sys_shared (fst Probe.started))
                   (spawn_worker (T := Probe.torch) "B"%string
                                 (Probe.probe 0) tt [3; 3]%float)))
  = tr_model (fst (train (T := Probe.torch) (fun b => b) (fun _ _ b => b)
                     {| mixup := false; mixup_lambda := None;
                        mixup_prob := None; log_interval := 10;
                        visdom := false |}
                     false (Probe.probe 0) tt 1 [3; 3]%float)).
Proof.
  refine (proj1 (proj2 (proj2 (worker_below_interval_matches_train
    Probe.torch (fun b => b) (fun _ _ b => b) Probe.args2
    {| mixup := false; mixup_lambda := None; mixup_prob := None;
       log_interval := 10; visdom := false |}
    false "B"%string (Probe.probe 0) tt 1 [3; 3]%float (Probe.idle 13)
    (sys_shared (fst Probe.started)) _ _ _ _ _ _ _ _ _)))).
  - discriminate.
  - vm_compute. discriminate.
  - reflexivity.
  - reflexivity.
  - repeat constructor; intros H; exact H.
  - reflexivity.
  - reflexivity.
  - discriminate.
  - discriminate.
Defined.

(** ** The animation *)

Lemma animation_loop_frames (message : string) (n : nat) :
  forall (k : nat) (i : Z),
    0 <= i <= 4 ->
    i mod 4 = Z.of_nat k mod 4 ->
    animation_loop message n i
    = flat_map (fun j => [APrint (animation_frame message j); ASleep 0.5])
               (seq k n).
Proof.
  induction n as [|n IH]; intros k i Hi Hk; [reflexivity|].
  cbn [animation_loop seq flat_map app]. unfold animation_frame at 1.
  rewrite <- Hk.
  destruct (i mod 4 =? 0) eqn:E.
  - f_equal. f_equal. apply IH; [lia|].
    apply Z.eqb_eq in E. rewrite Nat2Z.inj_succ, <- Z.add_1_r.
    rewrite <- (Z.add_mod_idemp_l (Z.of_nat k)), <- Hk, E by lia.
    reflexivity.
  - f_equal. f_equal. apply Z.eqb_neq in E.
    assert (i <> 4) by (intros ->; now apply E).
    apply IH; [lia|].
    rewrite Nat2Z.inj_succ, <- Z.add_1_r.
    rewrite <- (Z.add_mod_idemp_l (Z.of_nat k)), <- Hk by lia.
    now rewrite Z.add_mod_idemp_l by lia.
Qed.

(** X20: [training_animation], when it finds [done.value] false [n] times,
    prints and sleeps half a second [n] times and then clears the line.
    Although the counter restarts at 1 and not at 0, every fourth turn,
    from the first on, prints the message on a cleared line and the three
    turns after it print a dot each. *)
Theorem training_animation_frames (message : string) (n : nat) :
  training_animation message n
  = flat_map (fun k => [APrint (animation_frame message k); ASleep 0.5])
             (seq 0 n)
    ++ [APrint (String.append clear_line newline)].
Proof.
  unfold training_animation. f_equal.
  apply animation_loop_frames; [lia | reflexivity].
Qed.

(** ** The constructor of [MixUp] *)

Lemma zero_in_unit_interval (x : float) :
  PrimFloat.eqb x 0 = true -> unit_interval x = true.
Proof.
  unfold unit_interval.
  rewrite FloatAxioms.eqb_spec, !FloatAxioms.leb_spec.
  change (FloatOps.Prim2SF 0) with (SpecFloat.S754_zero false).
  set (one := FloatOps.Prim2SF 1). vm_compute in one. subst one.
  destruct (FloatOps.Prim2SF x) as [s|s| |s m e]; try discriminate.
  - destruct s; reflexivity.
  - destruct s; unfold SpecFloat.SFeqb; simpl; discriminate.
  - destruct s; unfold SpecFloat.SFeqb; simpl; discriminate.
Qed.

(** X21: [MixUp(λ, p)] raises [TypeError] without [p], since [None] is
    compared with a float, and [AssertionError] unless [p] and, when it is
    given, [λ] lie in [0, 1]; otherwise it stores both. The test [if λ],
    which skips the assertion for a mix factor of zero, makes no
    difference: zero lies in the interval, and a NaN, which does not,
    counts as true. *)
Theorem mixup_init_checks_unit_interval (lam p : option float) :
  mixup_init lam p
  = match p with
    | None => Throws TypeError
    | Some pv =>
        if unit_interval pv
           && match lam with Some l => unit_interval l | None => true end
        then Returns {| mix_p := pv; mix_lambda := lam |}
        else Throws AssertionError
    end.
Proof.
  unfold mixup_init. destruct p as [pv|]; [|reflexivity].
  destruct (unit_interval pv); [|reflexivity].
  destruct lam as [l|]; [|reflexivity].
  unfold float_truthy. cbn [andb].
  destruct (PrimFloat.eqb l 0) eqn:E.
  - now rewrite (zero_in_unit_interval l E).
  - cbn [negb andb]. now destruct (unit_interval l).
Qed.

(** ** [MixUp.forward] *)

Section MixUpFacts.
Variable A : Type.
Variable blend : float -> A -> A -> A.

Lemma length_blend_rows (lam : float) (front back : list A) :
  List.length (blend_rows blend lam front back)
  = Nat.min (List.length front) (List.length back).
Proof.
  unfold blend_rows. now rewrite length_map, length_combine.
Qed.

Lemma length_mix_even (lam : float) (h : nat) (t : list A) :
  List.length t = (h + h)%nat ->
  List.length (mix_even blend lam h t) = h.
Proof.
  intros Ht. unfold mix_even.
  rewrite length_blend_rows, length_firstn, length_skipn. lia.
Qed.

Lemma length_mix_odd (lam : float) (h : nat) (t : list A) :
  List.length t = (h + h + 1)%nat ->
  List.length (mix_odd blend lam h t) = (h + 1)%nat
  /\ skipn h (mix_odd blend lam h t) = skipn (List.length t - 1) t.
Proof.
  intros Ht. unfold mix_odd.
  assert (Hfront :
    List.length (blend_rows blend lam (firstn h t)
                   (skipn h (firstn (List.length t - 1) t))) = h).
  { rewrite length_blend_rows, length_firstn, length_skipn, length_firstn.
    lia. }
  split.
  - rewrite length_app, Hfront, length_skipn. lia.
  - rewrite skipn_app, Hfront, Nat.sub_diag. cbn [skipn].
    rewrite skipn_all2 by lia. reflexivity.
Qed.

End MixUpFacts.

(** X22: [MixUp.forward], when it does not pass the batch on unchanged
    because of [p] and the targets have as many rows as the data, raises
    nothing and returns half as many rows of data and of targets, rounded
    up. With an odd number of rows the last row of the data and of the
    targets is returned as it came, mixed with no other. *)
Theorem forward_halves_batch (Sample Target : Type)
    (blend_x : float -> Sample -> Sample -> Sample)
    (blend_y : float -> Target -> Target -> Target) (m : MixUp)
    (r_p r_lam : float) (x : list Sample) (y : list Target) :
  skipped m r_p = false ->
  List.length y = List.length x ->
  exists xs ys,
    forward Sample Target blend_x blend_y m r_p r_lam x y = Returns (xs, ys)
    /\ List.length xs = ((List.length x + 1) / 2)%nat
    /\ List.length ys = ((List.length x + 1) / 2)%nat
    /\ ((List.length x mod 2 = 1)%nat ->
        skipn (List.length xs - 1) xs = skipn (List.length x - 1) x
        /\ skipn (List.length ys - 1) ys = skipn (List.length y - 1) y).
Proof.
  intros Hskip Hlen. unfold forward. rewrite Hskip, Hlen, Nat.eqb_refl.
  cbn [negb].
  pose proof (Nat.div_mod_eq (List.length x) 2) as Hdiv.
  pose proof (Nat.mod_upper_bound (List.length x) 2 ltac:(lia)) as Hmod.
  destruct (List.length x =? 1)%nat eqn:E1.
  - apply Nat.eqb_eq in E1. exists x, y. rewrite Hlen, E1.
    repeat split; reflexivity.
  - destruct (List.length x mod 2 =? 0)%nat eqn:E2.
    + apply Nat.eqb_eq in E2.
      assert (Hh : List.length x
                   = (List.length x / 2 + List.length x / 2)%nat) by lia.
      eexists; eexists; split; [reflexivity|].
      rewrite !length_mix_even by lia.
      repeat split;
        try (apply (Nat.div_unique _ 2 _ 1); lia);
        exfalso; lia.
    + apply Nat.eqb_neq in E2.
      assert (Hq : ((List.length x - 1) / 2 = List.length x / 2)%nat).
      { symmetry. apply (Nat.div_unique _ 2 _ 0); lia. }
      rewrite Hq.
      assert (Hh : List.length x
                   = (List.length x / 2 + List.length x / 2 + 1)%nat) by lia.
      destruct (length_mix_odd Sample blend_x (mix_factor m r_lam)
                  (List.length x / 2) x Hh) as (Hlx & Hlastx).
      destruct (length_mix_odd Target blend_y (mix_factor m r_lam)
                  (List.length x / 2) y ltac:(lia)) as (Hly & Hlasty).
      eexists; eexists; split; [reflexivity|].
      rewrite Hlx, Hly.
      replace (List.length x / 2 + 1 - 1)%nat with (List.length x / 2)%nat
        by lia.
      rewrite Hlen in Hlasty.
      repeat split; try assumption;
        apply (Nat.div_unique _ 2 _ 0); lia.
Qed.

Lemma forward_halves_batch_witness :
  exists xs ys,
    forward Z Z (fun _ a b => a + b) (fun _ a b => a + b)
            {| mix_p := 1; mix_lambda := None |} 0.5 0.25 [1; 2; 3] [4; 5; 6]
    = Returns (xs, ys)
    /\ List.length xs = 2%nat.
Proof.
  destruct (forward_halves_batch Z Z (fun _ a b => a + b) (fun _ a b => a + b)
              {| mix_p := 1; mix_lambda := None |} 0.5 0.25 [1; 2; 3]
              [4; 5; 6] eq_refl eq_refl) as (xs & ys & H & Hx & _).
  exists xs, ys. split; [exact H | exact Hx].
Defined.

(** X23: a mix factor of zero is accepted by the constructor of [MixUp]
    but never used: [forward] tests [if self.λ], so it draws a random
    factor as if none had been configured. *)
Theorem zero_mix_factor_is_drawn_at_random (Sample Target : Type)
    (blend_x : float -> Sample -> Sample -> Sample)
    (blend_y : float -> Target -> Target -> Target) (p : float)
    (r_p r_lam : float) (x : list Sample) (y : list Target) :
  unit_interval p = true ->
  exists m m0,
    mixup_init None (Some p) = Returns m
    /\ mixup_init (Some 0%float) (Some p) = Returns m0
    /\ mix_lambda m0 = Some 0%float
    /\ mix_factor m0 r_lam = r_lam
    /\ forward Sample Target blend_x blend_y m0 r_p r_lam x y
       = forward Sample Target blend_x blend_y m r_p r_lam x y.
Proof.
  intros Hp. unfold mixup_init. rewrite Hp.
  eexists; eexists; repeat split.
Qed.

Lemma zero_mix_factor_is_drawn_at_random_witness :
  exists m0,
    mixup_init (Some 0%float) (Some 0.5%float) = Returns m0
    /\ mix_factor m0 0.25 = 0.25%float.
Proof.
  destruct (zero_mix_factor_is_drawn_at_random Z Z (fun _ a b => a + b)
              (fun _ a b => a + b) 0.5 0.5 0.25 [1; 2] [3; 4] eq_refl)
    as (m & m0 & _ & H0 & _ & Hf & _).
  exists m0. split; [exact H0 | exact Hf].
Defined.
